(** * claude-md: path conversion, discovery and the save / restore / clear
      operations, embedded from the Go sources.

    Layout of the development:
    - [GoStrings]   the functions of Go's [strings] package the program calls;
    - [GoError]     Go [error] values (sentinel, formatted, wrapped, path errors);
    - [Filepath]    the lexical part of [path/filepath] on a Unix build;
    - [OS]          a sequential model of the file system seen through [os];
    - [Storage]     internal/storage/paths.go;
    - [Git]         internal/git: [ExtractRepoName], [ExtractUserFromEmail];
    - [Files]       internal/files: [FindClaudeFiles], [IsSymlink],
                    [FindStoredFiles];
    - [Operations]  internal/operations: [SaveFiles], [RestoreFiles],
                    [ClearSymlinks];
    - [Cmd]         the result loops of the save, restore and clear commands
                    and the init command;
    - [Frames]      relations between the file system before and after a call;
    then the lemmas, module by module in the same order, and after them what
    the operations leave of the tree and how they compose. *)

From Stdlib Require Import Strings.String Strings.Ascii Numbers.DecimalString.
From stdpp Require Import base option list strings gmap sorting.

Open Scope string_scope.

(** ** Go's [strings] package *)

Module GoStrings.

(** [strings.HasPrefix(s, prefix)]. *)
Fixpoint HasPrefix (s prefix : string) {struct prefix} : bool :=
  match prefix, s with
  | EmptyString, _ => true
  | String _ _, EmptyString => false
  | String a prefix', String b s' =>
      if Ascii.eqb a b then HasPrefix s' prefix' else false
  end.

(** [strings.Contains(s, substr)]: [substr] starts at some offset of [s]. *)
Fixpoint Contains (s substr : string) : bool :=
  HasPrefix s substr ||
  match s with
  | EmptyString => false
  | String _ s' => Contains s' substr
  end.

(** [strings.TrimPrefix(s, prefix)]. *)
Fixpoint TrimPrefix_go (s prefix : string) {struct prefix} : option string :=
  match prefix, s with
  | EmptyString, _ => Some s
  | String _ _, EmptyString => None
  | String a prefix', String b s' =>
      if Ascii.eqb a b then TrimPrefix_go s' prefix' else None
  end.

Definition TrimPrefix (s prefix : string) : string :=
  default s (TrimPrefix_go s prefix).

(** [strings.Split(s, sep)] for a one-byte separator, the only kind the
    program passes ("~", ":" and "/").  The result is never empty:
    [Split("", sep)] is the one-element slice holding the empty string. *)
Fixpoint Split (s : string) (sep : ascii) : list string :=
  match s with
  | EmptyString => [EmptyString]
  | String c s' =>
      if Ascii.eqb c sep then EmptyString :: Split s' sep
      else match Split s' sep with
           | [] => [String c EmptyString]
           | p :: ps => String c p :: ps
           end
  end.

(** [strings.Join(elems, sep)]. *)
Fixpoint Join (elems : list string) (sep : string) : string :=
  match elems with
  | [] => EmptyString
  | [e] => e
  | e :: rest => e +:+ sep +:+ Join rest sep
  end.

(** ASCII lower-casing of one byte. *)
Definition lower (c : ascii) : ascii :=
  let n := nat_of_ascii c in
  if (65 <=? n)%nat && (n <=? 90)%nat then ascii_of_nat (n + 32) else c.

Fixpoint ToLowerASCII (s : string) : string :=
  match s with
  | EmptyString => EmptyString
  | String c s' => String (lower c) (ToLowerASCII s')
  end.

(** [strings.EqualFold(s, t)] when [t] is made of ASCII letters other than
    [k] and [s] (the only letters with a non-ASCII case fold) and ASCII
    punctuation: then folding is ASCII lower-casing, byte by byte.  The
    program only compares against the literal "CLAUDE.md". *)
Definition EqualFold (s t : string) : bool :=
  String.eqb (ToLowerASCII s) (ToLowerASCII t).

(** [strings.HasSuffix(s, suffix)]:
    [len(s) >= len(suffix) && s[len(s)-len(suffix):] == suffix]. *)
Definition HasSuffix (s suffix : string) : bool :=
  (String.length suffix <=? String.length s)%nat
  && String.eqb (substring (String.length s - String.length suffix)
                           (String.length suffix) s) suffix.

(** [strings.Index(s, substr)]: the offset of the first occurrence of
    [substr] in [s], or -1. *)
Fixpoint Index (s substr : string) : Z :=
  if HasPrefix s substr then 0%Z
  else match s with
       | EmptyString => (-1)%Z
       | String _ s' =>
           let i := Index s' substr in
           if (i <? 0)%Z then (-1)%Z else (i + 1)%Z
       end.

(** The slice [s[:n]]. *)
Definition slice_to (s : string) (n : Z) : string := substring 0 (Z.to_nat n) s.

End GoStrings.

(** ** Go [error] values *)

Module GoError.

(** The [syscall.Errno] values the file-system model produces. *)
Inductive Errno :=
| ENOENT | EEXIST | EACCES | ENOTDIR | EISDIR | ENOTEMPTY
| ENOSPC | ELOOP | EINVAL | ENAMETOOLONG.

#[global] Instance Errno_eq_dec : EqDecision Errno.
Proof. solve_decision. Defined.

Definition errno_message (e : Errno) : string :=
  match e with
  | ENOENT => "no such file or directory"
  | EEXIST => "file exists"
  | EACCES => "permission denied"
  | ENOTDIR => "not a directory"
  | EISDIR => "is a directory"
  | ENOTEMPTY => "directory not empty"
  | ENOSPC => "no space left on device"
  | ELOOP => "too many levels of symbolic links"
  | EINVAL => "invalid argument"
  | ENAMETOOLONG => "file name too long"
  end.

(** A Go [error]: [errors.New] and [fmt.Errorf] without [%w] give an
    [errorString]; [fmt.Errorf] with [%w] keeps the wrapped error next to
    the formatted text; [os] reports [*fs.PathError], [*os.LinkError] and
    [*os.SyscallError]. *)
Inductive error :=
| errorString (msg : string)
| wrapError (msg : string) (inner : error)
| PathError (op path : string) (errno : Errno)
| LinkError (op old new : string) (errno : Errno)
| SyscallError (call : string) (errno : Errno).

#[global] Instance error_eq_dec : EqDecision error.
Proof. solve_decision. Defined.

(** The [Error()] method, which [%v] and [%s] print. *)
Definition Error (e : error) : string :=
  match e with
  | errorString msg => msg
  | wrapError msg _ => msg
  | PathError op path errno => op +:+ " " +:+ path +:+ ": " +:+ errno_message errno
  | LinkError op old new errno =>
      op +:+ " " +:+ old +:+ " " +:+ new +:+ ": " +:+ errno_message errno
  | SyscallError call errno => call +:+ ": " +:+ errno_message errno
  end.

(** The innermost [Errno], as [os.IsExist] and [os.IsNotExist] look for it
    (they inspect path, link and syscall errors, and do not unwrap [%w]). *)
Definition underlying (e : error) : option Errno :=
  match e with
  | PathError _ _ errno | LinkError _ _ _ errno | SyscallError _ errno => Some errno
  | errorString _ | wrapError _ _ => None
  end.

Definition IsNotExist (e : error) : bool :=
  bool_decide (underlying e = Some ENOENT).

Definition IsExist (e : error) : bool :=
  bool_decide (underlying e = Some EEXIST \/ underlying e = Some ENOTEMPTY).

(** [(T, error)] results. *)
Inductive result (A : Type) :=
| Ok (a : A)
| Err (e : error).
Arguments Ok {A} a.
Arguments Err {A} e.

Definition err_of {A} (r : result A) : option error :=
  match r with Ok _ => None | Err e => Some e end.

End GoError.

Export GoStrings GoError.

(** ** Go's [path/filepath], Unix build (separator "/", no volume names) *)

Module Filepath.

Definition Separator : ascii := "/"%char.

Definition IsAbs (path : string) : bool := HasPrefix path "/".

(** The element loop of [Clean]: [out] is the stack of elements written so
    far, innermost first.  Empty and "." elements are dropped; ".." removes
    the last real element when there is one, is dropped at the root of a
    rooted path and is kept otherwise (a leading run of ".." elements). *)
Fixpoint clean_elems (rooted : bool) (out : list string) (elems : list string)
  : list string :=
  match elems with
  | [] => rev out
  | e :: rest =>
      if String.eqb e "" || String.eqb e "." then clean_elems rooted out rest
      else if String.eqb e ".." then
        match out with
        | top :: out' =>
            if String.eqb top ".." then clean_elems rooted (".." :: out) rest
            else clean_elems rooted out' rest
        | [] =>
            if rooted then clean_elems rooted [] rest
            else clean_elems rooted [".."] rest
        end
      else clean_elems rooted (e :: out) rest
  end.

(** [filepath.Clean(path)]: the shortest lexically equivalent path. *)
Definition Clean (path : string) : string :=
  let rooted := IsAbs path in
  let body := Join (clean_elems rooted [] (Split path Separator)) "/" in
  if rooted then "/" +:+ body
  else if String.eqb body "" then "." else body.

(** [filepath.Join(elem...)]: the elements from the first non-empty one on,
    joined with the separator and cleaned; "" when all are empty. *)
Fixpoint Join (elem : list string) : string :=
  match elem with
  | [] => ""
  | e :: rest =>
      if String.eqb e "" then Join rest
      else Clean (GoStrings.Join elem "/")
  end.

(** Strip the trailing separators of [path]. *)
Fixpoint strip_trailing (path : string) : string :=
  match path with
  | EmptyString => EmptyString
  | String c rest =>
      match strip_trailing rest with
      | EmptyString => if Ascii.eqb c Separator then EmptyString else String c EmptyString
      | r => String c r
      end
  end.

(** [filepath.Base(path)]: the last element of [path]. *)
Definition Base (path : string) : string :=
  if String.eqb path "" then "."
  else
    let stripped := strip_trailing path in
    let last_elem := List.last (Split stripped Separator) "" in
    if String.eqb last_elem "" then "/" else last_elem.

(** [filepath.Dir(path)]: all but the last element of [path], cleaned. *)
Definition Dir (path : string) : string :=
  match rev (Split path Separator) with
  | [] | [_] => Clean ""
  | _ :: front => Clean (GoStrings.Join (rev front) "/" +:+ "/")
  end.

(** The elements [Rel] compares: those of a cleaned path, where the root
    "/" counts as the single empty element and "" has none. *)
Definition rel_elems (path : string) : list string :=
  if String.eqb path "" then []
  else if String.eqb path "/" then [""]
  else Split path Separator.

(** Drop the common leading elements of [base] and [targ]. *)
Fixpoint drop_common (base targ : list string) : list string * list string :=
  match base, targ with
  | b :: base', t :: targ' =>
      if String.eqb b t then drop_common base' targ' else (base, targ)
  | _, _ => (base, targ)
  end.

(** [filepath.Rel(basepath, targpath)]: a path that names [targpath] when
    joined to [basepath]; one ".." for every element left in the base, then
    what is left of the target.  It fails when one path is rooted and the
    other is not, and when the base would have to climb out of a "..". *)
Definition Rel (basepath targpath : string) : result string :=
  let base := Clean basepath in
  let targ := Clean targpath in
  if String.eqb targ base then Ok "."
  else
    let base := if String.eqb base "." then "" else base in
    let cannot :=
      Err (errorString ("Rel: can't make " +:+ targpath +:+ " relative to " +:+ basepath)) in
    if negb (Bool.eqb (IsAbs base) (IsAbs targ)) then cannot
    else
      match drop_common (rel_elems base) (rel_elems targ) with
      | (b :: base_left, t :: targ_left) =>
          if String.eqb b ".." then cannot
          else Ok (GoStrings.Join
                     (replicate (length (b :: base_left)) ".." ++ t :: targ_left) "/")
      | (b :: base_left, []) =>
          Ok (GoStrings.Join (replicate (length (b :: base_left)) "..") "/")
      | ([], targ_left) => Ok (GoStrings.Join targ_left "/")
      end.

(** The string has no ".." in it, as [ConvertToRepoPath] demands. *)
Definition no_dotdot (s : string) : Prop := Contains s ".." = false.

(** What a directory entry can be called: a non-empty name other than "."
    and "..", without a separator. *)
Definition is_name (e : string) : Prop :=
  e <> "" /\ e <> "." /\ e <> ".." /\ Contains e "/" = false.

End Filepath.



(** ** The file system seen through Go's [os] package

    A sequential model of one process on a Unix file system.
    - The tree is a finite map from cleaned absolute paths to nodes.  A
      directory carries two permission bits: [readable] (its entries may be
      listed) and [writable] (entries may be created in it and removed from
      it).  Paths are resolved lexically: a relative name is joined to the
      working directory, and only a symbolic link in the last position is
      followed (at most [MAXSYMLINKS] times), so the model covers trees whose
      directories are real directories.
    - [space] is the number of bytes that can still be written; a write of
      more than that fails with ENOSPC and writes nothing.
    - [home] is the value of $HOME ("" when it is not set).
    A failed call leaves the world as it was.

    Two limits of the model, which the statements below keep clear of:
    - a link to a directory is not followed in the middle of a path, so a
      name below such a link is refused (ENOTDIR) where the system would go
      through the link; [Frames.no_linked_dirs] names the trees in which the
      two agree;
    - a call fails for the reasons written in its definition only, so
      [Symlink_] cannot fail right after [Remove] of the same name has
      succeeded: the two branches of [SaveFiles] that put the original back
      are embedded as they are written, but nothing makes the model enter
      them. *)

Module OS.

Inductive Node :=
| File (content : string)
| Symlink (target : string)
| Directory (readable writable : bool).

#[global] Instance Node_eq_dec : EqDecision Node.
Proof. solve_decision. Defined.

Record World := mkWorld {
  fs : gmap string Node;
  cwd : string;
  home : string;
  space : nat;
}.

Definition with_fs (w : World) (m : gmap string Node) : World :=
  {| fs := m; cwd := cwd w; home := home w; space := space w |}.

Definition with_fs_space (w : World) (m : gmap string Node) (n : nat) : World :=
  {| fs := m; cwd := cwd w; home := home w; space := n |}.

(** [os.FileMode], reduced to the type bits the program tests. *)
Inductive FileMode := ModeRegular | ModeSymlink | ModeDir.

#[global] Instance FileMode_eq_dec : EqDecision FileMode.
Proof. solve_decision. Defined.

(** [os.FileInfo]. *)
Record FileInfo := mkFileInfo {
  Name : string;
  Mode : FileMode;
}.

Definition IsDir (info : FileInfo) : bool := bool_decide (Mode info = ModeDir).
Definition IsSymlinkMode (info : FileInfo) : bool := bool_decide (Mode info = ModeSymlink).

Definition mode_of (n : Node) : FileMode :=
  match n with
  | File _ => ModeRegular
  | Symlink _ => ModeSymlink
  | Directory _ _ => ModeDir
  end.

Definition info_of (name : string) (n : Node) : FileInfo :=
  {| Name := Filepath.Base name; Mode := mode_of n |}.

(** The key of [name] in the tree. *)
Definition locate (w : World) (name : string) : string :=
  if Filepath.IsAbs name then Filepath.Clean name
  else Filepath.Join [cwd w; name].

Definition MAXSYMLINKS : nat := 40.

(** Where a link at [key] with target [target] points. *)
Definition link_dest (key target : string) : string :=
  if Filepath.IsAbs target then Filepath.Clean target
  else Filepath.Join [Filepath.Dir key; target].

(** Follow the symbolic links at [key]: the final key and what is there. *)
Fixpoint follow (fuel : nat) (m : gmap string Node) (key : string)
  : Errno + (string * option Node) :=
  match m !! key with
  | Some (Symlink target) =>
      match fuel with
      | O => inl ELOOP
      | S fuel' => follow fuel' m (link_dest key target)
      end
  | o => inr (key, o)
  end.

(** May an entry be created in, or removed from, the directory of [key]? *)
Definition parent_check (m : gmap string Node) (key : string) : option Errno :=
  match m !! Filepath.Dir key with
  | None => Some ENOENT
  | Some (Directory _ true) => None
  | Some (Directory _ false) => Some EACCES
  | Some _ => Some ENOTDIR
  end.

(** The names of the entries of the directory at [key], sorted. *)
Definition entry_names (m : gmap string Node) (key : string) : list string :=
  merge_sort (fun a b => String.leb a b)
    (omap (fun k =>
             if bool_decide (k <> key) && String.eqb (Filepath.Dir k) key
             then Some (Filepath.Base k) else None)
          (elements (dom m))).

(** [w'] has everything [w] has, unchanged, and maybe more. *)
Definition extends (w w' : World) : Prop :=
  cwd w' = cwd w /\ fs w ⊆ fs w'.

(** Is the answer of [Stat] or [Lstat] "there is no such file"? *)
Definition missing (r : result FileInfo) : bool :=
  match r with
  | Err err => IsNotExist err
  | Ok _ => false
  end.

(** [os.Getwd]: fails once the working directory is gone. *)
Definition Getwd (w : World) : result string :=
  match fs w !! cwd w with
  | Some (Directory _ _) => Ok (cwd w)
  | _ => Err (SyscallError "getwd" ENOENT)
  end.

(** [os.UserHomeDir]: $HOME, an error when it is empty or not set. *)
Definition UserHomeDir (w : World) : result string :=
  if String.eqb (home w) "" then Err (errorString "$HOME is not defined")
  else Ok (home w).

(** [os.Lstat(name)]. *)
Definition Lstat (name : string) (w : World) : result FileInfo :=
  if String.eqb name "" then Err (PathError "lstat" name ENOENT)
  else match fs w !! locate w name with
       | Some n => Ok (info_of name n)
       | None => Err (PathError "lstat" name ENOENT)
       end.

(** [os.Stat(name)]: like [Lstat], through symbolic links. *)
Definition Stat (name : string) (w : World) : result FileInfo :=
  if String.eqb name "" then Err (PathError "stat" name ENOENT)
  else match follow MAXSYMLINKS (fs w) (locate w name) with
       | inl errno => Err (PathError "stat" name errno)
       | inr (_, None) => Err (PathError "stat" name ENOENT)
       | inr (_, Some n) => Ok (info_of name n)
       end.

(** [os.Readlink(name)]. *)
Definition Readlink (name : string) (w : World) : result string :=
  if String.eqb name "" then Err (PathError "readlink" name ENOENT)
  else match fs w !! locate w name with
       | Some (Symlink target) => Ok target
       | Some _ => Err (PathError "readlink" name EINVAL)
       | None => Err (PathError "readlink" name ENOENT)
       end.

(** [os.ReadFile(name)]. *)
Definition ReadFile (name : string) (w : World) : result string :=
  if String.eqb name "" then Err (PathError "open" name ENOENT)
  else match follow MAXSYMLINKS (fs w) (locate w name) with
       | inl errno => Err (PathError "open" name errno)
       | inr (_, None) => Err (PathError "open" name ENOENT)
       | inr (_, Some (File content)) => Ok content
       | inr (_, Some _) => Err (PathError "read" name EISDIR)
       end.

(** Is anything stored below the directory at [key]? *)
Definition has_entries (m : gmap string Node) (key : string) : bool :=
  bool_decide (entry_names m key <> []).

(** [os.Remove(name)]: unlink a file or link, or remove an empty directory. *)
Definition Remove (name : string) (w : World) : option error * World :=
  let key := locate w name in
  if String.eqb name "" then (Some (PathError "remove" name ENOENT), w)
  else match fs w !! key with
       | None => (Some (PathError "remove" name ENOENT), w)
       | Some n =>
           match parent_check (fs w) key with
           | Some errno => (Some (PathError "remove" name errno), w)
           | None =>
               match n with
               | Directory _ _ =>
                   if has_entries (fs w) key
                   then (Some (PathError "remove" name ENOTEMPTY), w)
                   else (None, with_fs w (delete key (fs w)))
               | File content =>
                   (None, with_fs_space w (delete key (fs w))
                                        (space w + String.length content))
               | Symlink _ => (None, with_fs w (delete key (fs w)))
               end
           end
       end.

(** An open [os.File]: the key of the file it was opened on.  The
    program writes once to a file it has just created, so the offset of the
    handle is the end of the file. *)
Record Handle := mkHandle { hkey : string; hname : string }.

(** [os.OpenFile(name, O_CREATE|O_EXCL|O_WRONLY, 0644)]: create the file,
    and fail with EEXIST when anything, a symbolic link included, has the
    name already. *)
Definition OpenFile_excl (name : string) (w : World) : result Handle * World :=
  let key := locate w name in
  if String.eqb name "" then (Err (PathError "open" name ENOENT), w)
  else match fs w !! key with
       | Some _ => (Err (PathError "open" name EEXIST), w)
       | None =>
           match parent_check (fs w) key with
           | Some errno => (Err (PathError "open" name errno), w)
           | None => (Ok (mkHandle key name), with_fs w (<[key := File ""]> (fs w)))
           end
       end.

(** [File.Write(b)] on an open file. *)
Definition Write (f : Handle) (b : string) (w : World) : option error * World :=
  match fs w !! hkey f with
  | Some (File content) =>
      if (String.length b <=? space w)%nat
      then (None, with_fs_space w (<[hkey f := File (content +:+ b)]> (fs w))
                                (space w - String.length b))
      else (Some (PathError "write" (hname f) ENOSPC), w)
  | _ => (Some (PathError "write" (hname f) EINVAL), w)
  end.

(** [File.Close()]. *)
Definition Close (f : Handle) (w : World) : option error * World := (None, w).

(** [os.WriteFile(name, data, 0644)]: create or truncate, then write. *)
Definition WriteFile (name : string) (data : string) (w : World)
  : option error * World :=
  if String.eqb name "" then (Some (PathError "open" name ENOENT), w)
  else match follow MAXSYMLINKS (fs w) (locate w name) with
       | inl errno => (Some (PathError "open" name errno), w)
       | inr (key, Some (File old)) =>
           let free := (space w + String.length old)%nat in
           if (String.length data <=? free)%nat
           then (None, with_fs_space w (<[key := File data]> (fs w))
                                     (free - String.length data))
           else (Some (PathError "write" name ENOSPC),
                 with_fs_space w (<[key := File ""]> (fs w)) free)
       | inr (key, Some _) => (Some (PathError "open" name EISDIR), w)
       | inr (key, None) =>
           match parent_check (fs w) key with
           | Some errno => (Some (PathError "open" name errno), w)
           | None =>
               if (String.length data <=? space w)%nat
               then (None, with_fs_space w (<[key := File data]> (fs w))
                                         (space w - String.length data))
               else (Some (PathError "write" name ENOSPC),
                     with_fs w (<[key := File ""]> (fs w)))
           end
       end.

(** [os.Symlink(oldname, newname)]: [newname] becomes a link to [oldname]. *)
Definition Symlink_ (oldname newname : string) (w : World) : option error * World :=
  let key := locate w newname in
  if String.eqb newname "" then (Some (LinkError "symlink" oldname newname ENOENT), w)
  else match fs w !! key with
       | Some _ => (Some (LinkError "symlink" oldname newname EEXIST), w)
       | None =>
           match parent_check (fs w) key with
           | Some errno => (Some (LinkError "symlink" oldname newname errno), w)
           | None => (None, with_fs w (<[key := Symlink oldname]> (fs w)))
           end
       end.

(** [os.Mkdir(name, perm)] with an owner-writable [perm]. *)
Definition Mkdir (name : string) (w : World) : option error * World :=
  let key := locate w name in
  if String.eqb name "" then (Some (PathError "mkdir" name ENOENT), w)
  else match fs w !! key with
       | Some _ => (Some (PathError "mkdir" name EEXIST), w)
       | None =>
           match parent_check (fs w) key with
           | Some errno => (Some (PathError "mkdir" name errno), w)
           | None => (None, with_fs w (<[key := Directory true true]> (fs w)))
           end
       end.

(** The text of [path] before its last element and the separator in front
    of it, when that text is not empty ([path[:j-1]] with [j > 1] in
    [MkdirAll]). *)
Definition parent_text (path : string) : option string :=
  match rev (Split (Filepath.strip_trailing path) Filepath.Separator) with
  | [] | [_] => None
  | _ :: front =>
      let p := GoStrings.Join (rev front) "/" in
      if String.eqb p "" then None else Some p
  end.

(** [path], its parent, the parent of that, and so on. *)
Fixpoint ancestors (fuel : nat) (path : string) : list string :=
  match fuel with
  | O => [path]
  | S fuel' =>
      match parent_text path with
      | Some p => path :: ancestors fuel' p
      | None => [path]
      end
  end.

(** The recursion of [os.MkdirAll] along [chain], innermost path first:
    succeed at once on a directory, fail on anything else that exists,
    otherwise make the parents and then the directory itself. *)
Fixpoint mkdirAll (chain : list string) (w : World) : option error * World :=
  match chain with
  | [] => (None, w)
  | path :: parents =>
      match Stat path w with
      | Ok dir =>
          if IsDir dir then (None, w)
          else (Some (PathError "mkdir" path ENOTDIR), w)
      | Err _ =>
          match mkdirAll parents w with
          | (Some err, w') => (Some err, w')
          | (None, w') =>
              match Mkdir path w' with
              | (None, w'') => (None, w'')
              | (Some err, w'') =>
                  match Lstat path w'' with
                  | Ok dir => if IsDir dir then (None, w'') else (Some err, w'')
                  | Err _ => (Some err, w'')
                  end
              end
          end
      end
  end.

(** [os.MkdirAll(path, perm)]. *)
Definition MkdirAll (path : string) (w : World) : option error * World :=
  mkdirAll (ancestors (String.length path) path) w.

(** [filepath.Abs(path)]. *)
Definition Abs (path : string) (w : World) : result string :=
  if Filepath.IsAbs path then Ok (Filepath.Clean path)
  else match Getwd w with
       | Ok wd => Ok (Filepath.Join [wd; path])
       | Err err => Err err
       end.

(** *** [filepath.Walk] *)

(** [filepath.SkipDir]. *)
Definition SkipDir : error := errorString "skip this directory".

(** A [filepath.WalkFunc] that accumulates in a state [S], as a closure
    over captured variables does: path, info (nil on an lstat error), the
    incoming error; the new state and the returned error. *)
Definition WalkFunc (S : Type) : Type :=
  string -> option FileInfo -> option error -> S -> S * option error.

(** The sorted names in the directory [dirname]. *)
Definition readDirNames (dirname : string) (w : World) : result (list string) :=
  match fs w !! locate w dirname with
  | Some (Directory true _) => Ok (entry_names (fs w) (locate w dirname))
  | Some (Directory false _) => Err (PathError "open" dirname EACCES)
  | Some _ => Err (PathError "readdirent" dirname ENOTDIR)
  | None => Err (PathError "open" dirname ENOENT)
  end.

(** The loop of [walk] over the names of one directory; [descend] walks
    one entry. *)
Fixpoint walk_names {S} (descend : string -> FileInfo -> S -> S * option error)
    (w : World) (walkFn : WalkFunc S) (path : string) (names : list string)
    (acc : S) : S * option error :=
  match names with
  | [] => (acc, None)
  | name :: rest =>
      let filename := Filepath.Join [path; name] in
      match Lstat filename w with
      | Err err =>
          match walkFn filename None (Some err) acc with
          | (acc', Some err') =>
              if bool_decide (err' = SkipDir)
              then walk_names descend w walkFn path rest acc'
              else (acc', Some err')
          | (acc', None) => walk_names descend w walkFn path rest acc'
          end
      | Ok fileInfo =>
          match descend filename fileInfo acc with
          | (acc', Some err') =>
              if negb (IsDir fileInfo) || negb (bool_decide (err' = SkipDir))
              then (acc', Some err')
              else walk_names descend w walkFn path rest acc'
          | (acc', None) => walk_names descend w walkFn path rest acc'
          end
      end
  end.

(** [walk(path, info, walkFn)].  [depth] bounds the nesting the walk
    enters: below it a directory cannot be opened (its path is longer than
    the system allows), which the callback sees as a read error. *)
Fixpoint walk {S} (depth : nat) (w : World) (walkFn : WalkFunc S)
    (path : string) (info : FileInfo) (acc : S) : S * option error :=
  if negb (IsDir info) then walkFn path (Some info) None acc
  else
    let names :=
      match depth with
      | O => Err (PathError "open" path ENAMETOOLONG)
      | S _ => readDirNames path w
      end in
    match walkFn path (Some info) (err_of names) acc with
    | (acc1, Some err1) => (acc1, Some err1)
    | (acc1, None) =>
        match names, depth with
        | Ok names, S depth' =>
            walk_names (walk depth' w walkFn) w walkFn path names acc1
        | _, _ => (acc1, None)
        end
    end.

(** The longest path the system accepts, which bounds the nesting. *)
Definition PATH_MAX : nat := 4096.

(** [filepath.Walk(root, fn)]. *)
Definition Walk {S} (root : string) (fn : WalkFunc S) (w : World) (acc : S)
  : S * option error :=
  let '(acc', err) :=
    match Lstat root w with
    | Err err => fn root None (Some err) acc
    | Ok info => walk PATH_MAX w fn root info acc
    end in
  match err with
  | Some e => if bool_decide (e = SkipDir) then (acc', None) else (acc', Some e)
  | None => (acc', None)
  end.

(** An error arises in the walk of [path], which has come to it with [acc]:
    [walk_error w walkFn depth path info acc acc' err] says where.
    - The callback answers with [err] for a file, or for a directory itself
      (which it is given with the error of its listing, if any).
    - Or the directory was listed and the callback let the walk go on; the
      entries before [name] were walked without an error; and then either
      [name] cannot be examined and the callback answers with [err], or
      [err] arises in the walk of [name].
    [acc'] is what had been accumulated when the error arose.  [SkipDir]
    from a directory only skips that directory: it is no error of the walk
    of the directory around it. *)
Inductive walk_error {T} (w : World) (walkFn : WalkFunc T)
  : nat -> string -> FileInfo -> T -> T -> error -> Prop :=
| walk_error_file depth path info acc acc' err :
    IsDir info = false ->
    walkFn path (Some info) None acc = (acc', Some err) ->
    walk_error w walkFn depth path info acc acc' err
| walk_error_deep path info acc acc' err :
    IsDir info = true ->
    walkFn path (Some info) (Some (PathError "open" path ENAMETOOLONG)) acc
    = (acc', Some err) ->
    walk_error w walkFn O path info acc acc' err
| walk_error_dir depth path info acc acc' err :
    IsDir info = true ->
    walkFn path (Some info) (err_of (readDirNames path w)) acc = (acc', Some err) ->
    walk_error w walkFn (S depth) path info acc acc' err
| walk_error_lstat depth path info acc acc0 before name after acc1 lerr acc' err :
    IsDir info = true ->
    readDirNames path w = Ok (before ++ name :: after)%list ->
    walkFn path (Some info) None acc = (acc0, None) ->
    walk_names (walk depth w walkFn) w walkFn path before acc0 = (acc1, None) ->
    Lstat (Filepath.Join [path; name]) w = Err lerr ->
    walkFn (Filepath.Join [path; name]) None (Some lerr) acc1 = (acc', Some err) ->
    err <> SkipDir ->
    walk_error w walkFn (S depth) path info acc acc' err
| walk_error_entry depth path info acc acc0 before name after acc1 fileInfo acc' err :
    IsDir info = true ->
    readDirNames path w = Ok (before ++ name :: after)%list ->
    walkFn path (Some info) None acc = (acc0, None) ->
    walk_names (walk depth w walkFn) w walkFn path before acc0 = (acc1, None) ->
    Lstat (Filepath.Join [path; name]) w = Ok fileInfo ->
    walk_error w walkFn depth (Filepath.Join [path; name]) fileInfo acc1 acc' err ->
    IsDir fileInfo = false \/ err <> SkipDir ->
    walk_error w walkFn (S depth) path info acc acc' err.

(** *** [os.ReadDir] *)

(** [os.DirEntry]: the name of an entry and whether the entry itself (not
    what a link points to) is a directory. *)
Record DirEntry := mkDirEntry {
  EntryName : string;
  EntryIsDir : bool;
}.

(** The entries of the directory at [key], sorted by name. *)
Definition dir_entries (m : gmap string Node) (key : string) : list DirEntry :=
  merge_sort (fun a b => String.leb (EntryName a) (EntryName b))
    (omap (fun kn : string * Node =>
             if bool_decide (kn.1 <> key) && String.eqb (Filepath.Dir kn.1) key
             then Some (mkDirEntry (Filepath.Base kn.1)
                                   (bool_decide (mode_of kn.2 = ModeDir)))
             else None)
          (map_to_list m)).

(** [os.ReadDir(name)]: open the directory, through symbolic links, and
    list it. *)
Definition ReadDir (name : string) (w : World) : result (list DirEntry) :=
  if String.eqb name "" then Err (PathError "open" name ENOENT)
  else match follow MAXSYMLINKS (fs w) (locate w name) with
       | inl errno => Err (PathError "open" name errno)
       | inr (_, None) => Err (PathError "open" name ENOENT)
       | inr (key, Some (Directory true _)) => Ok (dir_entries (fs w) key)
       | inr (_, Some (Directory false _)) => Err (PathError "open" name EACCES)
       | inr (_, Some _) => Err (PathError "readdirent" name ENOTDIR)
       end.

End OS.

(** ** internal/storage/paths.go *)

Module Storage.
Import Filepath.

(** [PathConverter] handles conversion between repository paths and storage
    paths. *)
Record PathConverter := mkPathConverter {
  StorageRoot : string;
  RepoName : string;
}.

(** [NewPathConverter(user, repoName)]. *)
Definition NewPathConverter (user repoName : string) (w : OS.World)
  : result PathConverter :=
  match OS.UserHomeDir w with
  | Err err =>
      Err (wrapError ("failed to get home directory: " +:+ Error err) err)
  | Ok home =>
      let storageRoot := Filepath.Join [home; ".claude"; "claude-md"; user] in
      Ok {| StorageRoot := storageRoot; RepoName := repoName |}
  end.

(** [ValidatePath(path)]: nil, or the error for a path with a tilde. *)
Definition ValidatePath (path : string) : option error :=
  if Contains path "~"
  then Some (errorString "path contains ~ character which is not supported")
  else None.

(** [pc.ConvertToStorageName(repoRelativePath)]. *)
Definition ConvertToStorageName (pc : PathConverter) (repoRelativePath : string)
  : result string :=
  match ValidatePath repoRelativePath with
  | Some err => Err err
  | None =>
      let cleaned := Clean repoRelativePath in
      if String.eqb cleaned "CLAUDE.md" || String.eqb cleaned (Base repoRelativePath)
      then Ok (Base repoRelativePath)
      else
        let parts := Split cleaned Separator in
        Ok (GoStrings.Join parts "~")
  end.

(** [pc.ConvertToRepoPath(storageFilename)]; "" marks an invalid name. *)
Definition ConvertToRepoPath (pc : PathConverter) (storageFilename : string)
  : string :=
  if negb (Contains storageFilename "~") then
    if Contains storageFilename ".." then EmptyString else storageFilename
  else
    let parts := Split storageFilename "~"%char in
    if existsb (fun part => String.eqb part ".." || Contains part "..") parts
    then EmptyString
    else Filepath.Join parts.

(** [pc.GetRepoStorageDir()]. *)
Definition GetRepoStorageDir (pc : PathConverter) : string :=
  Filepath.Join [StorageRoot pc; RepoName pc].

(** [pc.GetStoragePath(repoRelativePath)]. *)
Definition GetStoragePath (pc : PathConverter) (repoRelativePath : string)
  : result string :=
  match ConvertToStorageName pc repoRelativePath with
  | Err err => Err err
  | Ok storageName => Ok (Filepath.Join [GetRepoStorageDir pc; storageName])
  end.

(** [pc.EnsureStorageDir()]. *)
Definition EnsureStorageDir (pc : PathConverter) (w : OS.World)
  : option error * OS.World :=
  let dir := GetRepoStorageDir pc in
  match OS.MkdirAll dir w with
  | (Some err, w') =>
      (Some (wrapError ("failed to create storage directory: " +:+ Error err) err), w')
  | (None, w') => (None, w')
  end.

End Storage.

(** ** internal/git: the remote URL parser *)

Module Git.

(** [ExtractRepoName(remoteURL)]. *)
Definition ExtractRepoName (remoteURL : string) : result string :=
  if String.eqb remoteURL "" then Err (errorString "remote URL is empty")
  else
    let url := remoteURL in
    if HasPrefix url "git@" && negb (Contains url ":")
    then Err (errorString ("invalid SSH URL format: " +:+ remoteURL))
    else if Contains url ":" && HasPrefix url "git@" then
      let parts := Split url ":"%char in
      if (length parts <? 2)%nat || String.eqb (nth 1 parts "") ""
      then Err (errorString ("invalid SSH URL format: " +:+ remoteURL))
      else
        let path := List.last parts "" in
        let segments := Split path "/"%char in
        if (length segments =? 0)%nat || String.eqb (List.last segments "") ""
        then Err (errorString ("invalid SSH URL format: " +:+ remoteURL))
        else Ok (List.last segments "")
    else if HasPrefix url "http://" || HasPrefix url "https://" then
      let url := TrimPrefix url "https://" in
      let url := TrimPrefix url "http://" in
      let segments := Split url "/"%char in
      if (length segments <? 2)%nat
      then Err (errorString ("invalid HTTPS URL format: " +:+ remoteURL))
      else Ok (List.last segments "")
    else Err (errorString ("unsupported URL format: " +:+ remoteURL)).

(** [ExtractUserFromEmail(email)]. *)
Definition ExtractUserFromEmail (email : string) : result string :=
  if String.eqb email "" then Err (errorString "email is empty")
  else
    let idx := Index email "@" in
    if (idx =? -1)%Z then Err (errorString "email does not contain @")
    else
      let user := slice_to email idx in
      if String.eqb user "" then Err (errorString "username part of email is empty")
      else Ok user.

End Git.

(** ** internal/files: discovery *)

Module Files.

(** [ClaudeFile] represents a found CLAUDE.md file. *)
Module ClaudeFile.
Record t := mk {
  AbsolutePath : string;
  RepoRelativePath : string;
  IsSymlink : bool;
}.
End ClaudeFile.

(** [StoredFile] represents a file in storage. *)
Module StoredFile.
Record t := mk {
  StorageFilename : string;
  RepoRelativePath : string;
  StoragePath : string;
}.
End StoredFile.

(** [IsSymlink(path)]. *)
Definition IsSymlink (path : string) (w : OS.World) : result bool :=
  match OS.Lstat path w with
  | Err err => Err err
  | Ok info => Ok (OS.IsSymlinkMode info)
  end.

(** The function literal [FindClaudeFiles] hands to [filepath.Walk]; the
    state is the captured slice [claudeFiles].  [Walk] passes a nil [info]
    only together with an error. *)
Definition findWalkFn (repoRoot : string) (w : OS.World)
  : OS.WalkFunc (list ClaudeFile.t) :=
  fun path info err claudeFiles =>
    match err with
    | Some err => (claudeFiles, Some err)
    | None =>
        match info with
        | None => (claudeFiles, None)
        | Some info =>
            if OS.IsDir info && String.eqb (OS.Name info) ".git"
            then (claudeFiles, Some OS.SkipDir)
            else if negb (OS.IsDir info)
                    && EqualFold (Filepath.Base path) "CLAUDE.md" then
              match Filepath.Rel repoRoot path with
              | Err err => (claudeFiles, Some err)
              | Ok relPath =>
                  match IsSymlink path w with
                  | Err err => (claudeFiles, Some err)
                  | Ok isSymlink =>
                      ((claudeFiles ++ [ClaudeFile.mk path relPath isSymlink])%list, None)
                  end
              end
            else (claudeFiles, None)
        end
    end.

(** [FindClaudeFiles(repoRoot)]: the slice and the error of the walk, as
    the function returns them. *)
Definition FindClaudeFiles (repoRoot : string) (w : OS.World)
  : list ClaudeFile.t * option error :=
  OS.Walk repoRoot (findWalkFn repoRoot w) w [].

(** Does a name in the storage directory look like a stored CLAUDE.md?
    [strings.ToLower] is ASCII lower-casing here for the same reason as in
    [EqualFold]: the suffix compared against is plain ASCII without [k]. *)
Definition is_stored_name (filename : string) : bool :=
  EqualFold filename "CLAUDE.md" || HasSuffix (ToLowerASCII filename) "~claude.md".

(** The loop of [FindStoredFiles] over the directory entries. *)
Fixpoint storedLoop (repoStorageDir : string) (converter : Storage.PathConverter)
    (entries : list OS.DirEntry) : list StoredFile.t :=
  match entries with
  | [] => []
  | entry :: rest =>
      if OS.EntryIsDir entry then storedLoop repoStorageDir converter rest
      else
        let filename := OS.EntryName entry in
        if negb (EqualFold filename "CLAUDE.md")
           && negb (HasSuffix (ToLowerASCII filename) "~claude.md")
        then storedLoop repoStorageDir converter rest
        else
          let repoPath := Storage.ConvertToRepoPath converter filename in
          if String.eqb repoPath "" then storedLoop repoStorageDir converter rest
          else
            let storagePath := repoStorageDir +:+ "/" +:+ filename in
            StoredFile.mk filename repoPath storagePath
              :: storedLoop repoStorageDir converter rest
  end.

(** [FindStoredFiles(repoStorageDir, converter)]. *)
Definition FindStoredFiles (repoStorageDir : string) (converter : Storage.PathConverter)
    (w : OS.World) : result (list StoredFile.t) :=
  match OS.ReadDir repoStorageDir w with
  | Err err => if IsNotExist err then Ok [] else Err err
  | Ok entries => Ok (storedLoop repoStorageDir converter entries)
  end.

End Files.

(** ** internal/operations *)

Module Operations.
Import Storage Files.

(** *** save.go *)

Module SaveResult.
Record t := mk {
  RepoRelativePath : string;
  StoragePath : string;
  Success : bool;
  Skipped : bool;
  SkipReason : string;
  Warning : string;
  Error : option error;
}.
End SaveResult.

Module SaveOptions.
Record t := mk {
  RepoRoot : string;
  PathConverter : Storage.PathConverter;
}.
End SaveOptions.

(** The error and the warning of the two branches that put the original
    file back after it was removed ("absolute path failed", "symlink
    creation failed"); [what] is the text of the ordinary warning. *)
Definition restore_original (file : ClaudeFile.t) (storagePath content : string)
    (what : string) (err : error) (w : OS.World)
  : option error * string * OS.World :=
  match OS.WriteFile (ClaudeFile.AbsolutePath file) content w with
  | (Some restoreErr, w1) =>
      (Some (wrapError
               ("CRITICAL: failed to restore file after error (data is in storage): "
                +:+ Error restoreErr +:+ " (original error: " +:+ Error err +:+ ")")
               restoreErr),
       "CRITICAL: " +:+ ClaudeFile.RepoRelativePath file
         +:+ " - original file deleted but restore failed. Content saved in "
         +:+ storagePath,
       w1)
  | (None, w1) =>
      let '(_, w2) := OS.Remove storagePath w1 in
      (Some err,
       "Skipping " +:+ ClaudeFile.RepoRelativePath file +:+ ": " +:+ what +:+ ": "
         +:+ Error err,
       w2)
  end.

(** One turn of the loop of [SaveFiles]: the record appended for [file]. *)
Definition saveFile (opts : SaveOptions.t) (file : ClaudeFile.t) (w : OS.World)
  : SaveResult.t * OS.World :=
  let rel := ClaudeFile.RepoRelativePath file in
  match ValidatePath rel with
  | Some err =>
      (SaveResult.mk rel "" false true "invalid path"
         ("Skipping " +:+ rel +:+ ": " +:+ Error err) (Some err), w)
  | None =>
  if ClaudeFile.IsSymlink file then
    (SaveResult.mk rel "" false true "already symlink" "" None, w)
  else
  match GetStoragePath (SaveOptions.PathConverter opts) rel with
  | Err err =>
      (SaveResult.mk rel "" false true "path conversion error"
         ("Skipping " +:+ rel +:+ ": " +:+ Error err) (Some err), w)
  | Ok storagePath =>
  match EnsureStorageDir (SaveOptions.PathConverter opts) w with
  | (Some err, w1) =>
      (SaveResult.mk rel storagePath false true "storage directory creation failed"
         ("Skipping " +:+ rel +:+ ": failed to create storage directory: " +:+ Error err)
         (Some err), w1)
  | (None, w1) =>
  match OS.ReadFile (ClaudeFile.AbsolutePath file) w1 with
  | Err err =>
      (SaveResult.mk rel storagePath false true "read failed"
         ("Skipping " +:+ rel +:+ ": failed to read file: " +:+ Error err)
         (Some err), w1)
  | Ok content =>
  match OS.OpenFile_excl storagePath w1 with
  | (Err err, w2) =>
      if IsExist err then
        (SaveResult.mk rel storagePath false true "storage file exists"
           ("Skipping " +:+ rel +:+ ": storage file already exists at " +:+ storagePath)
           None, w2)
      else
        (SaveResult.mk rel storagePath false true "storage file creation failed"
           ("Skipping " +:+ rel +:+ ": failed to create storage file: " +:+ Error err)
           (Some err), w2)
  | (Ok storageFile, w2) =>
  match OS.Write storageFile content w2 with
  | (Some err, w3) =>
      let '(_, w4) := OS.Close storageFile w3 in
      let '(_, w5) := OS.Remove storagePath w4 in
      (SaveResult.mk rel storagePath false true "write failed"
         ("Skipping " +:+ rel +:+ ": failed to write to storage: " +:+ Error err)
         (Some err), w5)
  | (None, w3) =>
  let '(_, w4) := OS.Close storageFile w3 in
  match OS.Remove (ClaudeFile.AbsolutePath file) w4 with
  | (Some err, w5) =>
      let '(_, w6) := OS.Remove storagePath w5 in
      (SaveResult.mk rel storagePath false true "remove failed"
         ("Skipping " +:+ rel +:+ ": failed to remove original file: " +:+ Error err)
         (Some err), w6)
  | (None, w5) =>
  match OS.Abs storagePath w5 with
  | Err err =>
      let '(error, warning, w6) :=
        restore_original file storagePath content "failed to get absolute path" err w5 in
      (SaveResult.mk rel storagePath false true "absolute path failed" warning error, w6)
  | Ok absStoragePath =>
  match OS.Symlink_ absStoragePath (ClaudeFile.AbsolutePath file) w5 with
  | (Some err, w6) =>
      let '(error, warning, w7) :=
        restore_original file storagePath content "failed to create symlink" err w6 in
      (SaveResult.mk rel storagePath false true "symlink creation failed" warning error, w7)
  | (None, w6) =>
      (SaveResult.mk rel storagePath true false "" "" None, w6)
  end end end end end end end end end.

(** [SaveFiles(claudeFiles, opts)]. *)
Fixpoint SaveFiles (claudeFiles : list ClaudeFile.t) (opts : SaveOptions.t)
    (w : OS.World) : list SaveResult.t * OS.World :=
  match claudeFiles with
  | [] => ([], w)
  | file :: rest =>
      let '(result, w1) := saveFile opts file w in
      let '(results, w2) := SaveFiles rest opts w1 in
      (result :: results, w2)
  end.

(** *** restore.go *)

Module RestoreResult.
Record t := mk {
  RepoRelativePath : string;
  Success : bool;
  Skipped : bool;
  SkipReason : string;
  Warning : string;
  StoragePath : string;
  Error : option error;
}.
End RestoreResult.

Module RestoreOptions.
Record t := mk { RepoRoot : string }.
End RestoreOptions.

(** Does [Rel] say that the target leaves the repository? *)
Definition escapes (rel : result string) : bool :=
  match rel with
  | Err _ => true
  | Ok relPath => HasPrefix relPath ".."
  end.

(** One turn of the loop of [RestoreFiles]. *)
Definition restoreFile (opts : RestoreOptions.t) (stored : StoredFile.t)
    (w : OS.World) : RestoreResult.t * OS.World :=
  let rel := StoredFile.RepoRelativePath stored in
  let sp := StoredFile.StoragePath stored in
  let skip reason warning error :=
    RestoreResult.mk rel false true reason warning sp error in
  let targetPath := Filepath.Join [RestoreOptions.RepoRoot opts; rel] in
  match OS.Abs (RestoreOptions.RepoRoot opts) w with
  | Err err =>
      (skip "failed to get absolute repo path"
            ("Skipping " +:+ rel +:+ ": " +:+ Error err) (Some err), w)
  | Ok absRepoRoot =>
  match OS.Abs targetPath w with
  | Err err =>
      (skip "failed to get absolute target path"
            ("Skipping " +:+ rel +:+ ": " +:+ Error err) (Some err), w)
  | Ok absTargetPath =>
  if escapes (Filepath.Rel absRepoRoot absTargetPath) then
    (skip "path escapes repository"
          ("Skipping " +:+ rel +:+ ": path would escape repository bounds (storage: "
           +:+ sp +:+ ")") None, w)
  else
  let parentDir := Filepath.Dir targetPath in
  if OS.missing (OS.Stat parentDir w) then
    (skip "parent dir missing"
          ("Skipping " +:+ rel +:+ ": parent directory does not exist (storage: "
           +:+ sp +:+ ")") None, w)
  else
  match OS.Lstat targetPath w with
  | Ok info =>
      if OS.IsSymlinkMode info then
        match OS.Readlink targetPath w with
        | Err err =>
            (skip "symlink read failed"
                  ("Skipping " +:+ rel +:+ ": failed to read symlink: " +:+ Error err)
                  (Some err), w)
        | Ok currentTarget =>
            match OS.Abs sp w with
            | Err err =>
                (skip "absolute path failed"
                      ("Skipping " +:+ rel +:+ ": failed to get absolute path: "
                       +:+ Error err) (Some err), w)
            | Ok absStoragePath =>
                if String.eqb currentTarget absStoragePath then
                  (skip "already correct" "" None, w)
                else
                  (skip "wrong target"
                        ("Skipping " +:+ rel +:+ ": symlink exists but points to "
                         +:+ currentTarget +:+ " (storage: " +:+ sp +:+ ")") None, w)
            end
        end
      else
        (skip "file exists"
              ("Skipping " +:+ rel +:+ ": regular file already exists (storage: "
               +:+ sp +:+ ")") None, w)
  | Err _ =>
      match OS.Abs sp w with
      | Err err =>
          (skip "absolute path failed"
                ("Skipping " +:+ rel +:+ ": failed to get absolute path: " +:+ Error err)
                (Some err), w)
      | Ok absStoragePath =>
          match OS.Symlink_ absStoragePath targetPath w with
          | (Some err, w1) =>
              (skip "symlink creation failed"
                    ("Skipping " +:+ rel +:+ ": failed to create symlink: " +:+ Error err)
                    (Some err), w1)
          | (None, w1) =>
              (RestoreResult.mk rel true false "" "" sp None, w1)
          end
      end
  end end end.

(** [RestoreFiles(storedFiles, opts)]. *)
Fixpoint RestoreFiles (storedFiles : list StoredFile.t) (opts : RestoreOptions.t)
    (w : OS.World) : list RestoreResult.t * OS.World :=
  match storedFiles with
  | [] => ([], w)
  | stored :: rest =>
      let '(result, w1) := restoreFile opts stored w in
      let '(results, w2) := RestoreFiles rest opts w1 in
      (result :: results, w2)
  end.

(** *** clear.go *)

Module ClearResult.
Record t := mk {
  RepoRelativePath : string;
  Success : bool;
  Skipped : bool;
  SkipReason : string;
  Error : option error;
}.
End ClearResult.

Module ClearOptions.
Record t := mk {
  RepoRoot : string;
  PathConverter : Storage.PathConverter;
}.
End ClearOptions.

(** One turn of the loop of [ClearSymlinks] for a file that is a symlink. *)
Definition clearFile (storageDir : string) (file : ClaudeFile.t) (w : OS.World)
  : ClearResult.t * OS.World :=
  let rel := ClaudeFile.RepoRelativePath file in
  match OS.Readlink (ClaudeFile.AbsolutePath file) w with
  | Err err =>
      (ClearResult.mk rel false true "failed to read symlink" (Some err), w)
  | Ok target =>
      let absTarget :=
        match OS.Abs target w with
        | Err _ => target
        | Ok absTarget => absTarget
        end in
      if negb (HasPrefix absTarget storageDir) then
        (ClearResult.mk rel false true "symlink points outside storage" None, w)
      else
        match OS.Remove (ClaudeFile.AbsolutePath file) w with
        | (Some err, w1) => (ClearResult.mk rel false false "" (Some err), w1)
        | (None, w1) => (ClearResult.mk rel true false "" None, w1)
        end
  end.

(** The loop of [ClearSymlinks] over the files found. *)
Fixpoint clearLoop (storageDir : string) (claudeFiles : list ClaudeFile.t)
    (w : OS.World) : list ClearResult.t * OS.World :=
  match claudeFiles with
  | [] => ([], w)
  | file :: rest =>
      if negb (ClaudeFile.IsSymlink file) then clearLoop storageDir rest w
      else
        let '(result, w1) := clearFile storageDir file w in
        let '(results, w2) := clearLoop storageDir rest w1 in
        (result :: results, w2)
  end.

(** [ClearSymlinks(opts)]. *)
Definition ClearSymlinks (opts : ClearOptions.t) (w : OS.World)
  : list ClearResult.t * OS.World :=
  match FindClaudeFiles (ClearOptions.RepoRoot opts) w with
  | (_, Some _) => ([], w)
  | (claudeFiles, None) =>
      let storageDir := GetRepoStorageDir (ClearOptions.PathConverter opts) in
      clearLoop storageDir claudeFiles w
  end.

End Operations.

(** ** cmd/save.go: reporting the results *)

Module Cmd.
Import Operations.

Definition newline : string := String (ascii_of_nat 10) EmptyString.

(** [%d] for a counter. *)
Definition decimal (n : nat) : string := NilEmpty.string_of_uint (Nat.to_uint n).

(** [output.Output]: what has been written to each writer. *)
Record Output := mkOutput {
  Stdout : string;
  Stderr : string;
}.

Definition PrintInfo (text : string) (o : Output) : Output :=
  {| Stdout := Stdout o +:+ text +:+ newline; Stderr := Stderr o |}.

Definition PrintSuccess (text : string) (o : Output) : Output :=
  {| Stdout := Stdout o +:+ text +:+ newline; Stderr := Stderr o |}.

Definition PrintError (text : string) (o : Output) : Output :=
  {| Stdout := Stdout o; Stderr := Stderr o +:+ text +:+ newline |}.

(** The counters [saved, skipped, errors] of [runSave]. *)
Record Counters := mkCounters {
  saved : nat;
  skipped : nat;
  errors : nat;
}.

(** The loop of [runSave] over the results. *)
Fixpoint countResults (results : list SaveResult.t) (c : Counters) (o : Output)
  : Counters * Output :=
  match results with
  | [] => (c, o)
  | result :: rest =>
      if SaveResult.Success result then
        countResults rest (mkCounters (S (saved c)) (skipped c) (errors c))
          (PrintSuccess ("Saved: " +:+ SaveResult.RepoRelativePath result) o)
      else if SaveResult.Skipped result then
        countResults rest (mkCounters (saved c) (S (skipped c)) (errors c))
          (if negb (String.eqb (SaveResult.Warning result) "")
           then PrintInfo ("Warning: " +:+ SaveResult.Warning result) o
           else o)
      else match SaveResult.Error result with
           | Some _ =>
               countResults rest (mkCounters (saved c) (skipped c) (S (errors c)))
                 (PrintError ("Error: " +:+ SaveResult.Warning result) o)
           | None => countResults rest c o
           end
  end.

(** The summary line of [runSave]. *)
Definition summary (c : Counters) : string :=
  newline +:+ "Summary: " +:+ decimal (saved c) +:+ " saved, "
    +:+ decimal (skipped c) +:+ " skipped, " +:+ decimal (errors c) +:+ " errors".

(** [runSave] from the call of [SaveFiles] on: the files have been found
    and there is at least one. *)
Definition reportSave (results : list SaveResult.t) (o : Output) : Counters * Output :=
  let '(c, o1) := countResults results (mkCounters 0 0 0) o in
  (c, PrintInfo (summary c) o1).

(** *** cmd/clear.go *)

(** The counters [removed, skipped, errors] of [runClear]. *)
Record ClearCounters := mkClearCounters {
  removed : nat;
  clear_skipped : nat;
  clear_errors : nat;
}.

(** The loop of [runClear] over the results. *)
Fixpoint countCleared (results : list ClearResult.t) (c : ClearCounters) (o : Output)
  : ClearCounters * Output :=
  match results with
  | [] => (c, o)
  | result :: rest =>
      if ClearResult.Success result then
        countCleared rest
          (mkClearCounters (S (removed c)) (clear_skipped c) (clear_errors c))
          (PrintSuccess ("Removed: " +:+ ClearResult.RepoRelativePath result) o)
      else if ClearResult.Skipped result then
        countCleared rest
          (mkClearCounters (removed c) (S (clear_skipped c)) (clear_errors c))
          (PrintInfo ("Skipped " +:+ ClearResult.RepoRelativePath result +:+ ": "
                      +:+ ClearResult.SkipReason result) o)
      else match ClearResult.Error result with
           | Some err =>
               countCleared rest
                 (mkClearCounters (removed c) (clear_skipped c) (S (clear_errors c)))
                 (PrintError ("Error removing " +:+ ClearResult.RepoRelativePath result
                              +:+ ": " +:+ Error err) o)
           | None => countCleared rest c o
           end
  end.

(** [runClear] from the call of [ClearSymlinks] on. *)
Definition reportClear (results : list ClearResult.t) (o : Output)
  : ClearCounters * Output :=
  let '(c, o1) := countCleared results (mkClearCounters 0 0 0) o in
  if (removed c =? 0)%nat && (clear_errors c =? 0)%nat && (clear_skipped c =? 0)%nat
  then (c, PrintInfo "No CLAUDE.md symlinks found in repository" o1)
  else
    (c, PrintInfo "Note: Stored files remain in storage"
          (PrintInfo (newline +:+ "Summary: " +:+ decimal (removed c) +:+ " removed, "
                      +:+ decimal (clear_skipped c) +:+ " skipped, "
                      +:+ decimal (clear_errors c) +:+ " errors") o1)).

(** *** The restore command *)

(** The counters [restored, skipped, warnings] of [runRestore]. *)
Record RestoreCounters := mkRestoreCounters {
  restored : nat;
  restore_skipped : nat;
  warnings : nat;
}.

(** The loop of [runRestore] over the results. *)
Fixpoint countRestored (results : list RestoreResult.t) (c : RestoreCounters)
    (o : Output) : RestoreCounters * Output :=
  match results with
  | [] => (c, o)
  | result :: rest =>
      if RestoreResult.Success result then
        countRestored rest
          (mkRestoreCounters (S (restored c)) (restore_skipped c) (warnings c))
          (PrintSuccess ("Restored: " +:+ RestoreResult.RepoRelativePath result) o)
      else if RestoreResult.Skipped result then
        if negb (String.eqb (RestoreResult.Warning result) "") then
          countRestored rest
            (mkRestoreCounters (restored c) (S (restore_skipped c)) (S (warnings c)))
            (PrintInfo ("Warning: " +:+ RestoreResult.Warning result) o)
        else
          countRestored rest
            (mkRestoreCounters (restored c) (S (restore_skipped c)) (warnings c)) o
      else countRestored rest c o
  end.

(** [runRestore] from the call of [RestoreFiles] on. *)
Definition reportRestore (results : list RestoreResult.t) (o : Output)
  : RestoreCounters * Output :=
  let '(c, o1) := countRestored results (mkRestoreCounters 0 0 0) o in
  (c, PrintInfo (newline +:+ "Summary: " +:+ decimal (restored c) +:+ " restored, "
                 +:+ decimal (restore_skipped c) +:+ " skipped ("
                 +:+ decimal (warnings c) +:+ " warnings)") o1).

(** *** The init command *)

(** [runInit] once the converter has been built: report an existing storage
    directory, or create it. *)
Definition initStorage (converter : Storage.PathConverter) (user : string)
    (w : OS.World) (o : Output) : option error * OS.World * Output :=
  let storageDir := Storage.GetRepoStorageDir converter in
  if match OS.Stat storageDir w with
     | Ok info => OS.IsDir info
     | Err _ => false
     end
  then (None, w,
        PrintInfo ("User: " +:+ user)
          (PrintInfo ("Storage directory already exists: " +:+ storageDir) o))
  else
    match Storage.EnsureStorageDir converter w with
    | (Some err, w1) => (Some err, w1, PrintError ("Error: " +:+ Error err) o)
    | (None, w1) =>
        (None, w1,
         PrintInfo ("User: " +:+ user)
           (PrintSuccess ("Created storage directory: " +:+ storageDir) o))
    end.

End Cmd.

(** ** Sample worlds, for the examples and the scenarios of the lemmas *)

Module Sample.
Import OS Storage Files Operations.

(** A world that holds nothing but a home directory setting. *)
Definition bare_world (home : string) : World := mkWorld ∅ "/" home 0.

Definition pc : PathConverter :=
  mkPathConverter "/home/u/.claude/claude-md/u" "repo.git".

(** A repository at /repo: a link named CLAUDE.md to a file outside the
    storage, and a directory docs that cannot be written to, with a
    regular CLAUDE.md and a link claude.md into the storage. *)
Definition tree : gmap string Node :=
  list_to_map
    [ ("/", Directory true true);
      ("/home", Directory true true);
      ("/home/u", Directory true true);
      ("/ext", Directory true true);
      ("/ext/notes.md", File "external content");
      ("/repo", Directory true true);
      ("/repo/CLAUDE.md", Symlink "/ext/notes.md");
      ("/repo/docs", Directory true false);
      ("/repo/docs/CLAUDE.md", File "docs content");
      ("/repo/docs/claude.md",
       Symlink "/home/u/.claude/claude-md/u/repo.git/docs~claude.md") ].

Definition world : World := mkWorld tree "/repo" "/home/u" 1000.

(** The same with a directory that cannot be listed. *)
Definition world_unreadable : World :=
  mkWorld (<["/repo/private" := Directory false true]> tree) "/repo" "/home/u" 1000.

Definition docs_file : ClaudeFile.t :=
  ClaudeFile.mk "/repo/docs/CLAUDE.md" "docs/CLAUDE.md" false.

Definition docs_stored : StoredFile.t :=
  StoredFile.mk "docs~CLAUDE.md" "docs/CLAUDE.md"
    "/home/u/.claude/claude-md/u/repo.git/docs~CLAUDE.md".

Definition root_link : ClaudeFile.t :=
  ClaudeFile.mk "/repo/CLAUDE.md" "CLAUDE.md" true.

Definition save_opts : SaveOptions.t := SaveOptions.mk "/repo" pc.
Definition restore_opts : RestoreOptions.t := RestoreOptions.mk "/repo".
Definition clear_opts : ClearOptions.t := ClearOptions.mk "/repo" pc.

(** The repository once some files have been stored: the storage directory
    holds three files; in the repository, src has a regular CLAUDE.md (whose
    storage name is taken) and lib has the link to its stored file. *)
Definition tree_stored : gmap string Node :=
  list_to_map
    [ ("/home/u/.claude", Directory true true);
      ("/home/u/.claude/claude-md", Directory true true);
      ("/home/u/.claude/claude-md/u", Directory true true);
      ("/home/u/.claude/claude-md/u/repo.git", Directory true true);
      ("/home/u/.claude/claude-md/u/repo.git/src~CLAUDE.md", File "old src content");
      ("/home/u/.claude/claude-md/u/repo.git/lib~CLAUDE.md", File "lib content");
      ("/home/u/.claude/claude-md/u/repo.git/notes.txt", File "not a stored file");
      ("/home/u/.claude/claude-md/u/repo.git/..~CLAUDE.md", File "bad name");
      ("/repo/src", Directory true true);
      ("/repo/src/CLAUDE.md", File "src content");
      ("/repo/lib", Directory true true);
      ("/repo/lib/CLAUDE.md",
       Symlink "/home/u/.claude/claude-md/u/repo.git/lib~CLAUDE.md") ]
  ∪ tree.

Definition world_stored : World := mkWorld tree_stored "/repo" "/home/u" 1000.

(** A repository with one regular file to save and no storage yet. *)
Definition world_fresh : World :=
  mkWorld (<["/repo/src/CLAUDE.md" := File "src content"]>
             (<["/repo/src" := Directory true true]> tree))
          "/repo" "/home/u" 1000.

Definition src_file : ClaudeFile.t :=
  ClaudeFile.mk "/repo/src/CLAUDE.md" "src/CLAUDE.md" false.

Definition lib_link : ClaudeFile.t :=
  ClaudeFile.mk "/repo/lib/CLAUDE.md" "lib/CLAUDE.md" true.

Definition lib_stored : StoredFile.t :=
  StoredFile.mk "lib~CLAUDE.md" "lib/CLAUDE.md"
    "/home/u/.claude/claude-md/u/repo.git/lib~CLAUDE.md".

End Sample.


(** ** The situations the lemmas are about *)

Module Scenario.
Import OS Storage Files Operations.

(** The target of a stored file is taken by something that is not a
    symbolic link: the checks of [RestoreFiles] up to the existence test
    pass (absolute paths are found, the target is inside the repository and
    its directory is not reported missing) and [Lstat] finds a node that is
    no link. *)
Definition occupied (opts : RestoreOptions.t) (stored : StoredFile.t) (w : World)
    (info : FileInfo) : Prop :=
  let targetPath :=
    Filepath.Join [RestoreOptions.RepoRoot opts; StoredFile.RepoRelativePath stored] in
  (exists absRepoRoot absTargetPath,
      Abs (RestoreOptions.RepoRoot opts) w = Ok absRepoRoot
      /\ Abs targetPath w = Ok absTargetPath
      /\ escapes (Filepath.Rel absRepoRoot absTargetPath) = false)
  /\ missing (Stat (Filepath.Dir targetPath) w) = false
  /\ Lstat targetPath w = Ok info
  /\ IsSymlinkMode info = false.

(** The record for a target that is taken. *)
Definition file_exists_record (stored : StoredFile.t) : RestoreResult.t :=
  let rel := StoredFile.RepoRelativePath stored in
  let sp := StoredFile.StoragePath stored in
  RestoreResult.mk rel false true "file exists"
    ("Skipping " +:+ rel +:+ ": regular file already exists (storage: " +:+ sp +:+ ")")
    sp None.

(** The link of [file] points outside the storage directory. *)
Definition foreign_link (storageDir : string) (file : ClaudeFile.t) (w : World)
    (target : string) : Prop :=
  ClaudeFile.IsSymlink file = true
  /\ Readlink (ClaudeFile.AbsolutePath file) w = Ok target
  /\ HasPrefix (match Abs target w with Err _ => target | Ok absTarget => absTarget end)
               storageDir = false.

Definition outside_storage_record (file : ClaudeFile.t) : ClearResult.t :=
  ClearResult.mk (ClaudeFile.RepoRelativePath file) false true
    "symlink points outside storage" None.

End Scenario.

(** ** What an operation may do to the tree

    The relations between the file system before and after a call that the
    frame lemmas of the operations are stated with. *)

Module Frames.
Import OS.

(** [w'] is [w] with some new directories: nothing is removed or changed,
    and nothing else is added. *)
Definition grows_by_dirs (w w' : World) : Prop :=
  extends w w' /\ home w' = home w /\ space w' = space w
  /\ forall key n, fs w' !! key = Some n ->
                   fs w !! key = Some n \/ n = Directory true true.

(** [w'] is [w] with some new symbolic links and nothing else. *)
Definition grows_by_links (w w' : World) : Prop :=
  extends w w' /\ home w' = home w /\ space w' = space w
  /\ forall key n, fs w' !! key = Some n ->
                   fs w !! key = Some n \/ exists target, n = Symlink target.

(** The path a link target stands for in [ClearSymlinks]. *)
Definition abs_or_self (target : string) (w : World) : string :=
  match Abs target w with
  | Err _ => target
  | Ok absTarget => absTarget
  end.

(** [w'] is [w] without some symbolic links whose targets begin with
    [storageDir]; everything else is as it was. *)
Definition loses_links (storageDir : string) (w w' : World) : Prop :=
  cwd w' = cwd w /\ home w' = home w /\ space w' = space w
  /\ fs w' ⊆ fs w
  /\ forall key n, fs w !! key = Some n ->
                   fs w' !! key = Some n
                   \/ exists target, n = Symlink target
                        /\ HasPrefix (abs_or_self target w) storageDir = true.

(** Is the entry at [key] a symbolic link that leads to a directory? *)
Definition links_to_dir (m : gmap string Node) (key : string) : bool :=
  match m !! key with
  | Some (Symlink _) =>
      match follow MAXSYMLINKS m key with
      | inr (_, Some (Directory _ _)) => true
      | _ => false
      end
  | _ => false
  end.

(** No symbolic link of the tree leads to a directory: a directory is
    reached by its own name only, and the lexical paths of the model are the
    places the system resolves them to. *)
Definition no_linked_dirs (w : World) : bool :=
  forallb (fun kn : string * Node => negb (links_to_dir (fs w) kn.1))
          (map_to_list (fs w)).

End Frames.

(** * Lemmas *)

(** ** Strings *)

Module StringFacts.

#[local] Arguments String.append !_ _ / : simpl nomatch.

Lemma eqb_true (a b : string) : String.eqb a b = true -> a = b.
Proof. apply String.eqb_eq. Qed.

Lemma eqb_false (a b : string) : String.eqb a b = false -> a <> b.
Proof. apply String.eqb_neq. Qed.

Lemma append_empty_r (s : string) : s +:+ "" = s.
Proof. induction s as [|c s IH]; simpl; [done | by rewrite IH]. Qed.

Lemma append_assoc (a b c : string) : (a +:+ b) +:+ c = a +:+ (b +:+ c).
Proof. induction a as [|x a IH]; simpl; [done | by rewrite IH]. Qed.

Lemma length_append (a b : string) :
  String.length (a +:+ b) = (String.length a + String.length b)%nat.
Proof. induction a as [|c a IH]; simpl; [done | by rewrite IH]. Qed.

Lemma HasPrefix_append (s t prefix : string) :
  HasPrefix s prefix = true -> HasPrefix (s +:+ t) prefix = true.
Proof.
  revert s. induction prefix as [|a prefix IH]; intros s H; [done|].
  destruct s as [|b s]; simpl in *; [done|].
  destruct (Ascii.eqb a b); [by apply IH | done].
Qed.

Lemma Contains_append_l (s t sub : string) :
  Contains s sub = true -> Contains (s +:+ t) sub = true.
Proof.
  induction s as [|c s IH]; simpl; intros H.
  - rewrite orb_false_r in H. destruct sub; [|done].
    by destruct t.
  - apply orb_true_iff in H as [H|H].
    + change (String c (s +:+ t)) with (String c s +:+ t).
      by rewrite (HasPrefix_append _ _ _ H).
    + rewrite (IH H). apply orb_true_r.
Qed.

Lemma Contains_append_r (s t sub : string) :
  Contains t sub = true -> Contains (s +:+ t) sub = true.
Proof.
  induction s as [|c s IH]; simpl; intros H; [done|].
  rewrite (IH H). apply orb_true_r.
Qed.

Lemma Contains_append_false (s t sub : string) :
  Contains (s +:+ t) sub = false ->
  Contains s sub = false /\ Contains t sub = false.
Proof.
  intros H. split.
  - destruct (Contains s sub) eqn:E; [|done].
    by rewrite (Contains_append_l _ t _ E) in H.
  - destruct (Contains t sub) eqn:E; [|done].
    by rewrite (Contains_append_r s _ _ E) in H.
Qed.

Lemma Split_not_nil (s : string) (sep : ascii) : Split s sep <> [].
Proof.
  destruct s as [|c s]; simpl; [done|].
  destruct (Ascii.eqb c sep); [done|]. by destruct (Split s sep).
Qed.

(** Joining what [Split] gave with the same separator gives the string
    back. *)
Lemma Join_Split (s : string) (sep : ascii) :
  GoStrings.Join (Split s sep) (String sep "") = s.
Proof.
  induction s as [|c s IH]; [done|]. simpl.
  destruct (Ascii.eqb c sep) eqn:E.
  - apply Ascii.eqb_eq in E as ->.
    pose proof (Split_not_nil s sep).
    destruct (Split s sep) as [|p ps] eqn:Es; [done|].
    change (GoStrings.Join ("" :: p :: ps) (String sep ""))
      with (String sep (GoStrings.Join (p :: ps) (String sep ""))).
    by rewrite IH.
  - destruct (Split s sep) as [|p ps] eqn:Es.
    + by destruct (Split_not_nil s sep).
    + destruct ps as [|q ps]; simpl in *; by rewrite IH.
Qed.

Lemma Join_cons2 (e e' : string) (rest : list string) (sep : string) :
  GoStrings.Join (e :: e' :: rest) sep = e +:+ sep +:+ GoStrings.Join (e' :: rest) sep.
Proof. done. Qed.

(** A string without the separator is one part. *)
Lemma Split_no_sep (s : string) (sep : ascii) :
  Contains s (String sep "") = false -> Split s sep = [s].
Proof.
  induction s as [|c s IH]; [done|]. simpl.
  rewrite Ascii.eqb_sym.
  destruct (Ascii.eqb c sep); simpl; [done|].
  intros H. by rewrite (IH H).
Qed.

Lemma Split_append_sep (a b : string) (sep : ascii) :
  Contains a (String sep "") = false ->
  Split (a +:+ String sep b) sep = a :: Split b sep.
Proof.
  induction a as [|c a IH]; simpl.
  - by rewrite Ascii.eqb_refl.
  - rewrite (Ascii.eqb_sym sep c).
    destruct (Ascii.eqb c sep); simpl; [done|].
    intros H. by rewrite (IH H).
Qed.

(** Splitting a join of separator-free parts gives the parts back. *)
Lemma Split_Join (parts : list string) (sep : ascii) :
  parts <> [] ->
  Forall (fun p => Contains p (String sep "") = false) parts ->
  Split (GoStrings.Join parts (String sep "")) sep = parts.
Proof.
  induction parts as [|e rest IH]; [done|]. intros _ Hall.
  apply Forall_cons in Hall as [He Hrest].
  destruct rest as [|e' rest].
  - by apply Split_no_sep.
  - rewrite Join_cons2.
    change (String sep "" +:+ GoStrings.Join (e' :: rest) (String sep ""))
      with (String sep (GoStrings.Join (e' :: rest) (String sep ""))).
    rewrite Split_append_sep by done.
    by rewrite IH.
Qed.

(** What a string does not contain, its parts do not contain. *)
Lemma Join_Contains_false (parts : list string) (sep sub : string) :
  Contains (GoStrings.Join parts sep) sub = false ->
  Forall (fun p => Contains p sub = false) parts.
Proof.
  induction parts as [|e rest IH]; intros H; [constructor|].
  destruct rest as [|e' rest].
  - by repeat constructor.
  - rewrite Join_cons2 in H.
    apply Contains_append_false in H as [He H].
    apply Contains_append_false in H as [_ H].
    constructor; [done | by apply IH].
Qed.

Lemma Split_Contains_false (s sub : string) (sep : ascii) :
  Contains s sub = false ->
  Forall (fun p => Contains p sub = false) (Split s sep).
Proof.
  intros H. apply (Join_Contains_false _ (String sep "")).
  by rewrite Join_Split.
Qed.

(** A join of two parts or more contains the separator. *)
Lemma Join_Contains_sep (e e' : string) (rest : list string) (sep : string) :
  Contains (GoStrings.Join (e :: e' :: rest) sep) sep = true.
Proof.
  rewrite Join_cons2. apply Contains_append_r, Contains_append_l.
  destruct sep as [|c sep]; [done|]. simpl.
  rewrite Ascii.eqb_refl.
  assert (Hp : forall t, HasPrefix t t = true).
  { induction t as [|x t IHt]; [done|]. simpl. by rewrite Ascii.eqb_refl. }
  by rewrite Hp.
Qed.

(** ".." does not arise across a "/". *)
Lemma Contains_dotdot_sep (a b : string) :
  Contains (a +:+ String "/" b) ".." = Contains a ".." || Contains b "..".
Proof.
  induction a as [|c a IH]; [done|].
  change (String c a +:+ String "/" b) with (String c (a +:+ String "/" b)).
  cbn [Contains]. rewrite IH. rewrite orb_assoc. f_equal.
  destruct a as [|d a]; simpl.
  - destruct (Ascii.eqb "." c); [|done].
    simpl. by rewrite orb_false_r.
  - destruct (Ascii.eqb "." c); [|done].
    by destruct (Ascii.eqb "." d).
Qed.

Lemma Join_no_dotdot (parts : list string) :
  Forall (fun p => Contains p ".." = false) parts ->
  Contains (GoStrings.Join parts "/") ".." = false.
Proof.
  induction parts as [|e rest IH]; intros H; [done|].
  apply Forall_cons in H as [He Hrest].
  destruct rest as [|e' rest]; [done|].
  rewrite Join_cons2.
  change (e +:+ "/" +:+ GoStrings.Join (e' :: rest) "/")
    with (e +:+ String "/" (GoStrings.Join (e' :: rest) "/")).
  rewrite Contains_dotdot_sep, He. by apply IH.
Qed.

(** The first part of a non-empty string that does not start with the
    separator is not empty. *)
Lemma Split_head (s : string) (sep : ascii) :
  s <> "" -> HasPrefix s (String sep "") = false ->
  exists p ps, Split s sep = p :: ps /\ p <> "".
Proof.
  destruct s as [|c s]; [done|]. intros _. simpl.
  rewrite Ascii.eqb_sym.
  destruct (Ascii.eqb c sep) eqn:E; [done|]. intros _.
  destruct (Split s sep) as [|p ps]; eauto.
Qed.

End StringFacts.

(** ** Paths *)

Module FilepathFacts.
Import Filepath StringFacts.

#[local] Arguments String.append !_ _ / : simpl nomatch.

(** Without a ".." element, cleaning only drops elements. *)
Lemma clean_elems_no_dotdot (rooted : bool) (elems out : list string) :
  Forall no_dotdot out -> Forall no_dotdot elems ->
  Forall no_dotdot (clean_elems rooted out elems).
Proof.
  revert out. induction elems as [|e rest IH]; intros out Hout Helems; simpl.
  - by apply Forall_rev.
  - apply Forall_cons in Helems as [He Hrest].
    destruct (String.eqb e "" || String.eqb e "."); [by apply IH|].
    destruct (String.eqb e "..") eqn:E.
    + apply eqb_true in E as ->. discriminate He.
    + apply IH; [by constructor | done].
Qed.

Lemma Clean_no_dotdot (path : string) :
  no_dotdot path -> no_dotdot (Clean path).
Proof.
  intros H. unfold Clean, no_dotdot.
  assert (Hbody : Contains
            (GoStrings.Join (clean_elems (IsAbs path) [] (Split path Separator)) "/")
            ".." = false).
  { apply Join_no_dotdot, clean_elems_no_dotdot; [constructor|].
    by apply Split_Contains_false. }
  destruct (IsAbs path).
  - change ("/" +:+ ?b) with ("" +:+ String "/" b).
    by rewrite Contains_dotdot_sep, Hbody.
  - by destruct (String.eqb _ "").
Qed.

Lemma filepath_Join_no_dotdot (elem : list string) :
  Forall no_dotdot elem -> no_dotdot (Filepath.Join elem).
Proof.
  induction elem as [|e rest IH]; intros H; [done|]. cbn [Filepath.Join].
  destruct (String.eqb e "").
  - apply IH. by eapply Forall_cons_1.
  - by apply Clean_no_dotdot, StringFacts.Join_no_dotdot.
Qed.

Lemma Clean_not_empty (path : string) : Clean path <> "".
Proof.
  unfold Clean. destruct (IsAbs path); [done|].
  destruct (String.eqb _ "") eqn:E; [done|]. by apply eqb_false.
Qed.

(** Joining some elements, the first of which is not empty, never gives
    the empty path. *)
Lemma Join_not_empty (e : string) (rest : list string) :
  e <> "" -> Filepath.Join (e :: rest) <> "".
Proof.
  intros He. cbn [Filepath.Join]. destruct (String.eqb e "") eqn:E.
  - by apply eqb_true in E.
  - apply Clean_not_empty.
Qed.

(** The elements of a cleaned relative path join back to the path. *)
Lemma Join_Split_clean (path : string) :
  IsAbs path = false -> Clean path = path ->
  Filepath.Join (Split path Separator) = path.
Proof.
  intros Hrel Hclean.
  assert (Hne : path <> "").
  { intros ->. by apply (Clean_not_empty ""). }
  destruct (Split_head path Separator Hne Hrel) as (p & ps & Hsplit & Hp).
  rewrite Hsplit. cbn [Filepath.Join].
  destruct (String.eqb p "") eqn:E; [by apply eqb_true in E|].
  rewrite <- Hsplit.
  change "/" with (String Separator "").
  by rewrite Join_Split.
Qed.

End FilepathFacts.

(** ** internal/storage/paths.go *)

Module StorageFacts.
Import Filepath Storage StringFacts FilepathFacts.

(** Tests of paths_test.go. *)
Example ConvertToStorageName_nested (pc : PathConverter) :
  ConvertToStorageName pc "source/go/api/CLAUDE.md" = Ok "source~go~api~CLAUDE.md".
Proof. reflexivity. Qed.

Example ConvertToStorageName_root (pc : PathConverter) :
  ConvertToStorageName pc "CLAUDE.md" = Ok "CLAUDE.md".
Proof. reflexivity. Qed.

Example ConvertToRepoPath_traversal (pc : PathConverter) :
  ConvertToRepoPath pc "..~..~..~etc~CLAUDE.md" = ""
  /\ ConvertToRepoPath pc "docs~..~api~CLAUDE.md" = ""
  /\ ConvertToRepoPath pc "..~CLAUDE.md" = ""
  /\ ConvertToRepoPath pc "CLAUDE..md" = "".
Proof. repeat split. Qed.

(** A name without a tilde and without ".." is its own repository path. *)
Lemma ConvertToRepoPath_plain (pc : PathConverter) (s : string) :
  Contains s "~" = false -> Contains s ".." = false ->
  ConvertToRepoPath pc s = s.
Proof. intros H1 H2. unfold ConvertToRepoPath. by rewrite H1, H2. Qed.

(** C1, the claim as stated, fails: a directory named "a..b" has no tilde
    and is not a ".." element, yet the name stored for its file is turned
    away by [ConvertToRepoPath] instead of being mapped back. *)
Lemma roundtrip_fails_on_inner_dotdot :
  let pc := mkPathConverter "/home/u/.claude/claude-md/u" "repo.git" in
  let p := "a..b/CLAUDE.md" in
  Contains p "~" = false
  /\ existsb (String.eqb "..") (Split p Separator) = false
  /\ Clean p = p
  /\ ConvertToStorageName pc p = Ok "a..b~CLAUDE.md"
  /\ ConvertToRepoPath pc "a..b~CLAUDE.md" = ""
  /\ ConvertToRepoPath pc "a..b~CLAUDE.md" <> p.
Proof. repeat split; try reflexivity. vm_compute. discriminate. Qed.

(** C1 (amended): for every cleaned repository-relative path [p] (not
    rooted, equal to its own [Clean], as [filepath.Rel] produces them) that
    contains no tilde and no ".." anywhere, [ConvertToStorageName] succeeds
    and [ConvertToRepoPath] maps the storage name back to [p]. *)
Theorem roundtrip_clean_path (pc : PathConverter) (p : string) :
  IsAbs p = false ->
  Clean p = p ->
  Contains p "~" = false ->
  Contains p ".." = false ->
  exists s, ConvertToStorageName pc p = Ok s /\ ConvertToRepoPath pc s = p.
Proof.
  intros Hrel Hclean Htilde Hdots.
  unfold ConvertToStorageName, ValidatePath. rewrite Htilde, Hclean.
  destruct (String.eqb p "CLAUDE.md" || String.eqb p (Base p)) eqn:Eroot.
  - exists (Base p). split; [done|].
    assert (Hbase : Base p = p).
    { apply orb_true_iff in Eroot as [E|E]; apply eqb_true in E.
      - by subst p.
      - done. }
    rewrite Hbase. by apply ConvertToRepoPath_plain.
  - eexists. split; [done|].
    pose proof (Split_Contains_false p "~" Separator Htilde) as Hparts_tilde.
    pose proof (Split_Contains_false p ".." Separator Hdots) as Hparts_dots.
    pose proof (Join_Split_clean p Hrel Hclean) as Hjoin.
    pose proof (Join_Split p Separator) as Hback.
    destruct (Split p Separator) as [|e [|e' rest]] eqn:Hsplit.
    + by destruct (Split_not_nil p Separator).
    + simpl in Hback. subst e. simpl. by apply ConvertToRepoPath_plain.
    + unfold ConvertToRepoPath.
      rewrite Join_Contains_sep. simpl negb. cbv iota.
      rewrite (Split_Join (e :: e' :: rest) "~") by done.
      destruct (existsb _ _) eqn:Ex; [|done].
      apply existsb_exists in Ex as (part & Hin & Hpart).
      apply list_elem_of_In in Hin.
      rewrite Forall_forall in Hparts_dots.
      specialize (Hparts_dots part Hin).
      apply orb_true_iff in Hpart as [E|E]; [|congruence].
      apply eqb_true in E. subst part. discriminate Hparts_dots.
Qed.

Lemma roundtrip_clean_path_witness :
  exists s, ConvertToStorageName (mkPathConverter "/home/u/.claude/claude-md/u" "repo.git")
              "source/go/api/CLAUDE.md" = Ok s
            /\ ConvertToRepoPath (mkPathConverter "/home/u/.claude/claude-md/u" "repo.git") s
               = "source/go/api/CLAUDE.md".
Proof. apply roundtrip_clean_path; reflexivity. Defined.

(** C9: whenever [ConvertToRepoPath] returns a non-empty result, the
    result contains no occurrence of "..". *)
Theorem ConvertToRepoPath_traversal_free (pc : PathConverter) (s : string) :
  ConvertToRepoPath pc s <> "" ->
  Contains (ConvertToRepoPath pc s) ".." = false.
Proof.
  intros _.
  unfold ConvertToRepoPath.
  destruct (Contains s "~"); simpl.
  - destruct (existsb _ _) eqn:E; [done|].
    apply filepath_Join_no_dotdot, Forall_forall.
    intros part Hin.
    destruct (Contains part "..") eqn:Ep; [|done].
    assert (existsb (fun part => String.eqb part ".." || Contains part "..")
              (Split s "~") = true); [|congruence].
    apply existsb_exists. exists part. split.
    + by apply list_elem_of_In.
    + rewrite Ep. apply orb_true_r.
  - by destruct (Contains s "..") eqn:E.
Qed.

Lemma ConvertToRepoPath_traversal_free_witness :
  Contains (ConvertToRepoPath (mkPathConverter "/home/u/.claude/claude-md/u" "repo.git")
              "source~go~api~CLAUDE.md") ".." = false.
Proof. apply ConvertToRepoPath_traversal_free. discriminate. Defined.

End StorageFacts.

(** ** The constructor of the path converter *)

Module ConverterFacts.
Import Filepath Storage StringFacts FilepathFacts.

(** C6, the claim as stated, fails: the constructor takes an empty
    repository name and stores it as it is. *)
Lemma NewPathConverter_empty_RepoName :
  exists pc, NewPathConverter "alice" "" (Sample.bare_world "/home/alice") = Ok pc
             /\ RepoName pc = "".
Proof. eexists. split; reflexivity. Qed.

(** C6 (amended): [NewPathConverter(user, repoName)] fails exactly when
    the home directory cannot be determined, with that error wrapped;
    otherwise it returns a converter whose [StorageRoot] is not empty and
    whose [RepoName] is the argument [repoName] as given (so it is empty
    when the argument is). *)
Theorem NewPathConverter_fields (user repoName : string) (w : OS.World) :
  match OS.UserHomeDir w with
  | Err err =>
      NewPathConverter user repoName w
      = Err (wrapError ("failed to get home directory: " +:+ Error err) err)
  | Ok home =>
      exists pc, NewPathConverter user repoName w = Ok pc
                 /\ StorageRoot pc <> ""
                 /\ StorageRoot pc = Filepath.Join [home; ".claude"; "claude-md"; user]
                 /\ RepoName pc = repoName
  end.
Proof.
  unfold NewPathConverter.
  destruct (OS.UserHomeDir w) as [home|err] eqn:E; [|done].
  eexists. split; [done|]. cbn [StorageRoot RepoName]. split; [|done].
  apply Join_not_empty. unfold OS.UserHomeDir in E.
  destruct (String.eqb (OS.home w) "") eqn:Eh; [done|].
  apply eqb_false in Eh. congruence.
Qed.

End ConverterFacts.

(** ** internal/git *)

Module GitFacts.
Import Git StringFacts.

Lemma Split_length_sep (s : string) (sep : ascii) :
  Contains s (String sep "") = true -> (2 <= length (Split s sep))%nat.
Proof.
  induction s as [|c s IH]; [done|]. simpl.
  rewrite (Ascii.eqb_sym sep c).
  destruct (Ascii.eqb c sep); simpl.
  - intros _. pose proof (Split_not_nil s sep).
    destruct (Split s sep); [done | simpl; lia].
  - intros H. specialize (IH H). destruct (Split s sep); simpl in *; lia.
Qed.

(** What the SSH branch of [ExtractRepoName] computes. *)
Lemma ExtractRepoName_ssh (url : string) :
  HasPrefix url "git@" = true -> Contains url ":" = true ->
  ExtractRepoName url =
    let parts := Split url ":" in
    let segment := List.last (Split (List.last parts "") "/") "" in
    if String.eqb (nth 1 parts "") "" || String.eqb segment ""
    then Err (errorString ("invalid SSH URL format: " +:+ url))
    else Ok segment.
Proof.
  intros Hpre Hcolon. unfold ExtractRepoName.
  destruct (String.eqb url "") eqn:E.
  { apply eqb_true in E. by subst url. }
  rewrite Hpre, Hcolon. cbn [negb andb].
  pose proof (Split_length_sep url ":" Hcolon) as Hlen.
  assert ((length (Split url ":") <? 2)%nat = false) as -> by (apply Nat.ltb_ge; lia).
  cbn [orb]. cbv zeta.
  destruct (String.eqb (nth 1 (Split url ":") "") ""); [done|].
  cbn [orb].
  pose proof (Split_not_nil (List.last (Split url ":") "") "/") as Hseg.
  destruct (Split (List.last (Split url ":") "") "/") as [|sg sgs] eqn:Es; [done|].
  done.
Qed.

(** C7, the general part as stated, fails: with an empty second
    colon-delimited part the URL is refused although the colon split has
    three parts and the last segment of the final part, "repo", is not
    empty. *)
Lemma ExtractRepoName_empty_second_part :
  let url := "git@host::user/repo" in
  HasPrefix url "git@" = true
  /\ Contains url ":" = true
  /\ length (Split url ":") = 3%nat
  /\ List.last (Split (List.last (Split url ":") "") "/") "" = "repo"
  /\ ExtractRepoName url = Err (errorString "invalid SSH URL format: git@host::user/repo").
Proof. repeat split. Qed.

(** C7 (amended): the literal cases of the claim hold, each failure with
    its own message; and for a URL that begins with git@ and contains a
    colon, [ExtractRepoName] returns the last "/"-segment of the final
    colon-delimited part, failing exactly when that segment is empty or the
    second colon-delimited part is empty (the colon split of such a URL
    always has two parts or more). *)
Theorem ExtractRepoName_cases :
  ExtractRepoName "git@github.com:user/repo.git" = Ok "repo.git"
  /\ ExtractRepoName "git@github.com:user/repo" = Ok "repo"
  /\ ExtractRepoName "https://github.com/user/repo.git" = Ok "repo.git"
  /\ ExtractRepoName "https://github.com/user/repo" = Ok "repo"
  /\ ExtractRepoName "" = Err (errorString "remote URL is empty")
  /\ ExtractRepoName "git@github.com"
     = Err (errorString "invalid SSH URL format: git@github.com")
  /\ ExtractRepoName "https://github.com"
     = Err (errorString "invalid HTTPS URL format: https://github.com")
  /\ ExtractRepoName "file:///path/to/repo"
     = Err (errorString "unsupported URL format: file:///path/to/repo")
  /\ forall url,
       HasPrefix url "git@" = true -> Contains url ":" = true ->
       let parts := Split url ":" in
       let segment := List.last (Split (List.last parts "") "/") "" in
       (2 <= length parts)%nat
       /\ ExtractRepoName url =
            if String.eqb (nth 1 parts "") "" || String.eqb segment ""
            then Err (errorString ("invalid SSH URL format: " +:+ url))
            else Ok segment.
Proof.
  repeat (split; [reflexivity|]).
  intros url Hpre Hcolon. split.
  - by apply Split_length_sep.
  - by apply ExtractRepoName_ssh.
Qed.

Lemma ExtractRepoName_cases_witness :
  ExtractRepoName "git@example.org:2222:team/tool.git" = Ok "tool.git".
Proof.
  destruct ExtractRepoName_cases as (_ & _ & _ & _ & _ & _ & _ & _ & H).
  destruct (H "git@example.org:2222:team/tool.git") as [_ ->]; reflexivity.
Defined.

End GitFacts.

(** ** The flags of the result records *)

Module FlagFacts.
Import Storage Files Operations Cmd.

(** A save record is a success with no error, or a skip. *)
Lemma saveFile_flags (opts : SaveOptions.t) (file : ClaudeFile.t) (w : OS.World) :
  let r := (saveFile opts file w).1 in
  (SaveResult.Success r = true /\ SaveResult.Skipped r = false
   /\ SaveResult.Error r = None)
  \/ (SaveResult.Success r = false /\ SaveResult.Skipped r = true).
Proof. unfold saveFile. repeat case_match; simpl; auto. Qed.

Lemma restoreFile_flags (opts : RestoreOptions.t) (stored : StoredFile.t)
    (w : OS.World) :
  let r := (restoreFile opts stored w).1 in
  (RestoreResult.Success r = true /\ RestoreResult.Skipped r = false)
  \/ (RestoreResult.Success r = false /\ RestoreResult.Skipped r = true).
Proof. unfold restoreFile. repeat case_match; simpl; auto. Qed.

Lemma clearFile_flags (storageDir : string) (file : ClaudeFile.t) (w : OS.World) :
  let r := (clearFile storageDir file w).1 in
  (ClearResult.Success r = false \/ ClearResult.Skipped r = false).
Proof. unfold clearFile. repeat case_match; simpl; auto. Qed.

Lemma SaveFiles_Forall (P : SaveResult.t -> Prop) :
  (forall opts file w, P (saveFile opts file w).1) ->
  forall files opts w, Forall P (SaveFiles files opts w).1.
Proof.
  intros HP files opts. induction files as [|file rest IH]; intros w; simpl.
  - constructor.
  - specialize (HP opts file w).
    destruct (saveFile opts file w) as [r w1].
    specialize (IH w1). destruct (SaveFiles rest opts w1) as [rs w2].
    by constructor.
Qed.

Lemma RestoreFiles_Forall (P : RestoreResult.t -> Prop) :
  (forall opts stored w, P (restoreFile opts stored w).1) ->
  forall storedFiles opts w, Forall P (RestoreFiles storedFiles opts w).1.
Proof.
  intros HP storedFiles opts. induction storedFiles as [|stored rest IH]; intros w; simpl.
  - constructor.
  - specialize (HP opts stored w).
    destruct (restoreFile opts stored w) as [r w1].
    specialize (IH w1). destruct (RestoreFiles rest opts w1) as [rs w2].
    by constructor.
Qed.

Lemma clearLoop_Forall (P : ClearResult.t -> Prop) :
  (forall storageDir file w, P (clearFile storageDir file w).1) ->
  forall storageDir files w, Forall P (clearLoop storageDir files w).1.
Proof.
  intros HP storageDir files. induction files as [|file rest IH]; intros w; simpl.
  - constructor.
  - destruct (negb (ClaudeFile.IsSymlink file)); [apply IH|].
    specialize (HP storageDir file w).
    destruct (clearFile storageDir file w) as [r w1].
    specialize (IH w1). destruct (clearLoop storageDir rest w1) as [rs w2].
    by constructor.
Qed.

Lemma ClearSymlinks_Forall (P : ClearResult.t -> Prop) :
  (forall storageDir file w, P (clearFile storageDir file w).1) ->
  forall opts w, Forall P (ClearSymlinks opts w).1.
Proof.
  intros HP opts w. unfold ClearSymlinks.
  destruct (FindClaudeFiles _ w) as [files [err|]]; [constructor|].
  by apply clearLoop_Forall.
Qed.

(** C8: no record of [SaveFiles], [RestoreFiles] or [ClearSymlinks] has
    both [Success] and [Skipped] set; [Error] goes with either state of
    [Skipped]: a skip carries an error (a path with a tilde) or none (a
    file that is a symlink already), and a clear record whose removal
    failed carries an error with neither flag set. *)
Theorem result_flags_exclusive :
  (forall files opts w,
      Forall (fun r => ~ (SaveResult.Success r = true /\ SaveResult.Skipped r = true))
             (SaveFiles files opts w).1)
  /\ (forall storedFiles opts w,
      Forall (fun r => ~ (RestoreResult.Success r = true
                          /\ RestoreResult.Skipped r = true))
             (RestoreFiles storedFiles opts w).1)
  /\ (forall opts w,
      Forall (fun r => ~ (ClearResult.Success r = true /\ ClearResult.Skipped r = true))
             (ClearSymlinks opts w).1)
  /\ (exists r,
      (SaveFiles [ClaudeFile.mk "/repo/a~b/CLAUDE.md" "a~b/CLAUDE.md" false]
                 Sample.save_opts Sample.world).1 = [r]
      /\ SaveResult.Skipped r = true /\ SaveResult.Error r <> None)
  /\ (exists r,
      (SaveFiles [Sample.root_link] Sample.save_opts Sample.world).1 = [r]
      /\ SaveResult.Skipped r = true /\ SaveResult.Error r = None)
  /\ (exists r,
      In r (ClearSymlinks Sample.clear_opts Sample.world).1
      /\ ClearResult.Success r = false /\ ClearResult.Skipped r = false
      /\ ClearResult.Error r <> None).
Proof.
  split; [|split; [|split; [|split; [|split]]]].
  - apply SaveFiles_Forall. intros opts file w.
    destruct (saveFile_flags opts file w) as [(H1 & H2 & _)|[H1 H2]];
      intros [??]; congruence.
  - apply RestoreFiles_Forall. intros opts stored w.
    destruct (restoreFile_flags opts stored w) as [[H1 H2]|[H1 H2]];
      intros [??]; congruence.
  - apply ClearSymlinks_Forall. intros storageDir file w.
    destruct (clearFile_flags storageDir file w) as [H|H]; intros [??]; congruence.
  - eexists. split; [vm_compute; reflexivity|]. by split.
  - eexists. split; [vm_compute; reflexivity|]. by split.
  - exists (ClearResult.mk "docs/claude.md" false false ""
              (Some (PathError "remove" "/repo/docs/claude.md" EACCES))).
    split; [vm_compute; tauto|]. by repeat split.
Qed.

(** The loop of the save command never counts an error when every record
    is a success or a skip, and writes nothing to the error stream. *)
Lemma countResults_no_errors (results : list SaveResult.t) (c : Counters) (o : Output) :
  Forall (fun r => SaveResult.Success r = true \/ SaveResult.Skipped r = true) results ->
  errors (countResults results c o).1 = errors c
  /\ Stderr (countResults results c o).2 = Stderr o.
Proof.
  intros H. revert c o. induction H as [|r rest Hr _ IH]; intros c o; [done|].
  simpl. destruct (SaveResult.Success r) eqn:Es.
  - destruct (IH (mkCounters (S (saved c)) (skipped c) (errors c))
                 (PrintSuccess ("Saved: " +:+ SaveResult.RepoRelativePath r) o))
      as [-> ->]. done.
  - destruct Hr as [Hr|Hr]; [done|]. rewrite Hr.
    destruct (IH (mkCounters (saved c) (S (skipped c)) (errors c))
                 (if negb (String.eqb (SaveResult.Warning r) "")
                  then PrintInfo ("Warning: " +:+ SaveResult.Warning r) o else o))
      as [-> ->].
    split; [done|]. by destruct (negb _).
Qed.

(** C10: every record returned by [SaveFiles] has [Success] or [Skipped]
    set, so the loop of the save command never takes its error branch:
    the error counter stays 0, nothing is written to the error stream, and
    the summary line printed last reports 0 errors. *)
Theorem runSave_reports_no_errors (files : list ClaudeFile.t) (opts : SaveOptions.t)
    (w : OS.World) (o : Output) :
  let results := (SaveFiles files opts w).1 in
  let c := (reportSave results o).1 in
  let o' := (reportSave results o).2 in
  Forall (fun r => SaveResult.Success r = true \/ SaveResult.Skipped r = true) results
  /\ errors c = 0%nat
  /\ Stderr o' = Stderr o
  /\ exists before,
      Stdout o' = before +:+ (newline +:+ "Summary: " +:+ decimal (saved c)
                              +:+ " saved, " +:+ decimal (skipped c)
                              +:+ " skipped, 0 errors") +:+ newline.
Proof.
  cbv zeta.
  assert (Hflags : Forall (fun r => SaveResult.Success r = true
                                    \/ SaveResult.Skipped r = true)
                          (SaveFiles files opts w).1).
  { apply SaveFiles_Forall. intros opts' file w'.
    destruct (saveFile_flags opts' file w') as [(H1 & _)|[_ H2]]; auto. }
  split; [done|].
  destruct (countResults_no_errors _ (mkCounters 0 0 0) o Hflags) as [He Hs].
  unfold reportSave.
  destruct (countResults _ _ o) as [c o1]. simpl in *.
  split; [done|]. split; [done|].
  exists (Stdout o1). unfold summary. by rewrite He.
Qed.

End FlagFacts.

(** ** The file system *)

Module OSFacts.
Import OS.

(** A failed [Remove] leaves the world as it was. *)
Lemma Remove_failure (name : string) (w w' : World) (err : error) :
  Remove name w = (Some err, w') -> w' = w.
Proof. unfold Remove. intros H. repeat case_match; by simplify_eq. Qed.

(** A file that could be created is a file that was not there. *)
Lemma OpenFile_excl_fresh (name : string) (w w1 : World) (f : Handle) :
  OpenFile_excl name w = (Ok f, w1) ->
  Lstat name w = Err (PathError "lstat" name ENOENT).
Proof.
  unfold OpenFile_excl, Lstat. intros H.
  destruct (String.eqb name ""); [done|].
  by destruct (fs w !! locate w name).
Qed.

(** Creating a file, writing to it and removing it again leaves the world
    as it was: the directory that took the new entry lets it go, and the
    space is given back. *)
Lemma create_write_remove (name content : string) (w w1 w2 : World) (f : Handle) :
  OpenFile_excl name w = (Ok f, w1) ->
  Write f content w1 = (None, w2) ->
  Remove name w2 = (None, w).
Proof.
  unfold OpenFile_excl, Write, Remove. intros Hopen Hwrite.
  destruct (String.eqb name ""); [done|].
  destruct (fs w !! locate w name) eqn:Hfree; [done|].
  destruct (parent_check (fs w) (locate w name)) eqn:Hparent; [done|].
  simplify_eq. cbn in Hwrite. rewrite lookup_insert_eq in Hwrite.
  destruct (String.length content <=? space w)%nat eqn:Hspace; [|done].
  simplify_eq. cbn.
  change (locate (with_fs_space _ _ _) name) with (locate w name).
  rewrite lookup_insert_eq.
  assert (Hne : Filepath.Dir (locate w name) <> locate w name).
  { intros Heq. unfold parent_check in Hparent. rewrite Heq, Hfree in Hparent. done. }
  assert (parent_check
            (<[locate w name:=File ("" +:+ content)]> (<[locate w name:=File ""]> (fs w)))
            (locate w name) = None) as ->.
  { unfold parent_check in *. by rewrite !lookup_insert_ne. }
  f_equal. rewrite insert_insert_eq, delete_insert_eq, delete_id by done.
  change ("" +:+ content) with content.
  unfold with_fs_space. cbn. destruct w as [m c h sp]. cbn in *. f_equal.
  apply Nat.leb_le in Hspace. lia.
Qed.

(** *** Worlds that only grow *)

Lemma extends_refl (w : World) : extends w w.
Proof. by split. Qed.

Lemma extends_trans (w1 w2 w3 : World) :
  extends w1 w2 -> extends w2 w3 -> extends w1 w3.
Proof. intros [Hc1 Hf1] [Hc2 Hf2]. split; [congruence | by etrans]. Qed.

Lemma extends_lookup (w w' : World) (key : string) (n : Node) :
  extends w w' -> fs w !! key = Some n -> fs w' !! key = Some n.
Proof. intros [_ Hsub] H. by eapply lookup_weaken. Qed.

Lemma extends_locate (w w' : World) (name : string) :
  extends w w' -> locate w' name = locate w name.
Proof. intros [Hc _]. unfold locate. by rewrite Hc. Qed.

Lemma Symlink_extends (oldname newname : string) (w w' : World) (r : option error) :
  Symlink_ oldname newname w = (r, w') -> extends w w'.
Proof.
  unfold Symlink_. intros H.
  repeat case_match; simplify_eq; try apply extends_refl.
  split; [done|]. cbn. by apply insert_subseteq.
Qed.

Lemma Lstat_extends (w w' : World) (name : string) (info : FileInfo) :
  extends w w' -> Lstat name w = Ok info -> Lstat name w' = Ok info.
Proof.
  intros Hext. unfold Lstat. destruct (String.eqb name ""); [done|].
  rewrite (extends_locate _ _ _ Hext).
  destruct (fs w !! locate w name) as [n|] eqn:E; [|done].
  by rewrite (extends_lookup _ _ _ _ Hext E).
Qed.

Lemma Abs_extends (w w' : World) (path abs : string) :
  extends w w' -> Abs path w = Ok abs -> Abs path w' = Ok abs.
Proof.
  intros Hext. unfold Abs, Getwd. destruct (Filepath.IsAbs path); [done|].
  destruct Hext as [Hc Hsub]. rewrite Hc.
  destruct (fs w !! cwd w) as [[| |r wr]|] eqn:E; try done.
  by rewrite (lookup_weaken _ _ _ _ E Hsub).
Qed.

(** Following links gives the same answer in a larger tree, unless the
    chain ended on a name that was free. *)
Lemma follow_extends (m m' : gmap string Node) (fuel : nat) (key : string) :
  m ⊆ m' ->
  match follow fuel m key with
  | inr (_, None) => True
  | r => follow fuel m' key = r
  end.
Proof.
  intros Hsub. revert key. induction fuel as [|fuel IH]; intros key; simpl.
  - destruct (m !! key) as [n|] eqn:E; [|done].
    rewrite (lookup_weaken _ _ _ _ E Hsub). by destruct n.
  - destruct (m !! key) as [n|] eqn:E; [|done].
    rewrite (lookup_weaken _ _ _ _ E Hsub).
    destruct n; try done. apply IH.
Qed.

Lemma Stat_present_extends (w w' : World) (name : string) :
  extends w w' -> missing (Stat name w) = false -> missing (Stat name w') = false.
Proof.
  intros Hext. unfold Stat. destruct (String.eqb name ""); [done|].
  rewrite (extends_locate _ _ _ Hext).
  destruct Hext as [_ Hsub].
  pose proof (follow_extends _ _ MAXSYMLINKS (locate w name) Hsub) as Hf.
  destruct (follow MAXSYMLINKS (fs w) (locate w name)) as [errno|[k [n|]]];
    [by rewrite Hf | by rewrite Hf | done].
Qed.

End OSFacts.

(** ** save.go *)

Module SaveFacts.
Import OS Storage Files Operations OSFacts.

(** [SaveFiles] goes through its input from left to right. *)
Lemma SaveFiles_app (before after : list ClaudeFile.t) (opts : SaveOptions.t)
    (w : World) :
  SaveFiles (before ++ after) opts w
  = (((SaveFiles before opts w).1
      ++ (SaveFiles after opts (SaveFiles before opts w).2).1)%list,
     (SaveFiles after opts (SaveFiles before opts w).2).2).
Proof.
  revert w. induction before as [|file rest IH]; intros w.
  - cbn. by destruct (SaveFiles after opts w).
  - cbn [app SaveFiles]. destruct (saveFile opts file w) as [r w1].
    rewrite (IH w1). destruct (SaveFiles rest opts w1) as [rs w2]. cbn.
    by destruct (SaveFiles after opts w2).
Qed.

(** C2: for every input file of a call of [SaveFiles], wherever it stands
    in the input: when the call, having come to the file, has created and
    written the storage copy and then fails to remove the original, the
    record of the file is Skipped with SkipReason "remove failed", with a
    warning and the error of the removal, and the storage file just created
    is removed again: no storage copy is left (the world is back to what it
    was once the storage directory was there), and the call goes on from
    there with the files that follow. *)
Theorem save_rollback_on_remove_failure
    (opts : SaveOptions.t) (before after : list ClaudeFile.t) (file : ClaudeFile.t)
    (w w0 w1 w2 w3 w4 : World) (records : list SaveResult.t)
    (storagePath content : string) (storageFile : Handle) (err : error) :
  let rel := ClaudeFile.RepoRelativePath file in
  let record :=
    SaveResult.mk rel storagePath false true "remove failed"
      ("Skipping " +:+ rel +:+ ": failed to remove original file: " +:+ Error err)
      (Some err) in
  SaveFiles before opts w = (records, w0) ->
  ValidatePath rel = None ->
  ClaudeFile.IsSymlink file = false ->
  GetStoragePath (SaveOptions.PathConverter opts) rel = Ok storagePath ->
  EnsureStorageDir (SaveOptions.PathConverter opts) w0 = (None, w1) ->
  ReadFile (ClaudeFile.AbsolutePath file) w1 = Ok content ->
  OpenFile_excl storagePath w1 = (Ok storageFile, w2) ->
  Write storageFile content w2 = (None, w3) ->
  Remove (ClaudeFile.AbsolutePath file) w3 = (Some err, w4) ->
  SaveFiles (before ++ file :: after) opts w
  = ((records ++ record :: (SaveFiles after opts w1).1)%list,
     (SaveFiles after opts w1).2)
  /\ (SaveFiles (before ++ file :: after) opts w).1 !! length before = Some record
  /\ SaveFiles (before ++ [file]) opts w = ((records ++ [record])%list, w1)
  /\ SaveResult.Warning record <> ""
  /\ Lstat storagePath w1 = Err (PathError "lstat" storagePath ENOENT)
  /\ ReadFile (ClaudeFile.AbsolutePath file) w1 = Ok content.
Proof.
  intros rel record Hbefore Hvalid Hlink Hpath Hdir Hread Hopen Hwrite Hremove.
  pose proof (Remove_failure _ _ _ _ Hremove) as ->.
  pose proof (create_write_remove _ _ _ _ _ _ Hopen Hwrite) as Hcleanup.
  assert (Hturn : saveFile opts file w0 = (record, w1)).
  { unfold saveFile. fold rel.
    rewrite Hvalid, Hlink, Hpath, Hdir, Hread, Hopen, Hwrite.
    cbn [Close]. by rewrite Hremove, Hcleanup. }
  assert (Hall : forall rest,
             SaveFiles (before ++ file :: rest) opts w
             = ((records ++ record :: (SaveFiles rest opts w1).1)%list,
                (SaveFiles rest opts w1).2)).
  { intros rest. rewrite SaveFiles_app, Hbefore. cbn [fst snd SaveFiles].
    rewrite Hturn. by destruct (SaveFiles rest opts w1). }
  assert (Hlen : length records = length before).
  { change records with (records, w0).1. rewrite <- Hbefore. clear. revert w.
    induction before as [|f rest IH]; intros w; [done|].
    cbn [SaveFiles]. destruct (saveFile opts f w) as [r w'].
    specialize (IH w'). destruct (SaveFiles rest opts w') as [rs w'']. cbn in *. lia. }
  split; [apply Hall|]. split; [|split; [|split; [|split]]].
  - rewrite Hall. cbn [fst]. rewrite <- Hlen.
    by rewrite lookup_app_r, Nat.sub_diag by lia.
  - by rewrite (Hall []).
  - done.
  - by eapply OpenFile_excl_fresh.
  - done.
Qed.

Lemma save_rollback_on_remove_failure_witness :
  exists record,
    (SaveFiles [Sample.src_file; Sample.docs_file; Sample.root_link]
       Sample.save_opts Sample.world_fresh).1 !! 1%nat = Some record
    /\ SaveResult.SkipReason record = "remove failed"
    /\ Lstat "/home/u/.claude/claude-md/u/repo.git/docs~CLAUDE.md"
         (EnsureStorageDir Sample.pc
            (SaveFiles [Sample.src_file] Sample.save_opts Sample.world_fresh).2).2
       = Err (PathError "lstat" "/home/u/.claude/claude-md/u/repo.git/docs~CLAUDE.md"
                ENOENT).
Proof.
  destruct (save_rollback_on_remove_failure Sample.save_opts
              [Sample.src_file] [Sample.root_link] Sample.docs_file
              Sample.world_fresh
              (SaveFiles [Sample.src_file] Sample.save_opts Sample.world_fresh).2
              (EnsureStorageDir Sample.pc
                 (SaveFiles [Sample.src_file] Sample.save_opts Sample.world_fresh).2).2
              (OpenFile_excl "/home/u/.claude/claude-md/u/repo.git/docs~CLAUDE.md"
                 (EnsureStorageDir Sample.pc
                    (SaveFiles [Sample.src_file] Sample.save_opts
                       Sample.world_fresh).2).2).2
              (Write (mkHandle "/home/u/.claude/claude-md/u/repo.git/docs~CLAUDE.md"
                        "/home/u/.claude/claude-md/u/repo.git/docs~CLAUDE.md")
                 "docs content"
                 (OpenFile_excl "/home/u/.claude/claude-md/u/repo.git/docs~CLAUDE.md"
                    (EnsureStorageDir Sample.pc
                       (SaveFiles [Sample.src_file] Sample.save_opts
                          Sample.world_fresh).2).2).2).2
              (Write (mkHandle "/home/u/.claude/claude-md/u/repo.git/docs~CLAUDE.md"
                        "/home/u/.claude/claude-md/u/repo.git/docs~CLAUDE.md")
                 "docs content"
                 (OpenFile_excl "/home/u/.claude/claude-md/u/repo.git/docs~CLAUDE.md"
                    (EnsureStorageDir Sample.pc
                       (SaveFiles [Sample.src_file] Sample.save_opts
                          Sample.world_fresh).2).2).2).2
              (SaveFiles [Sample.src_file] Sample.save_opts Sample.world_fresh).1
              "/home/u/.claude/claude-md/u/repo.git/docs~CLAUDE.md" "docs content"
              (mkHandle "/home/u/.claude/claude-md/u/repo.git/docs~CLAUDE.md"
                 "/home/u/.claude/claude-md/u/repo.git/docs~CLAUDE.md")
              (PathError "remove" "/repo/docs/CLAUDE.md" EACCES))
    as (_ & H2 & _ & _ & H5 & _).
  - apply surjective_pairing.
  - reflexivity.
  - reflexivity.
  - reflexivity.
  - vm_compute. reflexivity.
  - vm_compute. reflexivity.
  - vm_compute. reflexivity.
  - vm_compute. reflexivity.
  - vm_compute. reflexivity.
  - eexists. split; [exact H2|]. split; [reflexivity | exact H5].
Defined.

End SaveFacts.

(** ** restore.go *)

Module RestoreFacts.
Import OS Storage Files Operations OSFacts Scenario.

(** Restoring only ever adds to the tree. *)
Lemma restoreFile_extends (opts : RestoreOptions.t) (stored : StoredFile.t)
    (w w' : World) (r : RestoreResult.t) :
  restoreFile opts stored w = (r, w') -> extends w w'.
Proof.
  unfold restoreFile. intros H.
  repeat case_match; simplify_eq; try apply extends_refl;
    by eapply Symlink_extends.
Qed.

Lemma RestoreFiles_extends (storedFiles : list StoredFile.t) (opts : RestoreOptions.t)
    (w : World) :
  extends w (RestoreFiles storedFiles opts w).2.
Proof.
  revert w. induction storedFiles as [|stored rest IH]; intros w; simpl.
  - apply extends_refl.
  - destruct (restoreFile opts stored w) as [r w1] eqn:E.
    specialize (IH w1). destruct (RestoreFiles rest opts w1) as [rs w2].
    eapply extends_trans; [by eapply restoreFile_extends | done].
Qed.

Lemma occupied_extends (opts : RestoreOptions.t) (stored : StoredFile.t)
    (w w' : World) (info : FileInfo) :
  extends w w' -> occupied opts stored w info -> occupied opts stored w' info.
Proof.
  intros Hext ((a & b & Ha & Hb & Hrel) & Hparent & Hl & Hmode).
  repeat split.
  - exists a, b. eauto using Abs_extends.
  - by eapply Stat_present_extends.
  - by eapply Lstat_extends.
  - done.
Qed.

Lemma restoreFile_occupied (opts : RestoreOptions.t) (stored : StoredFile.t)
    (w : World) (info : FileInfo) :
  occupied opts stored w info ->
  restoreFile opts stored w = (file_exists_record stored, w).
Proof.
  intros ((a & b & Ha & Hb & Hrel) & Hparent & Hl & Hmode).
  unfold restoreFile. cbv zeta in *.
  by rewrite Ha, Hb, Hrel, Hparent, Hl, Hmode.
Qed.

Lemma RestoreFiles_occupied (storedFiles : list StoredFile.t) (opts : RestoreOptions.t)
    (w : World) (i : nat) (stored : StoredFile.t) (info : FileInfo) :
  storedFiles !! i = Some stored ->
  occupied opts stored w info ->
  (RestoreFiles storedFiles opts w).1 !! i = Some (file_exists_record stored).
Proof.
  revert w i. induction storedFiles as [|first rest IH]; intros w i Hi Hocc; [done|].
  simpl. destruct i as [|i]; simpl in Hi.
  - simplify_eq. rewrite (restoreFile_occupied _ _ _ _ Hocc).
    by destruct (RestoreFiles rest opts w).
  - destruct (restoreFile opts first w) as [r w1] eqn:E.
    specialize (IH w1 i Hi
      (occupied_extends _ _ _ _ _ (restoreFile_extends _ _ _ _ _ E) Hocc)).
    by destruct (RestoreFiles rest opts w1).
Qed.

(** C3: a stored file whose target in the repository is taken by a regular
    (non-symlink) file gets the record Skipped, SkipReason "file exists",
    with the warning that a regular file exists already; the file is
    neither overwritten nor removed: the node at the target is the same
    after [RestoreFiles] as before, as is every other node that was there. *)
Theorem restore_keeps_regular_file (storedFiles : list StoredFile.t)
    (opts : RestoreOptions.t) (w : World) (i : nat) (stored : StoredFile.t)
    (info : FileInfo) :
  storedFiles !! i = Some stored ->
  occupied opts stored w info ->
  let targetPath :=
    Filepath.Join [RestoreOptions.RepoRoot opts; StoredFile.RepoRelativePath stored] in
  let results := (RestoreFiles storedFiles opts w).1 in
  let w' := (RestoreFiles storedFiles opts w).2 in
  results !! i = Some (file_exists_record stored)
  /\ is_Some (fs w !! locate w targetPath)
  /\ fs w' !! locate w' targetPath = fs w !! locate w targetPath
  /\ Lstat targetPath w' = Ok info
  /\ extends w w'.
Proof.
  intros Hi Hocc targetPath results w'.
  pose proof (RestoreFiles_extends storedFiles opts w) as Hext. fold w' in Hext.
  destruct Hocc as (Habs & Hparent & Hl & Hmode).
  assert (Hnode : is_Some (fs w !! locate w targetPath)).
  { fold targetPath in Hl. unfold Lstat in Hl.
    destruct (String.eqb targetPath ""); [done|].
    by destruct (fs w !! locate w targetPath). }
  split; [|split; [|split; [|split]]].
  - by eapply RestoreFiles_occupied.
  - done.
  - destruct Hnode as [n Hn].
    rewrite (extends_locate _ _ _ Hext), Hn. by eapply extends_lookup.
  - by eapply Lstat_extends.
  - done.
Qed.

Lemma restore_keeps_regular_file_witness :
  (RestoreFiles [Sample.docs_stored] Sample.restore_opts Sample.world).1 !! 0%nat
  = Some (file_exists_record Sample.docs_stored)
  /\ fs (RestoreFiles [Sample.docs_stored] Sample.restore_opts Sample.world).2
       !! "/repo/docs/CLAUDE.md" = Some (File "docs content").
Proof.
  edestruct (restore_keeps_regular_file [Sample.docs_stored] Sample.restore_opts
               Sample.world 0 Sample.docs_stored) as (H1 & _ & H3 & _).
  - reflexivity.
  - split; [|split; [|split]].
    + do 2 eexists. split; [|split]; vm_compute; reflexivity.
    + vm_compute; reflexivity.
    + vm_compute; reflexivity.
    + reflexivity.
  - split; [exact H1|]. etrans; [exact H3|]. vm_compute. reflexivity.
Defined.

End RestoreFacts.

(** ** clear.go *)

Module ClearFacts.
Import OS Storage Files Operations OSFacts Scenario.

Lemma Readlink_node (name target : string) (w : World) :
  Readlink name w = Ok target <->
  name <> "" /\ fs w !! locate w name = Some (Symlink target).
Proof.
  unfold Readlink. destruct (String.eqb name "") eqn:E.
  - apply String.eqb_eq in E. split; [done | by intros [? _]].
  - apply String.eqb_neq in E.
    destruct (fs w !! locate w name) as [[c|t|r wr]|];
      (split; [intros H | intros [_ H]]); by simplify_eq.
Qed.

(** Clearing one file leaves a foreign link, the working directory and
    every directory where they are. *)
Lemma clearFile_keeps_foreign (storageDir : string) (file other : ClaudeFile.t)
    (w w' : World) (target : string) (r : ClearResult.t) :
  foreign_link storageDir file w target ->
  clearFile storageDir other w = (r, w') ->
  foreign_link storageDir file w' target.
Proof.
  intros (Hsym & Hlink & Hprefix) Hclear.
  unfold clearFile in Hclear.
  destruct (Readlink (ClaudeFile.AbsolutePath other) w) as [target'|] eqn:Hother;
    [|by simplify_eq].
  destruct (negb (HasPrefix _ storageDir)) eqn:Hcheck; [by simplify_eq|].
  apply negb_false_iff in Hcheck.
  apply Readlink_node in Hother as [Hne' Hnode'].
  apply Readlink_node in Hlink as [Hne Hnode].
  assert (Hkeys : locate w (ClaudeFile.AbsolutePath other)
                  <> locate w (ClaudeFile.AbsolutePath file)).
  { intros Heq. rewrite Heq in Hnode'. simplify_eq. congruence. }
  unfold Remove in Hclear.
  destruct (String.eqb (ClaudeFile.AbsolutePath other) "") eqn:E.
  { simplify_eq. repeat split; [done| by apply Readlink_node | done]. }
  rewrite Hnode' in Hclear.
  destruct (parent_check _ _).
  { simplify_eq. repeat split; [done| by apply Readlink_node | done]. }
  simplify_eq. repeat split; [done| |].
  - apply Readlink_node. split; [done|]. cbn.
    change (locate (with_fs _ _) ?n) with (locate w n).
    by rewrite lookup_delete_ne.
  - assert (Abs target (with_fs w (delete (locate w (ClaudeFile.AbsolutePath other)) (fs w)))
            = Abs target w) as ->; [|done].
    unfold Abs, Getwd. destruct (Filepath.IsAbs target); [done|]. cbn.
    destruct (decide (locate w (ClaudeFile.AbsolutePath other) = cwd w)) as [<-|Hc].
    + by rewrite lookup_delete_eq, Hnode'.
    + by rewrite lookup_delete_ne.
Qed.

Lemma clearFile_foreign (storageDir : string) (file : ClaudeFile.t)
    (w : World) (target : string) :
  foreign_link storageDir file w target ->
  clearFile storageDir file w = (outside_storage_record file, w).
Proof.
  intros (Hsym & Hlink & Hprefix). unfold clearFile.
  by rewrite Hlink, Hprefix.
Qed.

Lemma clearLoop_foreign (storageDir : string) (files : list ClaudeFile.t)
    (file : ClaudeFile.t) (w : World) (target : string) :
  foreign_link storageDir file w target ->
  foreign_link storageDir file (clearLoop storageDir files w).2 target
  /\ (In file files -> In (outside_storage_record file) (clearLoop storageDir files w).1).
Proof.
  revert w. induction files as [|first rest IH]; intros w Hf; [done|].
  simpl. destruct (negb (ClaudeFile.IsSymlink first)) eqn:Hs.
  - destruct (IH w Hf) as [H1 H2]. split; [done|].
    intros [->|Hin]; [|by apply H2].
    destruct Hf as (Hsym & _). by rewrite Hsym in Hs.
  - destruct (clearFile storageDir first w) as [r w1] eqn:E.
    pose proof (clearFile_keeps_foreign _ _ _ _ _ _ _ Hf E) as Hf1.
    destruct (IH w1 Hf1) as [H1 H2].
    destruct (clearLoop storageDir rest w1) as [rs w2]. simpl in *.
    split; [done|].
    intros [->|Hin]; [|right; by apply H2].
    left. rewrite (clearFile_foreign _ _ _ _ Hf) in E. by simplify_eq.
Qed.

(** C4: a discovered symlink named CLAUDE.md whose target, made absolute,
    does not begin with the storage directory path gets the record Skipped,
    SkipReason "symlink points outside storage", without an error, and is
    not removed: after [ClearSymlinks] the link is there with its target. *)
Theorem clear_skips_foreign_symlink (opts : ClearOptions.t) (w : World)
    (files : list ClaudeFile.t) (file : ClaudeFile.t) (target : string) :
  FindClaudeFiles (ClearOptions.RepoRoot opts) w = (files, None) ->
  In file files ->
  foreign_link (GetRepoStorageDir (ClearOptions.PathConverter opts)) file w target ->
  let results := (ClearSymlinks opts w).1 in
  let w' := (ClearSymlinks opts w).2 in
  In (outside_storage_record file) results
  /\ Readlink (ClaudeFile.AbsolutePath file) w' = Ok target
  /\ fs w' !! locate w' (ClaudeFile.AbsolutePath file)
     = fs w !! locate w (ClaudeFile.AbsolutePath file).
Proof.
  intros Hfind Hin Hf. cbv zeta. unfold ClearSymlinks. rewrite Hfind.
  destruct (clearLoop_foreign _ files _ _ _ Hf) as [(_ & Hl & _) Hrec].
  split; [by apply Hrec|]. split; [done|].
  destruct Hf as (_ & Hl0 & _).
  apply Readlink_node in Hl as [_ ->]. by apply Readlink_node in Hl0 as [_ ->].
Qed.

Lemma clear_skips_foreign_symlink_witness :
  In (outside_storage_record Sample.root_link)
     (ClearSymlinks Sample.clear_opts Sample.world).1
  /\ Readlink "/repo/CLAUDE.md" (ClearSymlinks Sample.clear_opts Sample.world).2
     = Ok "/ext/notes.md".
Proof.
  edestruct (clear_skips_foreign_symlink Sample.clear_opts Sample.world
               (FindClaudeFiles "/repo" Sample.world).1
               Sample.root_link "/ext/notes.md") as (H1 & H2 & _).
  - vm_compute. reflexivity.
  - vm_compute. tauto.
  - repeat split.
  - split; [exact H1 | exact H2].
Defined.

End ClearFacts.

(** ** Discovery *)

Module DiscoveryFacts.
Import OS Storage Files Operations.

Lemma Lstat_error_not_SkipDir (name : string) (w : World) (err : error) :
  Lstat name w = Err err -> err <> SkipDir.
Proof.
  unfold Lstat. intros H.
  repeat case_match; by simplify_eq.
Qed.

(** The loop over the names of a directory goes on with the names that
    follow once the names before have been walked without an error. *)
Lemma walk_names_app {S} (descend : string -> FileInfo -> S -> S * option error)
    (w : World) (walkFn : WalkFunc S) (path : string) (before rest : list string)
    (acc acc1 : S) :
  walk_names descend w walkFn path before acc = (acc1, None) ->
  walk_names descend w walkFn path (before ++ rest) acc
  = walk_names descend w walkFn path rest acc1.
Proof.
  revert acc. induction before as [|name before IH]; intros acc.
  - by intros [= ->].
  - cbn [app walk_names].
    destruct (Lstat (Filepath.Join [path; name]) w) as [fileInfo|lerr].
    + destruct (descend _ fileInfo acc) as [acc' [err'|]]; [|apply IH].
      destruct (negb (IsDir fileInfo) || negb (bool_decide (err' = SkipDir)));
        [done | apply IH].
    + destruct (walkFn _ None (Some lerr) acc) as [acc' [err'|]]; [|apply IH].
      destruct (bool_decide (err' = SkipDir)); [apply IH | done].
Qed.

(** An error that arises at some point of a walk is what the walk returns,
    with what had been accumulated when it arose: nothing after that point
    is visited, at whatever depth the point lies. *)
Lemma walk_error_returned {S} (w : World) (walkFn : WalkFunc S) (depth : nat)
    (path : string) (info : FileInfo) (acc acc' : S) (err : error) :
  walk_error w walkFn depth path info acc acc' err ->
  walk depth w walkFn path info acc = (acc', Some err).
Proof.
  induction 1 as
    [ depth path info acc acc' err Hdir Hfn
    | path info acc acc' err Hdir Hfn
    | depth path info acc acc' err Hdir Hfn
    | depth path info acc acc0 before name after acc1 lerr acc' err
        Hdir Hnames Hfn Hbefore Hl Hcb Hne
    | depth path info acc acc0 before name after acc1 fileInfo acc' err
        Hdir Hnames Hfn Hbefore Hl Hsub IH Hcase ].
  - destruct depth; cbn [walk]; by rewrite Hdir.
  - cbn [walk]. rewrite Hdir. cbn [negb err_of]. by rewrite Hfn.
  - cbn [walk]. rewrite Hdir. cbn [negb]. by rewrite Hfn.
  - cbn [walk]. rewrite Hdir, Hnames. cbn [negb err_of]. rewrite Hfn.
    rewrite (walk_names_app _ _ _ _ _ _ _ _ Hbefore). cbn [walk_names].
    rewrite Hl, Hcb. by rewrite (bool_decide_eq_false_2 _ Hne).
  - cbn [walk]. rewrite Hdir, Hnames. cbn [negb err_of]. rewrite Hfn.
    rewrite (walk_names_app _ _ _ _ _ _ _ _ Hbefore). cbn [walk_names].
    rewrite Hl, IH.
    destruct Hcase as [->|Hne]; [done|].
    rewrite (bool_decide_eq_false_2 _ Hne). by rewrite orb_true_r.
Qed.

(** Where a loop over the names of a directory that returns an error has
    met it. *)
Lemma walk_names_error {S} (descend : string -> FileInfo -> S -> S * option error)
    (w : World) (walkFn : WalkFunc S) (path : string) (names : list string)
    (acc acc' : S) (err : error) :
  walk_names descend w walkFn path names acc = (acc', Some err) ->
  exists before name after acc1,
    names = (before ++ name :: after)%list
    /\ walk_names descend w walkFn path before acc = (acc1, None)
    /\ ((exists lerr,
            Lstat (Filepath.Join [path; name]) w = Err lerr
            /\ walkFn (Filepath.Join [path; name]) None (Some lerr) acc1 = (acc', Some err)
            /\ err <> SkipDir)
        \/ (exists fileInfo,
              Lstat (Filepath.Join [path; name]) w = Ok fileInfo
              /\ descend (Filepath.Join [path; name]) fileInfo acc1 = (acc', Some err)
              /\ (IsDir fileInfo = false \/ err <> SkipDir))).
Proof.
  revert acc. induction names as [|name rest IH]; intros acc; [done|].
  cbn [walk_names].
  assert (Hrest : forall acc0,
             walk_names descend w walkFn path [name] acc = (acc0, None) ->
             walk_names descend w walkFn path rest acc0 = (acc', Some err) ->
             exists before name0 after acc1,
               name :: rest = (before ++ name0 :: after)%list
               /\ walk_names descend w walkFn path before acc = (acc1, None)
               /\ ((exists lerr,
                       Lstat (Filepath.Join [path; name0]) w = Err lerr
                       /\ walkFn (Filepath.Join [path; name0]) None (Some lerr) acc1
                          = (acc', Some err)
                       /\ err <> SkipDir)
                   \/ (exists fileInfo,
                         Lstat (Filepath.Join [path; name0]) w = Ok fileInfo
                         /\ descend (Filepath.Join [path; name0]) fileInfo acc1
                            = (acc', Some err)
                         /\ (IsDir fileInfo = false \/ err <> SkipDir)))).
  { intros acc0 Hone Hgo.
    destruct (IH _ Hgo) as (before & name0 & after & acc1 & -> & Hb & Hcase).
    exists (name :: before), name0, after, acc1. split; [done|]. split; [|done].
    change (name :: before) with ([name] ++ before)%list.
    by rewrite (walk_names_app _ _ _ _ _ _ _ _ Hone). }
  destruct (Lstat (Filepath.Join [path; name]) w) as [fileInfo|lerr] eqn:Hl.
  - destruct (descend _ fileInfo acc) as [acc0 [err0|]] eqn:Hd.
    + destruct (negb (IsDir fileInfo) || negb (bool_decide (err0 = SkipDir))) eqn:Hc.
      * intros [= <- <-]. exists [], name, rest, acc. split; [done|]. split; [done|].
        right. exists fileInfo. split; [done|]. split; [done|].
        apply orb_true_iff in Hc as [Hc|Hc].
        -- left. by destruct (IsDir fileInfo).
        -- right. apply negb_true_iff in Hc. by apply bool_decide_eq_false_1 in Hc.
      * apply Hrest. cbn [walk_names]. by rewrite Hl, Hd, Hc.
    + apply Hrest. cbn [walk_names]. by rewrite Hl, Hd.
  - destruct (walkFn _ None (Some lerr) acc) as [acc0 [err0|]] eqn:Hcb.
    + destruct (bool_decide (err0 = SkipDir)) eqn:Hc.
      * apply Hrest. cbn [walk_names]. by rewrite Hl, Hcb, Hc.
      * intros [= <- <-]. exists [], name, rest, acc. split; [done|]. split; [done|].
        left. exists lerr. split; [done|]. split; [done|].
        by apply bool_decide_eq_false_1 in Hc.
    + apply Hrest. cbn [walk_names]. by rewrite Hl, Hcb.
Qed.

(** A walk returns an error only when one has arisen at some point of it. *)
Lemma walk_error_arisen {S} (w : World) (walkFn : WalkFunc S) (depth : nat)
    (path : string) (info : FileInfo) (acc acc' : S) (err : error) :
  walk depth w walkFn path info acc = (acc', Some err) ->
  walk_error w walkFn depth path info acc acc' err.
Proof.
  revert path info acc acc' err.
  induction depth as [|depth IH]; intros path info acc acc' err; cbn [walk].
  - destruct (IsDir info) eqn:Hdir; cbn [negb].
    + cbn [err_of].
      destruct (walkFn path (Some info) _ acc) as [acc0 [err0|]] eqn:Hfn; [|done].
      intros [= <- <-]. by apply walk_error_deep.
    + intros H. by apply walk_error_file.
  - destruct (IsDir info) eqn:Hdir; cbn [negb]; [|intros H; by apply walk_error_file].
    destruct (walkFn path (Some info) (err_of (readDirNames path w)) acc)
      as [acc0 [err0|]] eqn:Hfn.
    { intros [= <- <-]. by apply walk_error_dir. }
    destruct (readDirNames path w) as [names|rerr] eqn:Hnames; [|done].
    cbn [err_of] in Hfn. intros H.
    destruct (walk_names_error _ _ _ _ _ _ _ _ H)
      as (before & name & after & acc1 & -> & Hb & [(lerr & Hl & Hcb & Hne)
                                                   | (fileInfo & Hl & Hd & Hcase)]).
    + by eapply walk_error_lstat.
    + eapply walk_error_entry; eauto.
Qed.

(** C5, the claim as stated, fails: with a directory that cannot be
    listed, [FindClaudeFiles] returns the three files found before it
    together with the error. *)
Lemma FindClaudeFiles_returns_entries_with_error :
  FindClaudeFiles "/repo" Sample.world_unreadable
  = ([ ClaudeFile.mk "/repo/CLAUDE.md" "CLAUDE.md" true;
       ClaudeFile.mk "/repo/docs/CLAUDE.md" "docs/CLAUDE.md" false;
       ClaudeFile.mk "/repo/docs/claude.md" "docs/claude.md" true ],
     Some (PathError "open" "/repo/private" EACCES)).
Proof. vm_compute. reflexivity. Qed.

(** C5 (amended): [FindClaudeFiles] aborts on a walk error and returns
    that error.  Its callback hands every error it is given straight back
    and adds no entry; an entry whose walk fails ends the loop over its
    directory so that no later entry is visited; a root that cannot be
    examined gives the error with no entry.  For a root that can be
    examined, [FindClaudeFiles] returns an error exactly when one arises at
    some point of the walk, at whatever depth: it returns that error, and
    with it the entries accumulated up to that point, which are not
    cleared.  The caller drops them: [ClearSymlinks] returns no record and
    changes nothing when the discovery fails. *)
Theorem FindClaudeFiles_aborts_on_error :
  (forall repoRoot w path info err acc,
      findWalkFn repoRoot w path info (Some err) acc = (acc, Some err))
  /\ (forall repoRoot w depth path name rest acc fileInfo acc' err,
      Lstat (Filepath.Join [path; name]) w = Ok fileInfo ->
      walk depth w (findWalkFn repoRoot w) (Filepath.Join [path; name]) fileInfo acc
      = (acc', Some err) ->
      IsDir fileInfo = false \/ err <> SkipDir ->
      walk_names (walk depth w (findWalkFn repoRoot w)) w (findWalkFn repoRoot w)
        path (name :: rest) acc
      = (acc', Some err))
  /\ (forall repoRoot w err,
      Lstat repoRoot w = Err err ->
      FindClaudeFiles repoRoot w = ([], Some err))
  /\ (forall repoRoot w info files err,
      Lstat repoRoot w = Ok info ->
      (FindClaudeFiles repoRoot w = (files, Some err) <->
       walk_error w (findWalkFn repoRoot w) PATH_MAX repoRoot info [] files err
       /\ err <> SkipDir))
  /\ (forall opts w files err,
      FindClaudeFiles (ClearOptions.RepoRoot opts) w = (files, Some err) ->
      ClearSymlinks opts w = ([], w)).
Proof.
  split; [|split; [|split; [|split]]].
  - done.
  - intros repoRoot w depth path name rest acc fileInfo acc' err Hl Hw Hcase.
    cbn [walk_names]. rewrite Hl, Hw.
    destruct Hcase as [->|Hne]; [done|].
    rewrite (bool_decide_eq_false_2 _ Hne). by rewrite orb_true_r.
  - intros repoRoot w err Hl. unfold FindClaudeFiles, Walk. rewrite Hl. cbn.
    by rewrite (bool_decide_eq_false_2 _ (Lstat_error_not_SkipDir _ _ _ Hl)).
  - intros repoRoot w info files err Hl. unfold FindClaudeFiles, Walk. rewrite Hl.
    split.
    + destruct (walk PATH_MAX w (findWalkFn repoRoot w) repoRoot info [])
        as [acc' [err'|]] eqn:Hw; [|done].
      destruct (bool_decide (err' = SkipDir)) eqn:Hs; [done|].
      intros [= <- <-]. split; [by apply walk_error_arisen|].
      by apply bool_decide_eq_false_1 in Hs.
    + intros [Hw Hne]. rewrite (walk_error_returned _ _ _ _ _ _ _ _ Hw).
      by rewrite (bool_decide_eq_false_2 _ Hne).
  - intros opts w files err H. unfold ClearSymlinks. by rewrite H.
Qed.

Lemma FindClaudeFiles_aborts_on_error_witness :
  FindClaudeFiles "/repo" Sample.world_unreadable
  = ([ ClaudeFile.mk "/repo/CLAUDE.md" "CLAUDE.md" true;
       ClaudeFile.mk "/repo/docs/CLAUDE.md" "docs/CLAUDE.md" false;
       ClaudeFile.mk "/repo/docs/claude.md" "docs/claude.md" true ],
     Some (PathError "open" "/repo/private" EACCES))
  /\ ClearSymlinks Sample.clear_opts Sample.world_unreadable
     = ([], Sample.world_unreadable).
Proof.
  destruct FindClaudeFiles_aborts_on_error as (_ & _ & _ & Hwalk & Hclear).
  assert (Hfind : FindClaudeFiles "/repo" Sample.world_unreadable
                  = ([ ClaudeFile.mk "/repo/CLAUDE.md" "CLAUDE.md" true;
                       ClaudeFile.mk "/repo/docs/CLAUDE.md" "docs/CLAUDE.md" false;
                       ClaudeFile.mk "/repo/docs/claude.md" "docs/claude.md" true ],
                     Some (PathError "open" "/repo/private" EACCES))).
  { apply (Hwalk "/repo" Sample.world_unreadable (mkFileInfo "repo" ModeDir)).
    - vm_compute. reflexivity.
    - split; [|discriminate].
      apply (walk_error_entry _ _ _ "/repo" _ [] [] ["CLAUDE.md"; "docs"] "private" []
               [ ClaudeFile.mk "/repo/CLAUDE.md" "CLAUDE.md" true;
                 ClaudeFile.mk "/repo/docs/CLAUDE.md" "docs/CLAUDE.md" false;
                 ClaudeFile.mk "/repo/docs/claude.md" "docs/claude.md" true ]
               (mkFileInfo "private" ModeDir)).
      + reflexivity.
      + vm_compute. reflexivity.
      + vm_compute. reflexivity.
      + vm_compute. reflexivity.
      + vm_compute. reflexivity.
      + apply walk_error_dir; [reflexivity | vm_compute; reflexivity].
      + right. discriminate. }
  split; [exact Hfind | exact (Hclear Sample.clear_opts _ _ _ Hfind)].
Defined.

End DiscoveryFacts.

(** ** Strings: one-byte separators, [Index] and suffixes *)

Module CharFacts.
Import StringFacts.

#[local] Arguments String.append !_ _ / : simpl nomatch.

(** Looking for one byte. *)
Lemma Contains_char_cons (a c : ascii) (s : string) :
  Contains (String a s) (String c "") = Ascii.eqb c a || Contains s (String c "").
Proof. simpl. by destruct (Ascii.eqb c a). Qed.

Lemma Contains_char_append (a b : string) (c : ascii) :
  Contains (a +:+ b) (String c "") = Contains a (String c "") || Contains b (String c "").
Proof.
  induction a as [|x a IH]; [done|].
  change (String x a +:+ b) with (String x (a +:+ b)).
  rewrite !Contains_char_cons, IH. by rewrite orb_assoc.
Qed.

(** No part of a split contains the separator. *)
Lemma Split_parts_no_sep (s : string) (sep : ascii) :
  Forall (fun p => Contains p (String sep "") = false) (Split s sep).
Proof.
  induction s as [|c s IH]; simpl; [by repeat constructor|].
  destruct (Ascii.eqb c sep) eqn:E.
  - by constructor.
  - pose proof (Split_not_nil s sep) as Hne.
    destruct (Split s sep) as [|p ps]; [done|].
    apply Forall_cons in IH as [Hp Hps]. constructor; [|done].
    rewrite Contains_char_cons, Hp. by rewrite Ascii.eqb_sym, E.
Qed.

Lemma last_Forall {A} (P : A -> Prop) (l : list A) (d : A) :
  l <> [] -> Forall P l -> P (List.last l d).
Proof.
  induction l as [|x l IH]; [done|]. intros _ H.
  apply Forall_cons in H as [Hx Hl].
  destruct l as [|y l]; [done|]. by apply IH.
Qed.

Lemma last_Split_no_sep (s : string) (sep : ascii) :
  Contains (List.last (Split s sep) "") (String sep "") = false.
Proof.
  apply (last_Forall (fun p => Contains p (String sep "") = false)).
  - apply Split_not_nil.
  - apply Split_parts_no_sep.
Qed.

Lemma Split_append_last (a : string) (sep : ascii) :
  List.last (Split (a +:+ String sep "") sep) "" = "".
Proof.
  induction a as [|c a IH]; simpl.
  - by rewrite Ascii.eqb_refl.
  - pose proof (Split_not_nil (a +:+ String sep "") sep) as Hne.
    destruct (Ascii.eqb c sep).
    + destruct (Split (a +:+ String sep "") sep) as [|p ps] eqn:E; [done|].
      exact IH.
    + destruct (Split (a +:+ String sep "") sep) as [|p ps] eqn:E; [done|].
      destruct ps as [|q ps]; [|exact IH].
      (* one part only: the string has no separator, which it ends with *)
      exfalso.
      assert (Hc : Contains (a +:+ String sep "") (String sep "") = true).
      { rewrite Contains_char_append, Contains_char_cons, Ascii.eqb_refl.
        apply orb_true_r. }
      pose proof (Split_length_sep' := Split_parts_no_sep (a +:+ String sep "") sep).
      rewrite E in Split_length_sep'. apply Forall_cons in Split_length_sep' as [Hp _].
      pose proof (Join_Split (a +:+ String sep "") sep) as Hj. rewrite E in Hj.
      simpl in Hj. congruence.
Qed.

(** A join of parts that lack a byte, with a separator that is another
    byte, lacks it too. *)
Lemma Join_lacks_char (parts : list string) (sep c : ascii) :
  c <> sep ->
  Forall (fun p => Contains p (String c "") = false) parts ->
  Contains (GoStrings.Join parts (String sep "")) (String c "") = false.
Proof.
  intros Hne. induction parts as [|e rest IH]; intros H; [done|].
  apply Forall_cons in H as [He Hrest].
  destruct rest as [|e' rest]; [done|].
  rewrite Join_cons2, !Contains_char_append, He, (IH Hrest).
  rewrite Contains_char_cons. simpl.
  by rewrite (proj2 (Ascii.eqb_neq c sep) Hne).
Qed.

(** [Index] of one byte: -1 exactly when the byte is absent, otherwise the
    length of the text in front of its first occurrence. *)
Lemma Index_char_absent (s : string) (c : ascii) :
  Contains s (String c "") = false -> Index s (String c "") = (-1)%Z.
Proof.
  induction s as [|a s IH]; [done|].
  rewrite Contains_char_cons. intros H. apply orb_false_iff in H as [Ha Hs].
  cbn [Index HasPrefix]. rewrite Ha, (IH Hs). done.
Qed.

Lemma Index_char_nonneg_or_absent (s : string) (c : ascii) :
  (Index s (String c "") = -1)%Z \/ (0 <= Index s (String c ""))%Z.
Proof.
  induction s as [|a s IH]; [by left|].
  cbn [Index HasPrefix]. destruct (Ascii.eqb c a); [right; done|].
  destruct (Index s (String c "") <? 0)%Z eqn:E; [by left|].
  right. apply Z.ltb_ge in E. lia.
Qed.

Lemma Index_char_first (pre rest : string) (c : ascii) :
  Contains pre (String c "") = false ->
  Index (pre +:+ String c rest) (String c "") = Z.of_nat (String.length pre).
Proof.
  induction pre as [|a pre IH]; intros H.
  - simpl. by rewrite Ascii.eqb_refl.
  - rewrite Contains_char_cons in H. apply orb_false_iff in H as [Ha Hpre].
    change (String a pre +:+ String c rest) with (String a (pre +:+ String c rest)).
    cbn [Index HasPrefix]. rewrite Ha, (IH Hpre).
    assert ((Z.of_nat (String.length pre) <? 0)%Z = false) as -> by (apply Z.ltb_ge; lia).
    cbn [String.length]. lia.
Qed.

(** The text in front of the first occurrence. *)
Lemma Index_char_split (s : string) (c : ascii) :
  Contains s (String c "") = true ->
  exists pre rest, s = pre +:+ String c rest /\ Contains pre (String c "") = false.
Proof.
  induction s as [|a s IH]; [done|].
  rewrite Contains_char_cons. destruct (Ascii.eqb c a) eqn:E.
  - apply Ascii.eqb_eq in E as <-. intros _. by exists "", s.
  - simpl. intros H. destruct (IH H) as (pre & rest & -> & Hpre).
    exists (String a pre), rest. split; [done|].
    by rewrite Contains_char_cons, E, Hpre.
Qed.

Lemma substring_prefix (pre rest : string) :
  substring 0 (String.length pre) (pre +:+ rest) = pre.
Proof.
  induction pre as [|a pre IH]; simpl.
  - by destruct rest.
  - by rewrite IH.
Qed.

End CharFacts.

(** ** internal/git: [ExtractUserFromEmail] and more on [ExtractRepoName] *)

Module GitMoreFacts.
Import Git StringFacts CharFacts GitFacts.

#[local] Arguments String.append !_ _ / : simpl nomatch.

Lemma ExtractUserFromEmail_ok (user rest : string) :
  user <> "" -> Contains user "@" = false ->
  ExtractUserFromEmail (user +:+ "@" +:+ rest) = Ok user.
Proof.
  intros Hne Hu. unfold ExtractUserFromEmail.
  change (user +:+ "@" +:+ rest) with (user +:+ String "@" rest).
  destruct (String.eqb (user +:+ String "@" rest) "") eqn:E.
  { apply eqb_true in E. by destruct user. }
  rewrite (Index_char_first _ _ _ Hu).
  assert ((Z.of_nat (String.length user) =? -1)%Z = false) as ->
      by (apply Z.eqb_neq; lia).
  unfold slice_to. rewrite Nat2Z.id, substring_prefix.
  destruct (String.eqb user "") eqn:Eu; [by apply eqb_true in Eu | done].
Qed.

Lemma ExtractUserFromEmail_inv (email : string) :
  match ExtractUserFromEmail email with
  | Ok user =>
      user <> "" /\ Contains user "@" = false
      /\ exists rest, email = user +:+ "@" +:+ rest
  | Err e =>
      (e = errorString "email is empty" /\ email = "")
      \/ (e = errorString "email does not contain @"
          /\ email <> "" /\ Contains email "@" = false)
      \/ (e = errorString "username part of email is empty"
          /\ HasPrefix email "@" = true)
  end.
Proof.
  unfold ExtractUserFromEmail.
  destruct (String.eqb email "") eqn:Eempty.
  { apply eqb_true in Eempty. by left. }
  apply eqb_false in Eempty.
  destruct (Contains email "@") eqn:Eat.
  - destruct (Index_char_split _ _ Eat) as (pre & rest & -> & Hpre).
    rewrite (Index_char_first _ _ _ Hpre).
    assert ((Z.of_nat (String.length pre) =? -1)%Z = false) as ->
        by (apply Z.eqb_neq; lia).
    unfold slice_to. rewrite Nat2Z.id, substring_prefix.
    destruct (String.eqb pre "") eqn:Epre.
    + apply eqb_true in Epre as ->. right. right. by split.
    + apply eqb_false in Epre. split; [done|]. split; [done|]. by exists rest.
  - rewrite (Index_char_absent _ _ Eat). simpl. right. left. done.
Qed.

(** [ExtractUserFromEmail] succeeds with [user] exactly on the addresses
    made of a non-empty [user] without "@", an "@" and any rest; the three
    errors are for the empty address, an address without "@" and an address
    that begins with "@". *)
Theorem ExtractUserFromEmail_spec (email : string) :
  (forall user,
      ExtractUserFromEmail email = Ok user <->
      user <> "" /\ Contains user "@" = false
      /\ exists rest, email = user +:+ "@" +:+ rest)
  /\ (ExtractUserFromEmail email = Err (errorString "email is empty") <-> email = "")
  /\ (ExtractUserFromEmail email = Err (errorString "email does not contain @") <->
      email <> "" /\ Contains email "@" = false)
  /\ (ExtractUserFromEmail email = Err (errorString "username part of email is empty") <->
      HasPrefix email "@" = true).
Proof.
  pose proof (ExtractUserFromEmail_inv email) as Hinv.
  split; [|split; [|split]].
  - intros user. split.
    + intros H. rewrite H in Hinv. exact Hinv.
    + intros (Hne & Hu & rest & ->). by apply ExtractUserFromEmail_ok.
  - split.
    + intros H. rewrite H in Hinv.
      destruct Hinv as [[_ ?]|[[? _]|[? _]]]; [done | done | done].
    + by intros ->.
  - split.
    + intros H. rewrite H in Hinv.
      destruct Hinv as [[? _]|[[_ ?]|[? _]]]; [done | done | done].
    + intros [Hne Hat]. destruct (ExtractUserFromEmail email) as [user|e].
      * destruct Hinv as (_ & _ & rest & ->).
        rewrite Contains_char_append in Hat. apply orb_false_iff in Hat as [_ Hat].
        by simpl in Hat.
      * destruct Hinv as [[_ ?]|[[-> _]|[_ Hp]]]; [done | done |].
        destruct email as [|a email]; [done|].
        rewrite Contains_char_cons in Hat. apply orb_false_iff in Hat as [Ha _].
        cbn [String.append HasPrefix] in Hp. by rewrite Ha in Hp.
  - split.
    + intros H. rewrite H in Hinv.
      destruct Hinv as [[? _]|[[? _]|[_ ?]]]; [done | done | done].
    + intros Hp. destruct (ExtractUserFromEmail email) as [user|e].
      * destruct Hinv as (Hne & Hu & rest & ->).
        destruct user as [|a user]; [done|].
        rewrite Contains_char_cons in Hu. apply orb_false_iff in Hu as [Ha _].
        cbn [String.append HasPrefix] in Hp. by rewrite Ha in Hp.
      * destruct Hinv as [[_ ->]|[(_ & _ & Hat)|[-> _]]]; [done | | done].
        destruct email as [|a email]; [done|].
        rewrite Contains_char_cons in Hat. apply orb_false_iff in Hat as [Ha _].
        cbn [String.append HasPrefix] in Hp. by rewrite Ha in Hp.
Qed.

Lemma HasPrefix_first (s p : string) (a : ascii) :
  HasPrefix s (String a p) = true -> exists s', s = String a s'.
Proof.
  destruct s as [|b s]; [done|]. cbn [HasPrefix].
  destruct (Ascii.eqb a b) eqn:E; [|done].
  apply Ascii.eqb_eq in E as ->. eauto.
Qed.

(** What the HTTP branch of [ExtractRepoName] computes. *)
Lemma ExtractRepoName_http (url : string) :
  HasPrefix url "http://" || HasPrefix url "https://" = true ->
  ExtractRepoName url =
    let rest := TrimPrefix (TrimPrefix url "https://") "http://" in
    if Contains rest "/" then Ok (List.last (Split rest "/") "")
    else Err (errorString ("invalid HTTPS URL format: " +:+ url)).
Proof.
  intros Hpre. unfold ExtractRepoName.
  assert (Hh : exists url', url = String "h" url').
  { apply orb_true_iff in Hpre as [H|H]; by apply HasPrefix_first in H. }
  destruct Hh as [url' ->].
  change (String.eqb (String "h" url') "") with false.
  change (HasPrefix (String "h" url') "git@") with false.
  cbn [andb]. rewrite andb_false_r. cbv iota. rewrite Hpre. cbv zeta.
  destruct (Contains _ "/") eqn:E.
  - pose proof (Split_length_sep _ _ E) as Hlen.
    apply Nat.ltb_ge in Hlen. by rewrite Hlen.
  - by rewrite (Split_no_sep _ _ E).
Qed.

(** On success the repository name has no "/" in it, and the name taken
    from a git@ URL is not empty. *)
Theorem ExtractRepoName_single_segment (url name : string) :
  ExtractRepoName url = Ok name ->
  Contains name "/" = false
  /\ (HasPrefix url "git@" = true -> name <> "").
Proof.
  unfold ExtractRepoName. intros H.
  destruct (String.eqb url ""); [done|].
  destruct (HasPrefix url "git@") eqn:Egit; cbn [andb] in H.
  - destruct (Contains url ":"); cbn [negb andb] in H; [|done].
    destruct (_ || _); [done|].
    destruct (_ || String.eqb (List.last (Split (List.last (Split url ":") "") "/") "") "")
      eqn:E; [done|].
    simplify_eq. split; [apply last_Split_no_sep|].
    intros _. apply orb_false_iff in E as [_ E]. by apply eqb_false.
  - rewrite andb_false_r in H. destruct (_ || _); [|done].
    destruct (_ <? 2)%nat; [done|]. simplify_eq.
    split; [apply last_Split_no_sep | done].
Qed.

Lemma ExtractRepoName_single_segment_witness :
  Contains "repo.git" "/" = false
  /\ (HasPrefix "git@github.com:user/repo.git" "git@" = true -> "repo.git" <> "").
Proof. apply (ExtractRepoName_single_segment "git@github.com:user/repo.git"). reflexivity. Defined.

Lemma TrimPrefix_absent (s prefix : string) :
  HasPrefix s prefix = false -> TrimPrefix s prefix = s.
Proof.
  intros H. unfold TrimPrefix.
  assert (TrimPrefix_go s prefix = None) as ->; [|done].
  revert s H. induction prefix as [|a prefix IH]; intros s H; [done|].
  destruct s as [|b s]; [done|]. cbn [HasPrefix TrimPrefix_go] in *.
  destruct (Ascii.eqb a b); [by apply IH | done].
Qed.

(** An https URL that ends in "/" is accepted with the empty string as the
    repository name (the text after https:// not being an http:// prefix
    itself, which would be trimmed as well). *)
Theorem ExtractRepoName_trailing_slash (base : string) :
  HasPrefix (base +:+ "/") "http://" = false ->
  ExtractRepoName ("https://" +:+ base +:+ "/") = Ok "".
Proof.
  intros Hbase.
  rewrite ExtractRepoName_http by done. cbv zeta.
  change (TrimPrefix ("https://" +:+ base +:+ "/") "https://") with (base +:+ "/").
  rewrite (TrimPrefix_absent _ _ Hbase).
  assert (Contains (base +:+ "/") "/" = true) as ->.
  { rewrite Contains_char_append. apply orb_true_r. }
  f_equal. apply Split_append_last.
Qed.

Lemma ExtractRepoName_trailing_slash_witness :
  ExtractRepoName "https://github.com/user/repo/" = Ok "".
Proof. apply (ExtractRepoName_trailing_slash "github.com/user/repo"). reflexivity. Defined.

End GitMoreFacts.

(** ** Rooted, cleaned paths *)

Module PathFacts.
Import Filepath StringFacts CharFacts FilepathFacts.

#[local] Arguments String.append !_ _ / : simpl nomatch.

(** [Split] goes through a separator. *)
Lemma Split_append (a b : string) (sep : ascii) :
  Split (a +:+ String sep b) sep = (Split a sep ++ Split b sep)%list.
Proof.
  induction a as [|c a IH]; simpl.
  - by rewrite Ascii.eqb_refl.
  - rewrite IH. destruct (Ascii.eqb c sep); [done|].
    pose proof (Split_not_nil a sep). by destruct (Split a sep).
Qed.

(** The loop of [Clean] can be run in two parts. *)
Lemma clean_elems_app (rooted : bool) (es1 es2 out : list string) :
  clean_elems rooted out (es1 ++ es2)
  = clean_elems rooted (rev (clean_elems rooted out es1)) es2.
Proof.
  revert out. induction es1 as [|e es1 IH]; intros out; simpl.
  - by rewrite rev_involutive.
  - repeat case_match; apply IH.
Qed.

(** Names are kept as they are. *)
Lemma clean_elems_names (rooted : bool) (elems out : list string) :
  Forall is_name elems -> clean_elems rooted out elems = (rev out ++ elems)%list.
Proof.
  revert out. induction elems as [|e rest IH]; intros out H; simpl.
  - by rewrite app_nil_r.
  - apply Forall_cons in H as [(H1 & H2 & H3 & _) Hrest].
    rewrite (proj2 (String.eqb_neq e "") H1), (proj2 (String.eqb_neq e ".") H2),
      (proj2 (String.eqb_neq e "..") H3). simpl.
    rewrite (IH _ Hrest). simpl. by rewrite <- app_assoc.
Qed.

(** In a rooted path every element that is left is a name. *)
Lemma clean_elems_rooted_names (elems out : list string) :
  Forall is_name out ->
  Forall (fun e => Contains e "/" = false) elems ->
  Forall is_name (clean_elems true out elems).
Proof.
  revert out. induction elems as [|e rest IH]; intros out Hout H; simpl.
  - by apply Forall_rev.
  - apply Forall_cons in H as [He Hrest].
    destruct (String.eqb e "") eqn:E1; [by apply IH|].
    destruct (String.eqb e ".") eqn:E2; [by apply IH|]. simpl.
    destruct (String.eqb e "..") eqn:E3.
    + destruct out as [|top out']; [by apply IH|].
      apply Forall_cons in Hout as [(_ & _ & Htop & _) Hout'].
      rewrite (proj2 (String.eqb_neq top "..") Htop). by apply IH.
    + apply IH; [|done]. constructor; [|done].
      repeat split; [by apply eqb_false..|done].
Qed.

Lemma IsAbs_cons (p : string) : IsAbs p = true <-> exists p', p = String "/" p'.
Proof.
  unfold IsAbs. destruct p as [|c p]; [split; [done | by intros [? ?]]|].
  cbn [HasPrefix]. destruct (Ascii.eqb "/" c) eqn:E.
  - apply Ascii.eqb_eq in E as <-. split; eauto.
  - apply Ascii.eqb_neq in E. split; [done | intros [? [= ]]; congruence].
Qed.

(** The cleaned form of a rooted path: "/" and names joined by "/". *)
Lemma Clean_rooted (path : string) :
  IsAbs path = true ->
  exists names, Forall is_name names /\ Clean path = "/" +:+ GoStrings.Join names "/".
Proof.
  intros H. unfold Clean. rewrite H.
  exists (clean_elems true [] (Split path Separator)). split; [|done].
  apply clean_elems_rooted_names; [constructor | exact (Split_parts_no_sep path Separator)].
Qed.

Lemma Split_rooted_names (names : list string) :
  Forall is_name names ->
  clean_elems true [] (Split ("/" +:+ GoStrings.Join names "/") Separator) = names.
Proof.
  intros H. change ("/" +:+ ?x) with ("" +:+ String Separator x).
  rewrite Split_append. cbn [Split app].
  destruct names as [|n names].
  - done.
  - change "/" with (String Separator "").
    rewrite Split_Join; [|done|].
    + change (clean_elems true [] ("" :: n :: names))
        with (clean_elems true [] (n :: names)).
      by rewrite clean_elems_names.
    + eapply Forall_impl; [exact H|]. intros e (_ & _ & _ & He). exact He.
Qed.

(** Cleaning a rooted path twice is cleaning it once. *)
Lemma Clean_idempotent_rooted (path : string) :
  IsAbs path = true -> Clean (Clean path) = Clean path.
Proof.
  intros H. destruct (Clean_rooted path H) as (names & Hnames & ->).
  unfold Clean at 1. change (IsAbs ("/" +:+ _)) with true. cbv iota.
  by rewrite Split_rooted_names.
Qed.

Lemma Clean_IsAbs (path : string) : IsAbs (Clean path) = IsAbs path.
Proof.
  unfold Clean. destruct (IsAbs path) eqn:E; [done|].
  set (body := GoStrings.Join _ "/").
  destruct (String.eqb body "") eqn:Eb; [done|].
  (* the first element is not empty, so the body does not start with "/" *)
  subst body.
  assert (Hne : forall out elems,
             Forall (fun e => e <> "") out ->
             Forall (fun e => e <> "") (clean_elems false out elems)).
  { intros out elems. revert out. induction elems as [|e rest IH]; intros out Hout; simpl.
    - by apply Forall_rev.
    - destruct (String.eqb e "") eqn:E1; [by apply IH|]. simpl.
      destruct (String.eqb e "."); [by apply IH|].
      destruct (String.eqb e "..").
      + destruct out as [|top out']; [by apply IH; repeat constructor|].
        destruct (String.eqb top ".."); apply IH; [by constructor|].
        by eapply Forall_cons_1.
      + apply IH. constructor; [by apply eqb_false | done]. }
  specialize (Hne [] (Split path Separator) (Forall_nil_2 _)).
  assert (Hsep : Forall (fun e => Contains e "/" = false)
                   (clean_elems false [] (Split path Separator))).
  { assert (Hk : forall out elems,
               Forall (fun e => Contains e "/" = false) out ->
               Forall (fun e => Contains e "/" = false) elems ->
               Forall (fun e => Contains e "/" = false) (clean_elems false out elems)).
    { intros out elems. revert out.
      induction elems as [|e rest IH]; intros out Hout Hel; simpl.
      - by apply Forall_rev.
      - apply Forall_cons in Hel as [He Hrest].
        repeat case_match; apply IH; try done; try (by constructor).
        by eapply Forall_cons_1. }
    apply Hk; [constructor | exact (Split_parts_no_sep path Separator)]. }
  destruct (clean_elems false [] (Split path Separator)) as [|e es]; [done|].
  apply Forall_cons in Hne as [He _]. apply Forall_cons in Hsep as [Hs _].
  destruct e as [|c e]; [done|].
  rewrite Contains_char_cons in Hs. apply orb_false_iff in Hs as [Hc _].
  unfold IsAbs. destruct es; cbn [GoStrings.Join String.append HasPrefix]; by rewrite Hc.
Qed.

Lemma Join_snoc (l : list string) (x sep : string) :
  l <> [] -> GoStrings.Join (l ++ [x]) sep = GoStrings.Join l sep +:+ sep +:+ x.
Proof.
  induction l as [|e l IH]; [done|]. intros _.
  destruct l as [|e' l]; [done|].
  change ((e :: e' :: l) ++ [x])%list with (e :: ((e' :: l) ++ [x]))%list.
  change (((e' :: l) ++ [x]))%list with (e' :: (l ++ [x]))%list at 1.
  rewrite Join_cons2. change (e' :: (l ++ [x]))%list with ((e' :: l) ++ [x])%list.
  rewrite IH by done. rewrite Join_cons2. by rewrite !append_assoc.
Qed.

(** Joining a cleaned rooted directory and a name: the directory, a
    separator and the name. *)
Lemma Join_dir_name (dir name : string) :
  IsAbs dir = true -> Clean dir = dir -> is_name name ->
  Filepath.Join [dir; name]
  = if String.eqb dir "/" then "/" +:+ name else dir +:+ "/" +:+ name.
Proof.
  intros Habs Hclean Hname.
  destruct (Clean_rooted dir Habs) as (names & Hnames & Hdir).
  rewrite Hclean in Hdir. subst dir.
  cbn [Filepath.Join]. change (String.eqb ("/" +:+ _) "") with false. cbv iota.
  cbn [GoStrings.Join]. unfold Clean.
  change (IsAbs (("/" +:+ _) +:+ _)) with true. cbv iota.
  change (("/" +:+ GoStrings.Join names "/") +:+ "/" +:+ name)
    with (("/" +:+ GoStrings.Join names "/") +:+ String Separator name).
  rewrite Split_append, clean_elems_app, Split_rooted_names by done.
  destruct Hname as (H1 & H2 & H3 & H4).
  rewrite (Split_no_sep name Separator H4).
  cbn [clean_elems].
  rewrite (proj2 (String.eqb_neq name "") H1), (proj2 (String.eqb_neq name ".") H2),
    (proj2 (String.eqb_neq name "..") H3). cbn [orb]. cbv iota.
  change (rev (name :: rev names)) with (rev (rev names) ++ [name])%list.
  rewrite rev_involutive.
  destruct names as [|n names].
  - done.
  - assert (String.eqb ("/" +:+ GoStrings.Join (n :: names) "/") "/" = false) as ->.
    { apply String.eqb_neq. intros Heq.
      apply Forall_cons in Hnames as [(Hn & _) _].
      change ("/" +:+ ?x) with (String "/" x) in Heq.
      assert (GoStrings.Join (n :: names) "/" = "") as Hj by congruence.
      destruct names; cbn in Hj; [done|]. by destruct n. }
    rewrite Join_snoc by done. by rewrite append_assoc.
Qed.

End PathFacts.

(** ** Storage names and storage paths *)

Module StorageMoreFacts.
Import Filepath Storage StringFacts CharFacts FilepathFacts PathFacts.

#[local] Arguments String.append !_ _ / : simpl nomatch.

(** *** [Base] *)

Lemma strip_trailing_empty (p : string) :
  strip_trailing p = "" -> p = "" \/ IsAbs p = true.
Proof.
  destruct p as [|c p]; [by left|]. cbn [strip_trailing].
  destruct (strip_trailing p); [|done].
  unfold IsAbs. cbn [HasPrefix]. unfold Separator.
  rewrite (Ascii.eqb_sym "/" c). destruct (Ascii.eqb c "/"); [by right | done].
Qed.

Lemma last_cons {A} (x y : A) (l : list A) (d : A) :
  List.last (x :: y :: l) d = List.last (y :: l) d.
Proof. done. Qed.

(** The last element of a path without its trailing separators is empty
    only when nothing is left of the path. *)
Lemma strip_trailing_last (p : string) :
  List.last (Split (strip_trailing p) Separator) "" = "" -> strip_trailing p = "".
Proof.
  induction p as [|c p IH]; [done|]. cbn [strip_trailing].
  destruct (strip_trailing p) as [|d r] eqn:E.
  - destruct (Ascii.eqb c Separator) eqn:Ec; [done|].
    cbn [Split]. by rewrite Ec.
  - intros H. exfalso.
    assert (Hlast : List.last (Split (String d r) Separator) "" = ""); [|by specialize (IH Hlast)].
    revert H. cbn [Split].
    pose proof (Split_not_nil (String d r) Separator) as Hne.
    change (if Ascii.eqb d Separator then "" :: Split r Separator
            else match Split r Separator with
                 | [] => [String d ""]
                 | p0 :: ps => String d p0 :: ps
                 end) with (Split (String d r) Separator) in *.
    destruct (Split (String d r) Separator) as [|x l]; [done|].
    destruct (Ascii.eqb c Separator); [done|].
    destruct l; [done | done].
Qed.

(** The base of a path that is not rooted has no separator in it. *)
Lemma Base_no_sep (p : string) :
  IsAbs p = false -> Contains (Base p) "/" = false.
Proof.
  intros Hrel. unfold Base.
  destruct (String.eqb p "") eqn:Ep; [done|]. apply eqb_false in Ep.
  cbv zeta.
  destruct (String.eqb (List.last (Split (strip_trailing p) Separator) "") "") eqn:El.
  - apply eqb_true, strip_trailing_last, strip_trailing_empty in El as [?|?]; congruence.
  - apply last_Split_no_sep.
Qed.

(** *** The storage name *)

Lemma storage_name_flat (pc : PathConverter) (p name : string) :
  IsAbs p = false ->
  ConvertToStorageName pc p = Ok name ->
  Contains name "/" = false /\ name <> "".
Proof.
  intros Hrel. unfold ConvertToStorageName.
  destruct (ValidatePath p); [done|].
  destruct (_ || _) eqn:Eroot; intros [= <-].
  - split; [by apply Base_no_sep|].
    unfold Base. destruct (String.eqb p ""); [done|].
    cbv zeta. destruct (String.eqb _ "") eqn:E; [done | by apply eqb_false].
  - split.
    + apply (Join_lacks_char _ "~" "/"); [done|].
      exact (Split_parts_no_sep (Clean p) Separator).
    + intros Hj.
      pose proof (Join_Split (Clean p) Separator) as Hback.
      pose proof (Split_not_nil (Clean p) Separator) as Hne.
      destruct (Split (Clean p) Separator) as [|e [|e' rest]]; [done| |].
      * cbn in Hj, Hback. subst e. by apply (Clean_not_empty p).
      * rewrite Join_cons2 in Hj. by destruct e.
Qed.

(** The storage name of a path that is not rooted is flat: it has no
    separator in it, so that the stored file is an entry of the storage
    directory itself; and it is never empty. *)
Theorem ConvertToStorageName_flat (pc : PathConverter) (p name : string) :
  IsAbs p = false ->
  ConvertToStorageName pc p = Ok name ->
  Contains name "/" = false /\ name <> "".
Proof. exact (storage_name_flat pc p name). Qed.

Lemma ConvertToStorageName_flat_witness :
  Contains "docs~CLAUDE.md" "/" = false /\ "docs~CLAUDE.md" <> "".
Proof.
  apply (ConvertToStorageName_flat Sample.pc "docs/CLAUDE.md"); reflexivity.
Defined.

(** The storage name of a cleaned path gives the path back when its
    tildes are turned into separators. *)
Lemma ConvertToStorageName_decode (pc : PathConverter) (p name : string) :
  Clean p = p ->
  ConvertToStorageName pc p = Ok name ->
  GoStrings.Join (Split name "~") "/" = p.
Proof.
  intros Hclean. unfold ConvertToStorageName, ValidatePath.
  destruct (Contains p "~") eqn:Htilde; [done|].
  rewrite Hclean.
  destruct (String.eqb p "CLAUDE.md" || String.eqb p (Base p)) eqn:Eroot; intros [= <-].
  - assert (Hbase : Base p = p).
    { apply orb_true_iff in Eroot as [E|E]; apply eqb_true in E; [by subst p | done]. }
    rewrite Hbase. by rewrite (Split_no_sep p "~" Htilde).
  - pose proof (Split_not_nil p Separator) as Hne.
    rewrite (Split_Join (Split p Separator) "~" Hne).
    + exact (Join_Split p Separator).
    + by apply Split_Contains_false.
Qed.

(** Two cleaned paths with the same storage name are the same path: files
    at different places of the repository never share a stored file. *)
Theorem ConvertToStorageName_injective (pc : PathConverter) (p q name : string) :
  Clean p = p -> Clean q = q ->
  ConvertToStorageName pc p = Ok name ->
  ConvertToStorageName pc q = Ok name ->
  p = q.
Proof.
  intros Hp Hq Hpn Hqn.
  rewrite <- (ConvertToStorageName_decode pc p name Hp Hpn).
  by rewrite <- (ConvertToStorageName_decode pc q name Hq Hqn).
Qed.

Lemma ConvertToStorageName_injective_witness : "docs/CLAUDE.md" = "docs/CLAUDE.md".
Proof.
  apply (ConvertToStorageName_injective Sample.pc _ _ "docs~CLAUDE.md"); reflexivity.
Defined.

(** Names survive cleaning. *)
Lemma Clean_names (names : list string) :
  names <> [] -> Forall is_name names ->
  Clean (GoStrings.Join names "/") = GoStrings.Join names "/"
  /\ IsAbs (GoStrings.Join names "/") = false.
Proof.
  intros Hne Hnames.
  assert (Hrel : IsAbs (GoStrings.Join names "/") = false).
  { destruct names as [|n names]; [done|].
    apply Forall_cons in Hnames as [(Hn & _ & _ & Hs) _].
    destruct n as [|c n]; [done|].
    rewrite Contains_char_cons in Hs. apply orb_false_iff in Hs as [Hc _].
    unfold IsAbs. destruct names; cbn [GoStrings.Join String.append HasPrefix]; by rewrite Hc. }
  split; [|done].
  assert (Hsplit : clean_elems false [] (Split (GoStrings.Join names "/") Separator)
                   = names).
  { change "/" with (String Separator "").
    rewrite Split_Join; [by rewrite clean_elems_names|done|].
    eapply Forall_impl; [exact Hnames|]. intros e (_ & _ & _ & He). exact He. }
  unfold Clean. rewrite Hrel, Hsplit.
  destruct (String.eqb _ "") eqn:E; [|done].
  apply eqb_true in E. exfalso.
  destruct names as [|n names]; [done|].
  apply Forall_cons in Hnames as [(Hn & _) _].
  destruct names; [by cbn in E|]. rewrite Join_cons2 in E. by destruct n.
Qed.

(** The converse round trip: a storage name whose tilde-separated parts
    are file names without ".." is turned into a repository path whose
    storage name it is. *)
Theorem storage_name_roundtrip (pc : PathConverter) (name : string) :
  Forall (fun part => is_name part /\ Contains part ".." = false) (Split name "~") ->
  ConvertToRepoPath pc name = GoStrings.Join (Split name "~") "/"
  /\ ConvertToStorageName pc (ConvertToRepoPath pc name) = Ok name.
Proof.
  intros Hparts.
  pose proof (Split_not_nil name "~") as Hne.
  pose proof (Join_Split name "~") as Hback.
  pose proof (Split_parts_no_sep name "~") as Htilde.
  assert (Hnames : Forall is_name (Split name "~")).
  { eapply Forall_impl; [exact Hparts|]. by intros e [? _]. }
  assert (Hdots : Forall (fun e => Contains e ".." = false) (Split name "~")).
  { eapply Forall_impl; [exact Hparts|]. by intros e [_ ?]. }
  destruct (Clean_names _ Hne Hnames) as [Hclean Hrel].
  assert (Hrepo : ConvertToRepoPath pc name = GoStrings.Join (Split name "~") "/").
  { unfold ConvertToRepoPath.
    destruct (Contains name "~") eqn:E; cbn [negb].
    - assert (existsb (fun part => String.eqb part ".." || Contains part "..")
                (Split name "~") = false) as ->.
      { apply not_true_is_false. intros Hex.
        apply existsb_exists in Hex as (part & Hin & Hpart).
        apply list_elem_of_In in Hin.
        rewrite Forall_forall in Hparts. destruct (Hparts part Hin) as [(_ & _ & H3 & _) Hd].
        apply orb_true_iff in Hpart as [E'|E']; [by apply eqb_true in E' | congruence]. }
      destruct (Split name "~") as [|e rest] eqn:Es; [done|].
      apply Forall_cons in Hnames as [(He & _) _].
      cbn [Filepath.Join]. rewrite (proj2 (String.eqb_neq e "") He). exact Hclean.
    - rewrite (Split_no_sep name "~" E) in *. cbn [GoStrings.Join] in *.
      apply Forall_cons in Hdots as [-> _]. done. }
  split; [done|]. rewrite Hrepo.
  unfold ConvertToStorageName, ValidatePath.
  assert (Contains (GoStrings.Join (Split name "~") "/") "~" = false) as ->.
  { by apply (Join_lacks_char _ "/" "~"). }
  rewrite Hclean.
  destruct (_ || _) eqn:Eroot.
  - destruct (Split name "~") as [|e [|e' rest]] eqn:Es; [done| |].
    + cbn [GoStrings.Join] in *. subst e. f_equal.
      apply orb_true_iff in Eroot as [E|E]; apply eqb_true in E; [by subst name | done].
    + exfalso.
      pose proof (Join_Contains_sep e e' rest "/") as Hsep.
      apply orb_true_iff in Eroot as [E|E]; apply eqb_true in E.
      * by rewrite E in Hsep.
      * rewrite E, (Base_no_sep _ Hrel) in Hsep. done.
  - change "/" with (String Separator "") at 1.
    rewrite Split_Join; [by rewrite Hback|done|].
    eapply Forall_impl; [exact Hnames|]. intros e (_ & _ & _ & He). exact He.
Qed.

Lemma storage_name_roundtrip_witness :
  ConvertToRepoPath Sample.pc "source~go~api~CLAUDE.md" = "source/go/api/CLAUDE.md"
  /\ ConvertToStorageName Sample.pc (ConvertToRepoPath Sample.pc "source~go~api~CLAUDE.md")
     = Ok "source~go~api~CLAUDE.md".
Proof.
  apply (storage_name_roundtrip Sample.pc "source~go~api~CLAUDE.md").
  repeat constructor; discriminate.
Defined.

(** *** The storage directory and the storage paths *)

(** The storage directory of a converter with a rooted storage root is
    rooted and cleaned. *)
Lemma GetRepoStorageDir_clean (pc : PathConverter) :
  IsAbs (StorageRoot pc) = true ->
  IsAbs (GetRepoStorageDir pc) = true
  /\ Clean (GetRepoStorageDir pc) = GetRepoStorageDir pc.
Proof.
  intros Habs. unfold GetRepoStorageDir. cbn [Filepath.Join].
  destruct (String.eqb (StorageRoot pc) "") eqn:E.
  { apply eqb_true in E. by rewrite E in Habs. }
  assert (Hj : IsAbs (GoStrings.Join [StorageRoot pc; RepoName pc] "/") = true).
  { apply IsAbs_cons in Habs as [r ->]. done. }
  split.
  - by rewrite Clean_IsAbs.
  - by apply Clean_idempotent_rooted.
Qed.

Lemma storage_path_layout (pc : PathConverter) (p name : string) :
  IsAbs (StorageRoot pc) = true ->
  GetRepoStorageDir pc <> "/" ->
  IsAbs p = false ->
  ConvertToStorageName pc p = Ok name ->
  name <> "." -> name <> ".." ->
  GetStoragePath pc p = Ok (GetRepoStorageDir pc +:+ "/" +:+ name)
  /\ HasPrefix (GetRepoStorageDir pc +:+ "/" +:+ name) (GetRepoStorageDir pc) = true.
Proof.
  intros Hroot Hdir Hrel Hname Hdot Hdots.
  destruct (GetRepoStorageDir_clean pc Hroot) as [Habs Hclean].
  destruct (storage_name_flat pc p name Hrel Hname) as [Hflat Hne].
  unfold GetStoragePath. rewrite Hname. split.
  - f_equal. rewrite Join_dir_name by done.
    by rewrite (proj2 (String.eqb_neq _ _) Hdir).
  - apply HasPrefix_append. clear.
    induction (GetRepoStorageDir pc) as [|c s IH]; [done|].
    cbn [HasPrefix]. by rewrite Ascii.eqb_refl.
Qed.

(** Where a file is stored: the storage directory, a separator and the
    storage name, which is the path [FindStoredFiles] builds for the entry
    of that name, and a path that begins with the storage directory as
    [ClearSymlinks] checks. *)
Theorem GetStoragePath_layout (pc : PathConverter) (p name : string) :
  IsAbs (StorageRoot pc) = true ->
  GetRepoStorageDir pc <> "/" ->
  IsAbs p = false ->
  ConvertToStorageName pc p = Ok name ->
  name <> "." -> name <> ".." ->
  GetStoragePath pc p = Ok (GetRepoStorageDir pc +:+ "/" +:+ name)
  /\ HasPrefix (GetRepoStorageDir pc +:+ "/" +:+ name) (GetRepoStorageDir pc) = true.
Proof. exact (storage_path_layout pc p name). Qed.

Lemma GetStoragePath_layout_witness :
  GetStoragePath Sample.pc "docs/CLAUDE.md"
  = Ok (GetRepoStorageDir Sample.pc +:+ "/" +:+ "docs~CLAUDE.md")
  /\ HasPrefix (GetRepoStorageDir Sample.pc +:+ "/" +:+ "docs~CLAUDE.md")
               (GetRepoStorageDir Sample.pc) = true.
Proof.
  apply (GetStoragePath_layout Sample.pc "docs/CLAUDE.md"); try reflexivity; discriminate.
Defined.

End StorageMoreFacts.

(** ** The storage directory: [EnsureStorageDir] and the init command *)

Module DirFacts.
Import OS Storage Cmd OSFacts Frames.

Lemma grows_by_dirs_refl (w : World) : grows_by_dirs w w.
Proof. repeat split; [done|]. by left. Qed.

Lemma grows_by_dirs_trans (w1 w2 w3 : World) :
  grows_by_dirs w1 w2 -> grows_by_dirs w2 w3 -> grows_by_dirs w1 w3.
Proof.
  intros (He1 & Hh1 & Hs1 & Hn1) (He2 & Hh2 & Hs2 & Hn2).
  split; [by eapply extends_trans|]. split; [congruence|]. split; [congruence|].
  intros key n H. destruct (Hn2 key n H) as [H' | ->]; [by apply Hn1 | by right].
Qed.

Lemma Mkdir_grows (name : string) (w w' : World) (r : option error) :
  Mkdir name w = (r, w') -> grows_by_dirs w w'.
Proof.
  unfold Mkdir. intros H.
  repeat case_match; simplify_eq; try apply grows_by_dirs_refl.
  split; [split; [done | by apply insert_subseteq]|].
  split; [done|]. split; [done|]. cbn. intros key n.
  destruct (decide (key = locate w name)) as [->|Hne].
  - rewrite lookup_insert_eq. intros [= <-]. by right.
  - rewrite lookup_insert_ne by done. by left.
Qed.

Lemma mkdirAll_grows (chain : list string) (w : World) :
  grows_by_dirs w (mkdirAll chain w).2.
Proof.
  revert w. induction chain as [|path parents IH]; intros w; cbn [mkdirAll].
  - apply grows_by_dirs_refl.
  - destruct (Stat path w) as [dir|err].
    + destruct (IsDir dir); apply grows_by_dirs_refl.
    + specialize (IH w). destruct (mkdirAll parents w) as [[err'|] w1]; [done|].
      destruct (Mkdir path w1) as [[err'|] w2] eqn:E.
      * pose proof (Mkdir_grows _ _ _ _ E) as H2.
        assert (grows_by_dirs w w2) by by eapply grows_by_dirs_trans.
        by repeat case_match.
      * pose proof (Mkdir_grows _ _ _ _ E) as H2. by eapply grows_by_dirs_trans.
Qed.

Lemma Stat_of_directory (name : string) (w : World) (r wr : bool) :
  name <> "" -> fs w !! locate w name = Some (Directory r wr) ->
  exists info, Stat name w = Ok info /\ IsDir info = true.
Proof.
  intros Hne H. unfold Stat.
  rewrite (proj2 (String.eqb_neq name "") Hne).
  unfold MAXSYMLINKS. cbn [follow]. rewrite H. by eexists.
Qed.

Lemma Lstat_directory (name : string) (w : World) (info : FileInfo) :
  Lstat name w = Ok info -> IsDir info = true ->
  name <> "" /\ exists r wr, fs w !! locate w name = Some (Directory r wr).
Proof.
  unfold Lstat. intros H Hd.
  destruct (String.eqb name "") eqn:E; [done|]. apply String.eqb_neq in E.
  split; [done|].
  destruct (fs w !! locate w name) as [[c|t|r wr]|]; simplify_eq; try done; eauto.
Qed.

(** After a successful [MkdirAll] the path is a directory. *)
Lemma MkdirAll_directory (path : string) (w w' : World) :
  MkdirAll path w = (None, w') ->
  exists info, Stat path w' = Ok info /\ IsDir info = true.
Proof.
  unfold MkdirAll.
  assert (Hchain : exists parents, ancestors (String.length path) path = path :: parents).
  { destruct (String.length path); cbn [ancestors]; [by eexists|].
    destruct (parent_text path); by eexists. }
  destruct Hchain as [parents ->]. cbn [mkdirAll].
  destruct (Stat path w) as [dir|err] eqn:Es.
  - destruct (IsDir dir) eqn:Ed; intros [= <-]. by exists dir.
  - destruct (mkdirAll parents w) as [[err'|] w1]; [done|].
    destruct (Mkdir path w1) as [[err'|] w2] eqn:Em.
    + destruct (Lstat path w2) as [dir|] eqn:El; [|done].
      destruct (IsDir dir) eqn:Ed; [|done]. intros [= <-].
      destruct (Lstat_directory _ _ _ El Ed) as (Hne & r & wr & Hnode).
      by eapply Stat_of_directory.
    + intros [= <-]. unfold Mkdir in Em.
      destruct (String.eqb path "") eqn:E; [done|]. apply String.eqb_neq in E.
      destruct (fs w1 !! locate w1 path); [done|].
      destruct (parent_check _ _); [done|]. simplify_eq.
      eapply Stat_of_directory; [done|]. cbn.
      change (locate (with_fs w1 _) path) with (locate w1 path).
      apply lookup_insert_eq.
Qed.

Lemma EnsureStorageDir_grows (pc : PathConverter) (w : World) :
  grows_by_dirs w (EnsureStorageDir pc w).2.
Proof.
  unfold EnsureStorageDir.
  pose proof (mkdirAll_grows
                (ancestors (String.length (GetRepoStorageDir pc)) (GetRepoStorageDir pc)) w)
    as H.
  unfold MkdirAll. by destruct (mkdirAll _ w) as [[err|] w1].
Qed.

Lemma EnsureStorageDir_again (pc : PathConverter) (w w' : World) :
  EnsureStorageDir pc w = (None, w') ->
  (exists info, Stat (GetRepoStorageDir pc) w' = Ok info /\ IsDir info = true)
  /\ EnsureStorageDir pc w' = (None, w').
Proof.
  unfold EnsureStorageDir. intros H.
  destruct (MkdirAll (GetRepoStorageDir pc) w) as [[err|] w1] eqn:E; [done|].
  simplify_eq.
  destruct (MkdirAll_directory _ _ _ E) as (info & Hs & Hd).
  split; [by exists info|].
  unfold MkdirAll.
  assert (Hchain : exists parents,
             ancestors (String.length (GetRepoStorageDir pc)) (GetRepoStorageDir pc)
             = GetRepoStorageDir pc :: parents).
  { destruct (String.length (GetRepoStorageDir pc)); cbn [ancestors]; [by eexists|].
    destruct (parent_text _); by eexists. }
  destruct Hchain as [parents ->]. cbn [mkdirAll]. by rewrite Hs, Hd.
Qed.

(** [EnsureStorageDir] only ever adds directories; when it succeeds the
    storage directory is a directory, and ensuring it again succeeds without
    changing anything. *)
Theorem EnsureStorageDir_creates (pc : PathConverter) (w : World) :
  grows_by_dirs w (EnsureStorageDir pc w).2
  /\ forall w', EnsureStorageDir pc w = (None, w') ->
       (exists info, Stat (GetRepoStorageDir pc) w' = Ok info /\ IsDir info = true)
       /\ EnsureStorageDir pc w' = (None, w').
Proof.
  split; [apply EnsureStorageDir_grows | apply EnsureStorageDir_again].
Qed.

(** The init command is idempotent: once it has succeeded, running it
    again reports that the storage directory exists and changes nothing. *)
Theorem initStorage_idempotent (pc : PathConverter) (user : string)
    (w w1 : World) (o o1 o2 : Output) :
  initStorage pc user w o = (None, w1, o1) ->
  initStorage pc user w1 o2
  = (None, w1,
     PrintInfo ("User: " +:+ user)
       (PrintInfo ("Storage directory already exists: " +:+ GetRepoStorageDir pc) o2)).
Proof.
  unfold initStorage.
  destruct (match Stat (GetRepoStorageDir pc) w with
            | Ok info => IsDir info | Err _ => false end) eqn:E.
  - intros [= <- _]. by rewrite E.
  - destruct (EnsureStorageDir pc w) as [[err|] w'] eqn:Ee; [done|].
    intros [= <- _].
    destruct (EnsureStorageDir_again pc w w' Ee) as [(info & -> & ->) _]. done.
Qed.

Lemma initStorage_idempotent_witness :
  exists w1,
    initStorage Sample.pc "u" w1 (mkOutput "" "")
    = (None, w1,
       PrintInfo "User: u"
         (PrintInfo ("Storage directory already exists: "
                     +:+ GetRepoStorageDir Sample.pc) (mkOutput "" ""))).
Proof.
  eexists.
  eapply (initStorage_idempotent Sample.pc "u" Sample.world _ (mkOutput "" "")).
  vm_compute. reflexivity.
Defined.

End DirFacts.

(** ** [SaveFiles]: what a successful save leaves behind *)

Module SaveMoreFacts.
Import OS Storage Files Operations OSFacts Frames DirFacts PathFacts StorageMoreFacts.

(** What a successful turn of [SaveFiles] has done: the storage directory
    was ensured, the content was read, the storage name was free and the
    directory of the original let the original go; the tree then holds the
    storage file and, in place of the original, the link to it. *)
Lemma saveFile_success (opts : SaveOptions.t) (file : ClaudeFile.t) (w w' : World)
    (r : SaveResult.t) :
  saveFile opts file w = (r, w') ->
  SaveResult.Success r = true ->
  let rel := ClaudeFile.RepoRelativePath file in
  let abs := ClaudeFile.AbsolutePath file in
  exists storagePath content w1,
    GetStoragePath (SaveOptions.PathConverter opts) rel = Ok storagePath
    /\ EnsureStorageDir (SaveOptions.PathConverter opts) w = (None, w1)
    /\ ReadFile abs w1 = Ok content
    /\ r = SaveResult.mk rel storagePath true false "" "" None
    /\ abs <> "" /\ storagePath <> ""
    /\ fs w1 !! locate w1 storagePath = None
    /\ parent_check (fs w1) (locate w1 storagePath) = None
    /\ is_Some (fs w1 !! locate w1 abs)
    /\ parent_check (fs w1) (locate w1 abs) = None
    /\ cwd w' = cwd w1 /\ home w' = home w1
    /\ fs w' = <[locate w1 abs := Symlink (locate w1 storagePath)]>
                 (<[locate w1 storagePath := File content]> (fs w1)).
Proof.
  intros Hsave Hok rel abs. unfold saveFile in Hsave. fold rel abs in Hsave.
  destruct (ValidatePath rel); [by simplify_eq|].
  destruct (ClaudeFile.IsSymlink file); [by simplify_eq|].
  destruct (GetStoragePath _ rel) as [sp|]; [|by simplify_eq].
  destruct (EnsureStorageDir _ w) as [[e|] w1]; [by simplify_eq|].
  destruct (ReadFile abs w1) as [content|] eqn:Hread; [|by simplify_eq].
  destruct (OpenFile_excl sp w1) as [[h|e] w2] eqn:Hopen;
    [|destruct (IsExist e); by simplify_eq].
  destruct (Write h content w2) as [[e|] w3] eqn:Hwrite.
  { destruct (Close h w3), (Remove sp _). by simplify_eq. }
  cbn [Close] in Hsave.
  destruct (Remove abs w3) as [[e|] w5] eqn:Hremove.
  { destruct (Remove sp w5). by simplify_eq. }
  destruct (Abs sp w5) as [absSp|e] eqn:Habs.
  2: { destruct (restore_original _ _ _ _ _ _) as [[? ?] ?]. by simplify_eq. }
  destruct (Symlink_ absSp abs w5) as [[e|] w6] eqn:Hlink.
  { destruct (restore_original _ _ _ _ _ _) as [[? ?] ?]. by simplify_eq. }
  simplify_eq. exists sp, content, w1.
  (* the storage file *)
  unfold OpenFile_excl in Hopen.
  destruct (String.eqb sp "") eqn:Esp; [done|]. apply String.eqb_neq in Esp.
  destruct (fs w1 !! locate w1 sp) eqn:Hfree; [done|].
  destruct (parent_check (fs w1) (locate w1 sp)) eqn:Hsparent; [done|].
  simplify_eq.
  unfold Write in Hwrite. cbn in Hwrite. rewrite lookup_insert_eq in Hwrite.
  destruct (String.length content <=? space w1)%nat; [|done].
  simplify_eq. rewrite insert_insert_eq in Hremove.
  change ("" +:+ content) with content in Hremove.
  (* the original goes *)
  unfold Remove in Hremove.
  destruct (String.eqb abs "") eqn:Eabs; [done|]. apply String.eqb_neq in Eabs.
  cbn [fs with_fs_space with_fs] in Hremove.
  change (locate (with_fs_space _ _ _) abs) with (locate w1 abs) in Hremove.
  set (ka := locate w1 abs) in *. set (ks := locate w1 sp) in *.
  assert (Hka : is_Some (fs w1 !! ka)).
  { unfold ReadFile in Hread. rewrite (proj2 (String.eqb_neq abs "") Eabs) in Hread.
    fold ka in Hread. unfold MAXSYMLINKS in Hread. cbn [follow] in Hread.
    destruct (fs w1 !! ka); [by eexists | done]. }
  assert (Hne : ka <> ks).
  { intros Heq. rewrite Heq, Hfree in Hka. by destruct Hka. }
  rewrite lookup_insert_ne in Hremove by done.
  destruct Hka as [n Hn]. rewrite Hn in Hremove.
  destruct (parent_check (<[ks:=File content]> (fs w1)) ka) eqn:Hparent; [done|].
  assert (Hparent1 : parent_check (fs w1) ka = None).
  { unfold parent_check in *.
    destruct (decide (Filepath.Dir ka = ks)) as [Heq|Hd].
    - by rewrite Heq, lookup_insert_eq in Hparent.
    - by rewrite lookup_insert_ne in Hparent. }
  assert (Hw5 : cwd w5 = cwd w1 /\ home w5 = home w1
                /\ fs w5 = delete ka (<[ks:=File content]> (fs w1))).
  { destruct n; [| |destruct (has_entries _ _)]; by simplify_eq. }
  destruct Hw5 as (Hc5 & Hh5 & Hf5).
  (* the link *)
  assert (HabsSp : absSp = ks).
  { unfold Abs, Getwd in Habs. unfold ks, locate.
    destruct (Filepath.IsAbs sp); [by simplify_eq|].
    rewrite Hc5 in Habs. destruct (fs w5 !! cwd w1) as [[| |]|]; by simplify_eq. }
  subst absSp.
  unfold Symlink_ in Hlink. rewrite (proj2 (String.eqb_neq abs "") Eabs) in Hlink.
  assert (Hloc5 : locate w5 abs = ka) by (unfold ka, locate; by rewrite Hc5).
  rewrite Hloc5, Hf5, lookup_delete_eq in Hlink.
  destruct (parent_check (delete ka _) ka); [done|]. injection Hlink as <-.
  split; [done|]. split; [done|]. split; [done|]. split; [done|].
  split; [done|]. split; [done|]. split; [done|]. split; [done|]. split; [by eexists|].
  split; [done|]. split; [done|]. split; [done|].
  cbn. by rewrite insert_delete_eq.
Qed.

(** Reading a file through links finds the same file in a tree that has
    only lost directories. *)
Lemma follow_stop (fuel : nat) (m : gmap string Node) (key : string) (n : Node) :
  m !! key = Some n -> (forall target, n <> Symlink target) ->
  follow fuel m key = inr (key, Some n).
Proof.
  intros H Hn. destruct fuel; cbn [follow]; rewrite H; destruct n; try done;
    by destruct (Hn target).
Qed.

Lemma follow_file_back (m m' : gmap string Node) (fuel : nat) (key k : string)
    (content : string) :
  (forall key n, m' !! key = Some n -> m !! key = Some n \/ n = Directory true true) ->
  follow fuel m' key = inr (k, Some (File content)) ->
  follow fuel m key = inr (k, Some (File content)).
Proof.
  intros Hback. revert key. induction fuel as [|fuel IH]; intros key; cbn [follow].
  - destruct (m' !! key) as [n|] eqn:E; [|done].
    destruct n; try done; intros [= <- <-];
      by destruct (Hback _ _ E) as [-> | ?].
  - destruct (m' !! key) as [n|] eqn:E; [|done].
    destruct n as [c|t|r wr]; try done.
    + intros [= <- <-]. by destruct (Hback _ _ E) as [-> | ?].
    + destruct (Hback _ _ E) as [-> | ?]; [apply IH | done].
Qed.

Lemma ReadFile_back (w w' : World) (name content : string) :
  grows_by_dirs w w' -> ReadFile name w' = Ok content -> ReadFile name w = Ok content.
Proof.
  intros ([Hc _] & _ & _ & Hback). unfold ReadFile.
  destruct (String.eqb name ""); [done|].
  assert (locate w' name = locate w name) as -> by (unfold locate; by rewrite Hc).
  destruct (follow MAXSYMLINKS (fs w') (locate w name)) as [e|[k [[c|t|r wr]|]]] eqn:E;
    try done.
  intros [= <-]. by rewrite (follow_file_back _ _ _ _ _ _ Hback E).
Qed.

(** The storage paths of a converter with a rooted storage root are rooted
    and cleaned. *)
Lemma GetStoragePath_clean (pc : PathConverter) (p storagePath : string) :
  Filepath.IsAbs (StorageRoot pc) = true ->
  GetStoragePath pc p = Ok storagePath ->
  Filepath.IsAbs storagePath = true /\ Filepath.Clean storagePath = storagePath.
Proof.
  intros Hroot. unfold GetStoragePath.
  destruct (ConvertToStorageName pc p) as [name|]; [|done]. intros [= <-].
  destruct (GetRepoStorageDir_clean pc Hroot) as [Habs _].
  apply IsAbs_cons in Habs as [d Hd]. rewrite Hd.
  cbn [Filepath.Join]. change (String.eqb (String "/" d) "") with false. cbv iota.
  split.
  - by rewrite Clean_IsAbs.
  - by apply Clean_idempotent_rooted.
Qed.

Lemma saveFile_content (opts : SaveOptions.t) (file : ClaudeFile.t)
    (w w' : World) (r : SaveResult.t) :
  Filepath.IsAbs (StorageRoot (SaveOptions.PathConverter opts)) = true ->
  saveFile opts file w = (r, w') ->
  SaveResult.Success r = true ->
  exists content,
    ReadFile (ClaudeFile.AbsolutePath file) w = Ok content
    /\ ReadFile (ClaudeFile.AbsolutePath file) w' = Ok content
    /\ Readlink (ClaudeFile.AbsolutePath file) w' = Ok (SaveResult.StoragePath r)
    /\ ReadFile (SaveResult.StoragePath r) w' = Ok content.
Proof.
  intros Hroot Hsave Hok.
  destruct (saveFile_success _ _ _ _ _ Hsave Hok)
    as (sp & content & w1 & Hpath & Hdir & Hread & -> & Habs & Hsp & Hfree & Hsparent & Hka
        & Hparent & Hc & Hh & Hfs).
  destruct (GetStoragePath_clean _ _ _ Hroot Hpath) as [Hspabs Hspclean].
  assert (Hks : forall v, cwd v = cwd w1 -> locate v sp = sp).
  { intros v _. unfold locate. by rewrite Hspabs. }
  assert (Hloc : locate w' (ClaudeFile.AbsolutePath file)
                 = locate w1 (ClaudeFile.AbsolutePath file))
    by (unfold locate; by rewrite Hc).
  assert (Hne : locate w1 (ClaudeFile.AbsolutePath file) <> sp).
  { intros Heq. rewrite Heq in Hka. rewrite (Hks w1 eq_refl) in Hfree.
    rewrite Hfree in Hka. by destruct Hka. }
  rewrite (Hks w1 eq_refl) in Hfs.
  exists content. cbn [SaveResult.StoragePath].
  assert (Hstored : ReadFile sp w' = Ok content).
  { unfold ReadFile. rewrite (proj2 (String.eqb_neq sp "") Hsp).
    rewrite (Hks w' Hc). unfold MAXSYMLINKS. cbn [follow].
    by rewrite Hfs, lookup_insert_ne, lookup_insert_eq. }
  split; [|split; [|split]].
  - eapply ReadFile_back; [|exact Hread].
    pose proof (EnsureStorageDir_grows (SaveOptions.PathConverter opts) w) as Hg.
    by rewrite Hdir in Hg.
  - unfold ReadFile in *.
    rewrite (proj2 (String.eqb_neq _ "") Habs).
    rewrite (proj2 (String.eqb_neq sp "") Hsp), (Hks w' Hc) in Hstored.
    rewrite Hloc. unfold MAXSYMLINKS in *. cbn [follow]. cbn [follow] in Hstored.
    rewrite Hfs at 1. rewrite lookup_insert_eq.
    unfold link_dest. rewrite Hspabs, Hspclean.
    rewrite Hfs, lookup_insert_ne, lookup_insert_eq by done. done.
  - unfold Readlink. rewrite (proj2 (String.eqb_neq _ "") Habs), Hloc, Hfs.
    by rewrite lookup_insert_eq.
  - done.
Qed.

(** A successful save keeps the content: what could be read at the path
    of the file before is what is read there afterwards, now through a link
    to the storage path of the record, where the content is. *)
Theorem save_preserves_content (opts : SaveOptions.t) (file : ClaudeFile.t)
    (w w' : World) (r : SaveResult.t) :
  Filepath.IsAbs (StorageRoot (SaveOptions.PathConverter opts)) = true ->
  saveFile opts file w = (r, w') ->
  SaveResult.Success r = true ->
  exists content,
    ReadFile (ClaudeFile.AbsolutePath file) w = Ok content
    /\ ReadFile (ClaudeFile.AbsolutePath file) w' = Ok content
    /\ Readlink (ClaudeFile.AbsolutePath file) w' = Ok (SaveResult.StoragePath r)
    /\ ReadFile (SaveResult.StoragePath r) w' = Ok content.
Proof. exact (saveFile_content opts file w w' r). Qed.

Lemma save_preserves_content_witness :
  exists content,
    ReadFile "/repo/src/CLAUDE.md" Sample.world_fresh = Ok content
    /\ ReadFile "/repo/src/CLAUDE.md"
         (saveFile Sample.save_opts Sample.src_file Sample.world_fresh).2 = Ok content.
Proof.
  destruct (save_preserves_content Sample.save_opts Sample.src_file Sample.world_fresh
              (saveFile Sample.save_opts Sample.src_file Sample.world_fresh).2
              (saveFile Sample.save_opts Sample.src_file Sample.world_fresh).1)
    as (content & H1 & H2 & _).
  - reflexivity.
  - apply surjective_pairing.
  - vm_compute. reflexivity.
  - exists content. split; [exact H1 | exact H2].
Defined.

(** When something has the storage path already, the file is skipped as
    "storage file exists" without an error, and neither the original nor what
    is stored is touched: apart from the directories ensured for the storage
    the world is as it was. *)
Theorem save_keeps_existing_storage (opts : SaveOptions.t) (file : ClaudeFile.t)
    (w w1 : World) (storagePath content : string) (info : FileInfo) :
  let rel := ClaudeFile.RepoRelativePath file in
  ValidatePath rel = None ->
  ClaudeFile.IsSymlink file = false ->
  GetStoragePath (SaveOptions.PathConverter opts) rel = Ok storagePath ->
  EnsureStorageDir (SaveOptions.PathConverter opts) w = (None, w1) ->
  ReadFile (ClaudeFile.AbsolutePath file) w1 = Ok content ->
  Lstat storagePath w1 = Ok info ->
  saveFile opts file w
  = (SaveResult.mk rel storagePath false true "storage file exists"
       ("Skipping " +:+ rel +:+ ": storage file already exists at " +:+ storagePath)
       None, w1)
  /\ grows_by_dirs w w1.
Proof.
  intros rel Hvalid Hlink Hpath Hdir Hread Hl. split.
  - unfold saveFile. fold rel. rewrite Hvalid, Hlink, Hpath, Hdir, Hread.
    unfold Lstat in Hl. unfold OpenFile_excl.
    destruct (String.eqb storagePath ""); [done|].
    by destruct (fs w1 !! locate w1 storagePath).
  - pose proof (EnsureStorageDir_grows (SaveOptions.PathConverter opts) w) as Hg.
    by rewrite Hdir in Hg.
Qed.

Lemma save_keeps_existing_storage_witness :
  SaveResult.SkipReason (saveFile Sample.save_opts Sample.src_file Sample.world_stored).1
  = "storage file exists"
  /\ (saveFile Sample.save_opts Sample.src_file Sample.world_stored).2 = Sample.world_stored.
Proof.
  edestruct (save_keeps_existing_storage Sample.save_opts Sample.src_file
               Sample.world_stored Sample.world_stored) as [H _];
    [vm_compute; reflexivity ..|].
  rewrite H. split; reflexivity.
Defined.

(** Saving and then clearing: the link that a successful save has put in
    place of the file is one that [ClearSymlinks] removes, and the content
    stays in the storage. *)
Theorem save_then_clear (opts : SaveOptions.t) (file : ClaudeFile.t)
    (w w1 : World) (r : SaveResult.t) (name : string) :
  let pc := SaveOptions.PathConverter opts in
  let rel := ClaudeFile.RepoRelativePath file in
  let abs := ClaudeFile.AbsolutePath file in
  Filepath.IsAbs (StorageRoot pc) = true ->
  GetRepoStorageDir pc <> "/" ->
  Filepath.IsAbs rel = false ->
  ConvertToStorageName pc rel = Ok name -> name <> "." -> name <> ".." ->
  saveFile opts file w = (r, w1) ->
  SaveResult.Success r = true ->
  exists w2 content,
    clearFile (GetRepoStorageDir pc) (ClaudeFile.mk abs rel true) w1
    = (ClearResult.mk rel true false "" None, w2)
    /\ Lstat abs w2 = Err (PathError "lstat" abs ENOENT)
    /\ ReadFile (SaveResult.StoragePath r) w2 = Ok content
    /\ ReadFile abs w = Ok content.
Proof.
  intros pc rel abs Hroot Hdirne Hrel Hname Hdot Hdots Hsave Hok.
  destruct (saveFile_content _ _ _ _ _ Hroot Hsave Hok)
    as (content & Hbefore & _ & Hlink & Hstored).
  fold abs in Hbefore, Hlink.
  destruct (saveFile_success _ _ _ _ _ Hsave Hok)
    as (sp & content' & w0 & Hpath & Hdir & Hread & -> & Habs & Hsp & Hfree & Hsparent & Hka
        & Hparent & Hc & Hh & Hfs).
  fold pc rel abs in Hpath, Hdir, Hread, Habs, Hfree, Hka, Hparent, Hfs.
  cbn [SaveResult.StoragePath] in *.
  destruct (storage_path_layout pc rel name Hroot Hdirne Hrel Hname Hdot Hdots)
    as [Hlayout Hprefix].
  fold pc in Hlayout. rewrite Hpath in Hlayout. injection Hlayout as Hlayout.
  destruct (GetStoragePath_clean _ _ _ Hroot Hpath) as [Hspabs Hspclean].
  assert (Hks : locate w0 sp = sp) by (unfold locate; by rewrite Hspabs).
  rewrite Hks in *.
  assert (Hcontent : content' = content).
  { pose proof (EnsureStorageDir_grows pc w) as Hg.
    rewrite Hdir in Hg. cbn [snd] in Hg.
    pose proof (ReadFile_back _ _ _ _ Hg Hread) as Hr.
    rewrite Hbefore in Hr. by injection Hr. }
  assert (Hloc : locate w1 abs = locate w0 abs) by (unfold locate; by rewrite Hc).
  set (ka := locate w0 abs) in *.
  assert (Hne : ka <> sp).
  { intros Heq. rewrite Heq, Hfree in Hka. by destruct Hka. }
  assert (Hnotdir : forall rd wr, fs w0 !! ka <> Some (Directory rd wr)).
  { intros rd wr Hd. unfold ReadFile in Hread.
    rewrite (proj2 (String.eqb_neq abs "") Habs) in Hread. fold ka in Hread.
    by rewrite (follow_stop _ _ _ _ Hd) in Hread. }
  assert (Hparent1 : parent_check (fs w1) ka = None).
  { unfold parent_check in *. rewrite Hfs.
    destruct (fs w0 !! Filepath.Dir ka) as [nd|] eqn:Hd; [|done].
    assert (Filepath.Dir ka <> ka).
    { intros Heq. rewrite Heq in Hd. destruct nd as [| |rd wr]; try done.
      by apply (Hnotdir rd wr). }
    assert (Filepath.Dir ka <> sp).
    { intros Heq. by rewrite Heq, Hfree in Hd. }
    by rewrite !lookup_insert_ne, Hd by done. }
  exists (with_fs w1 (delete ka (fs w1))), content.
  split; [|split; [|split]].
  - unfold clearFile. cbn [ClaudeFile.AbsolutePath ClaudeFile.RepoRelativePath].
    rewrite Hlink. unfold Abs. rewrite Hspabs, Hspclean.
    rewrite Hlayout at 1. rewrite Hprefix. cbn [negb].
    unfold Remove. rewrite (proj2 (String.eqb_neq abs "") Habs), Hloc.
    rewrite Hfs at 1. rewrite lookup_insert_eq, Hparent1. done.
  - unfold Lstat. rewrite (proj2 (String.eqb_neq abs "") Habs). cbn.
    change (locate (with_fs w1 _) abs) with (locate w1 abs).
    by rewrite Hloc, lookup_delete_eq.
  - unfold ReadFile. rewrite (proj2 (String.eqb_neq sp "") Hsp).
    change (locate (with_fs w1 (delete ka (fs w1))) sp) with (locate w1 sp).
    assert (locate w1 sp = sp) as -> by (unfold locate; by rewrite Hspabs).
    assert (Hat : fs (with_fs w1 (delete ka (fs w1))) !! sp = Some (File content)).
    { cbn [with_fs fs]. rewrite lookup_delete_ne by done.
      rewrite Hfs, lookup_insert_ne by done.
      by rewrite lookup_insert_eq, Hcontent. }
    rewrite (follow_stop MAXSYMLINKS _ sp (File content) Hat); [reflexivity|].
    intros target; discriminate.
  - done.
Qed.

Lemma save_then_clear_witness :
  exists w2 content,
    clearFile (GetRepoStorageDir Sample.pc)
      (ClaudeFile.mk "/repo/src/CLAUDE.md" "src/CLAUDE.md" true)
      (saveFile Sample.save_opts Sample.src_file Sample.world_fresh).2
    = (ClearResult.mk "src/CLAUDE.md" true false "" None, w2)
    /\ ReadFile "/repo/src/CLAUDE.md" Sample.world_fresh = Ok content.
Proof.
  destruct (save_then_clear Sample.save_opts Sample.src_file Sample.world_fresh
              (saveFile Sample.save_opts Sample.src_file Sample.world_fresh).2
              (saveFile Sample.save_opts Sample.src_file Sample.world_fresh).1
              "src~CLAUDE.md")
    as (w2 & content & H1 & _ & _ & H4).
  - reflexivity.
  - vm_compute. discriminate.
  - reflexivity.
  - reflexivity.
  - discriminate.
  - discriminate.
  - apply surjective_pairing.
  - vm_compute. reflexivity.
  - exists w2, content. split; [exact H1 | exact H4].
Defined.

End SaveMoreFacts.

(** ** [SaveFiles]: what a save that is skipped leaves behind *)

Module SaveFrameFacts.
Import GoStrings Filepath OS Storage Files Operations OSFacts Frames DirFacts SaveMoreFacts.

(** Removing a name that was not in [w] from a tree that has [w] gives a
    tree that has [w]. *)
Lemma Remove_fresh_extends (name : string) (w w1 w2 : World) (r : option error) :
  extends w w1 -> fs w !! locate w name = None ->
  Remove name w1 = (r, w2) -> extends w w2.
Proof.
  intros Hext Hfree. pose proof Hext as [Hc Hsub].
  unfold Remove. intros H.
  assert (Hloc : locate w1 name = locate w name) by by apply extends_locate.
  assert (Hdel : fs w ⊆ delete (locate w1 name) (fs w1)).
  { rewrite Hloc. rewrite <- (delete_id (fs w) (locate w name)) by done.
    by apply delete_mono. }
  repeat case_match; simplify_eq; try done; by split.
Qed.

Lemma OpenFile_excl_failure (name : string) (w w' : World) (err : error) :
  OpenFile_excl name w = (Err err, w') -> w' = w.
Proof. unfold OpenFile_excl. intros H. repeat case_match; by simplify_eq. Qed.

(** A save that is skipped before the original is removed takes nothing
    away: whenever the record of a file is not a success and its SkipReason
    is neither "absolute path failed" nor "symlink creation failed" (the
    two branches that have removed the original and write it back), every
    entry the tree had before the call is still there, unchanged (the call
    may have added directories of the storage). *)
Theorem save_skip_keeps_tree (opts : SaveOptions.t) (file : ClaudeFile.t)
    (w w' : World) (r : SaveResult.t) :
  saveFile opts file w = (r, w') ->
  SaveResult.Success r = false ->
  SaveResult.SkipReason r <> "absolute path failed" ->
  SaveResult.SkipReason r <> "symlink creation failed" ->
  extends w w'.
Proof.
  intros Hsave Hfail Hnotabs Hnotlink. unfold saveFile in Hsave.
  set (rel := ClaudeFile.RepoRelativePath file) in *.
  set (abs := ClaudeFile.AbsolutePath file) in *.
  destruct (ValidatePath rel); [simplify_eq; apply extends_refl|].
  destruct (ClaudeFile.IsSymlink file); [simplify_eq; apply extends_refl|].
  destruct (GetStoragePath _ rel) as [sp|] eqn:Hpath; [|simplify_eq; apply extends_refl].
  pose proof (proj1 (EnsureStorageDir_grows (SaveOptions.PathConverter opts) w))
    as Hext1.
  destruct (EnsureStorageDir _ w) as [[e|] w1]; [by simplify_eq|]. cbn [snd] in Hext1.
  cut (extends w1 w'); [by apply extends_trans|]. clear Hext1.
  destruct (ReadFile abs w1) as [content|] eqn:Hread; [|simplify_eq; apply extends_refl].
  destruct (OpenFile_excl sp w1) as [[h|e] w2] eqn:Hopen.
  2:{ apply OpenFile_excl_failure in Hopen as ->.
      destruct (IsExist e); simplify_eq; apply extends_refl. }
  (* the storage file has been created *)
  unfold OpenFile_excl in Hopen.
  destruct (String.eqb sp "") eqn:Esp; [done|].
  destruct (fs w1 !! locate w1 sp) eqn:Hfree; [done|].
  destruct (parent_check (fs w1) (locate w1 sp)) eqn:Hsparent; [done|].
  injection Hopen as <- <-.
  set (ks := locate w1 sp) in *.
  assert (Hext2 : extends w1 (with_fs w1 (<[ks:=File ""]> (fs w1))))
    by (split; [done | by apply insert_subseteq]).
  destruct (Write _ content _) as [[e|] w3] eqn:Hwrite.
  { assert (w3 = with_fs w1 (<[ks:=File ""]> (fs w1))) as ->.
    { unfold Write in Hwrite. repeat case_match; by simplify_eq. }
    cbn [Close] in Hsave.
    destruct (Remove sp _) as [e' w5] eqn:Hrm. injection Hsave as _ <-.
    by eapply Remove_fresh_extends. }
  unfold Write in Hwrite. cbn in Hwrite. rewrite lookup_insert_eq in Hwrite.
  destruct (String.length content <=? space w1)%nat; [|done].
  injection Hwrite as <-. rewrite insert_insert_eq in Hsave.
  change ("" +:+ content) with content in Hsave.
  cbn [Close] in Hsave.
  set (w3 := with_fs_space (with_fs w1 (<[ks:=File ""]> (fs w1)))
               (<[ks:=File content]> (fs w1)) (space w1 - String.length content)) in *.
  assert (Hext3 : extends w1 w3) by (split; [done | by apply insert_subseteq]).
  destruct (Remove abs w3) as [[e|] w5] eqn:Hremove.
  { apply Remove_failure in Hremove as ->.
    destruct (Remove sp w3) as [e' w6] eqn:Hrm. injection Hsave as _ <-.
    by eapply Remove_fresh_extends. }
  (* the original has been removed: the record is a success or one of the
     two that are set aside *)
  exfalso.
  destruct (Abs sp w5) as [absSp|e].
  - destruct (Symlink_ absSp abs w5) as [[e|] w6].
    + destruct (restore_original _ _ _ _ _ _) as [[error warning] w7].
      injection Hsave as <- _. by apply Hnotlink.
    + injection Hsave as <- _. done.
  - destruct (restore_original _ _ _ _ _ _) as [[error warning] w6].
    injection Hsave as <- _. by apply Hnotabs.
Qed.

Lemma save_skip_keeps_tree_witness :
  extends Sample.world
    (saveFile Sample.save_opts Sample.docs_file Sample.world).2.
Proof.
  apply (save_skip_keeps_tree Sample.save_opts Sample.docs_file Sample.world
           (saveFile Sample.save_opts Sample.docs_file Sample.world).2
           (saveFile Sample.save_opts Sample.docs_file Sample.world).1).
  - apply surjective_pairing.
  - vm_compute. reflexivity.
  - vm_compute. discriminate.
  - vm_compute. discriminate.
Defined.

End SaveFrameFacts.

(** ** [RestoreFiles] and [ClearSymlinks]: what they may touch *)

Module RestoreMoreFacts.
Import OS Storage Files Operations OSFacts Frames.

Lemma grows_by_links_refl (w : World) : grows_by_links w w.
Proof. repeat split; [done|]. by left. Qed.

Lemma grows_by_links_trans (w1 w2 w3 : World) :
  grows_by_links w1 w2 -> grows_by_links w2 w3 -> grows_by_links w1 w3.
Proof.
  intros (He1 & Hh1 & Hs1 & Hn1) (He2 & Hh2 & Hs2 & Hn2).
  split; [by eapply extends_trans|]. split; [congruence|]. split; [congruence|].
  intros key n H. destruct (Hn2 key n H) as [H' | H']; [by apply Hn1 | by right].
Qed.

Lemma Symlink_grows (oldname newname : string) (w w' : World) (r : option error) :
  Symlink_ oldname newname w = (r, w') -> grows_by_links w w'.
Proof.
  intros H. split; [by eapply Symlink_extends|]. revert H. unfold Symlink_.
  intros H. repeat case_match; simplify_eq; try (repeat split; by left).
  split; [done|]. split; [done|]. cbn. intros key n.
  destruct (decide (key = locate w newname)) as [->|Hne].
  - rewrite lookup_insert_eq. intros [= <-]. right. by eexists.
  - rewrite lookup_insert_ne by done. by left.
Qed.

Lemma restoreFile_grows (opts : RestoreOptions.t) (stored : StoredFile.t)
    (w w' : World) (r : RestoreResult.t) :
  restoreFile opts stored w = (r, w') -> grows_by_links w w'.
Proof.
  unfold restoreFile. intros H.
  repeat case_match; simplify_eq; try apply grows_by_links_refl;
    by eapply Symlink_grows.
Qed.

(** [RestoreFiles] only ever adds symbolic links: whatever was in the tree is
    still there, unchanged, and every new entry is a symbolic link. *)
Theorem RestoreFiles_only_adds_links (storedFiles : list StoredFile.t)
    (opts : RestoreOptions.t) (w : World) :
  grows_by_links w (RestoreFiles storedFiles opts w).2.
Proof.
  revert w. induction storedFiles as [|stored rest IH]; intros w; simpl.
  - apply grows_by_links_refl.
  - destruct (restoreFile opts stored w) as [r w1] eqn:E.
    specialize (IH w1). destruct (RestoreFiles rest opts w1) as [rs w2].
    eapply grows_by_links_trans; [by eapply restoreFile_grows | done].
Qed.

(** What a successful turn of [RestoreFiles] has done. *)
Lemma restoreFile_success (opts : RestoreOptions.t) (stored : StoredFile.t)
    (w w' : World) (r : RestoreResult.t) :
  restoreFile opts stored w = (r, w') ->
  RestoreResult.Success r = true ->
  let rel := StoredFile.RepoRelativePath stored in
  let sp := StoredFile.StoragePath stored in
  let targetPath := Filepath.Join [RestoreOptions.RepoRoot opts; rel] in
  exists absRepoRoot absTargetPath absStoragePath,
    Abs (RestoreOptions.RepoRoot opts) w = Ok absRepoRoot
    /\ Abs targetPath w = Ok absTargetPath
    /\ escapes (Filepath.Rel absRepoRoot absTargetPath) = false
    /\ missing (Stat (Filepath.Dir targetPath) w) = false
    /\ Abs sp w = Ok absStoragePath
    /\ Symlink_ absStoragePath targetPath w = (None, w')
    /\ r = RestoreResult.mk rel true false "" "" sp None.
Proof.
  unfold restoreFile. intros H Hok.
  repeat case_match; simplify_eq; try done.
  eexists _, _, _. repeat split; done.
Qed.

(** What a successful [Symlink_] has done. *)
Lemma Symlink_success (oldname newname : string) (w w' : World) :
  Symlink_ oldname newname w = (None, w') ->
  newname <> ""
  /\ fs w !! locate w newname = None
  /\ parent_check (fs w) (locate w newname) = None
  /\ w' = with_fs w (<[locate w newname := Symlink oldname]> (fs w)).
Proof.
  unfold Symlink_. destruct (String.eqb newname "") eqn:E; [done|].
  apply String.eqb_neq in E. intros H.
  repeat case_match; by simplify_eq.
Qed.

(** Restoring is idempotent: once a stored file has been restored, a later
    run, also after other entries have been added to the tree, finds the
    link "already correct" and changes nothing. *)
Theorem restore_idempotent (opts : RestoreOptions.t) (stored : StoredFile.t)
    (w w1 w2 : World) (r : RestoreResult.t) :
  restoreFile opts stored w = (r, w1) ->
  RestoreResult.Success r = true ->
  extends w1 w2 ->
  restoreFile opts stored w2
  = (RestoreResult.mk (StoredFile.RepoRelativePath stored) false true
       "already correct" "" (StoredFile.StoragePath stored) None, w2).
Proof.
  intros Hrestore Hok Hext.
  destruct (restoreFile_success _ _ _ _ _ Hrestore Hok)
    as (a & b & c & Ha & Hb & Hrel & Hparent & Hc & Hlink & _).
  pose proof (Symlink_extends _ _ _ _ _ Hlink) as Hext1.
  assert (Hext2 : extends w w2) by by eapply extends_trans.
  destruct (Symlink_success _ _ _ _ Hlink) as (Hne & _ & _ & ->).
  assert (Hnode : fs w2 !! locate w2 (Filepath.Join [RestoreOptions.RepoRoot opts;
                                        StoredFile.RepoRelativePath stored])
                  = Some (Symlink c)).
  { rewrite (extends_locate _ _ _ Hext2).
    eapply extends_lookup; [exact Hext|]. cbn. by rewrite lookup_insert_eq. }
  unfold restoreFile. cbv zeta.
  rewrite (Abs_extends _ _ _ _ Hext2 Ha), (Abs_extends _ _ _ _ Hext2 Hb), Hrel.
  rewrite (Stat_present_extends _ _ _ Hext2 Hparent).
  unfold Lstat, Readlink. rewrite (proj2 (String.eqb_neq _ "") Hne), Hnode.
  cbn [info_of mode_of IsSymlinkMode].
  rewrite (Abs_extends _ _ _ _ Hext2 Hc).
  by rewrite String.eqb_refl.
Qed.

Lemma restore_idempotent_witness :
  let w := (clearFile (GetRepoStorageDir Sample.pc) Sample.lib_link Sample.world_stored).2 in
  restoreFile Sample.restore_opts Sample.lib_stored
    (restoreFile Sample.restore_opts Sample.lib_stored w).2
  = (RestoreResult.mk "lib/CLAUDE.md" false true "already correct" ""
       (StoredFile.StoragePath Sample.lib_stored) None,
     (restoreFile Sample.restore_opts Sample.lib_stored w).2).
Proof.
  intros w.
  apply (restore_idempotent Sample.restore_opts Sample.lib_stored w
           (restoreFile Sample.restore_opts Sample.lib_stored w).2
           (restoreFile Sample.restore_opts Sample.lib_stored w).2
           (restoreFile Sample.restore_opts Sample.lib_stored w).1).
  - apply surjective_pairing.
  - vm_compute. reflexivity.
  - split; reflexivity.
Defined.

End RestoreMoreFacts.

Module ClearMoreFacts.
Import OS Storage Files Operations OSFacts Frames ClearFacts.

Lemma loses_links_refl (storageDir : string) (w : World) : loses_links storageDir w w.
Proof. repeat split; [done|]. by left. Qed.

Lemma loses_links_Getwd (storageDir : string) (w w' : World) :
  loses_links storageDir w w' -> Getwd w' = Getwd w.
Proof.
  intros (Hc & _ & _ & Hsub & Hkeep). unfold Getwd. rewrite Hc.
  destruct (fs w !! cwd w) as [n|] eqn:E.
  - destruct (Hkeep _ _ E) as [-> | (t & -> & _)]; [done|].
    destruct (fs w' !! cwd w) as [n'|] eqn:E'; [|done].
    by rewrite (lookup_weaken _ _ _ _ E' Hsub) in E; simplify_eq.
  - destruct (fs w' !! cwd w) as [n'|] eqn:E'; [|done].
    by rewrite (lookup_weaken _ _ _ _ E' Hsub) in E.
Qed.

Lemma loses_links_abs_or_self (storageDir target : string) (w w' : World) :
  loses_links storageDir w w' -> abs_or_self target w' = abs_or_self target w.
Proof.
  intros H. unfold abs_or_self, Abs. by rewrite (loses_links_Getwd _ _ _ H).
Qed.

Lemma loses_links_trans (storageDir : string) (w1 w2 w3 : World) :
  loses_links storageDir w1 w2 -> loses_links storageDir w2 w3 ->
  loses_links storageDir w1 w3.
Proof.
  intros H12 H23.
  pose proof (loses_links_abs_or_self storageDir) as Habs.
  destruct H12 as (Hc1 & Hh1 & Hs1 & Hsub1 & Hk1).
  destruct H23 as (Hc2 & Hh2 & Hs2 & Hsub2 & Hk2).
  split; [congruence|]. split; [congruence|]. split; [congruence|].
  split; [by etrans|].
  intros key n H. destruct (Hk1 key n H) as [H' | H']; [|by right].
  destruct (Hk2 key n H') as [H'' | (t & -> & Hp)]; [by left|].
  right. exists t. split; [done|].
  by rewrite <- (Habs t w1 w2).
Qed.

Lemma clearFile_loses (storageDir : string) (file : ClaudeFile.t) (w w' : World)
    (r : ClearResult.t) :
  clearFile storageDir file w = (r, w') -> loses_links storageDir w w'.
Proof.
  unfold clearFile.
  destruct (Readlink (ClaudeFile.AbsolutePath file) w) as [target|err] eqn:Hlink;
    [|intros [= _ <-]; apply loses_links_refl].
  apply Readlink_node in Hlink as [Hne Hnode].
  fold (abs_or_self target w).
  destruct (HasPrefix (abs_or_self target w) storageDir) eqn:Hp; cbn [negb];
    [|intros [= _ <-]; apply loses_links_refl].
  unfold Remove. rewrite (proj2 (String.eqb_neq _ "") Hne), Hnode.
  destruct (parent_check _ _); [intros [= _ <-]; apply loses_links_refl|].
  intros [= _ <-]. repeat split; cbn.
  - apply delete_subseteq.
  - intros key n H.
    destruct (decide (key = locate w (ClaudeFile.AbsolutePath file))) as [->|Hk].
    + right. exists target. split; [congruence | done].
    + left. by rewrite lookup_delete_ne.
Qed.

Lemma clearLoop_loses (storageDir : string) (files : list ClaudeFile.t) (w : World) :
  loses_links storageDir w (clearLoop storageDir files w).2.
Proof.
  revert w. induction files as [|file rest IH]; intros w; cbn [clearLoop].
  - apply loses_links_refl.
  - destruct (negb (ClaudeFile.IsSymlink file)); [apply IH|].
    destruct (clearFile storageDir file w) as [r w1] eqn:E.
    specialize (IH w1). destruct (clearLoop storageDir rest w1) as [rs w2].
    eapply loses_links_trans; [by eapply clearFile_loses | done].
Qed.

(** [ClearSymlinks] removes nothing but symbolic links whose target, made
    absolute, begins with the storage directory of the repository: every
    other entry of the tree, the working directory, the home directory and
    the free space are as they were, and nothing is added. *)
Theorem ClearSymlinks_only_removes_storage_links (opts : ClearOptions.t) (w : World) :
  loses_links (GetRepoStorageDir (ClearOptions.PathConverter opts)) w
              (ClearSymlinks opts w).2.
Proof.
  unfold ClearSymlinks.
  destruct (FindClaudeFiles (ClearOptions.RepoRoot opts) w) as [files [err|]].
  - apply loses_links_refl.
  - apply clearLoop_loses.
Qed.

End ClearMoreFacts.

(** ** [RestoreFiles]: where the links go *)

Module RestoreBoundsFacts.
Import OS Storage Files Operations OSFacts Frames RestoreFacts RestoreMoreFacts.

Lemma grows_by_links_Getwd (w w' : World) :
  grows_by_links w w' -> Getwd w' = Getwd w.
Proof.
  intros ([Hc Hsub] & _ & _ & Hnew). unfold Getwd. rewrite Hc.
  destruct (fs w !! cwd w) as [n|] eqn:E.
  - by rewrite (lookup_weaken _ _ _ _ E Hsub).
  - destruct (fs w' !! cwd w) as [n'|] eqn:E'; [|done].
    destruct (Hnew _ _ E') as [H | (t & ->)]; [congruence | done].
Qed.

Lemma grows_by_links_Abs (w w' : World) (path : string) :
  grows_by_links w w' -> Abs path w' = Abs path w.
Proof. intros H. unfold Abs. by rewrite (grows_by_links_Getwd _ _ H). Qed.

Lemma Abs_locate (path key : string) (w : World) :
  Abs path w = Ok key -> locate w path = key.
Proof.
  unfold Abs, locate, Getwd. destruct (Filepath.IsAbs path); [by intros [= <-]|].
  destruct (fs w !! cwd w) as [[| |rd wr]|]; try done. by intros [= <-].
Qed.

Lemma Symlink_failure (oldname newname : string) (w w' : World) (err : error) :
  Symlink_ oldname newname w = (Some err, w') -> w' = w.
Proof. unfold Symlink_. intros H. repeat case_match; by simplify_eq. Qed.

(** What a turn of [RestoreFiles] adds to the tree. *)
Lemma restoreFile_new_entry (opts : RestoreOptions.t) (stored : StoredFile.t)
    (w w' : World) (r : RestoreResult.t) (key : string) (n : Node) :
  restoreFile opts stored w = (r, w') ->
  fs w !! key = None -> fs w' !! key = Some n ->
  exists root target,
    Abs (RestoreOptions.RepoRoot opts) w = Ok root
    /\ Abs (Filepath.Join [RestoreOptions.RepoRoot opts;
                           StoredFile.RepoRelativePath stored]) w = Ok key
    /\ escapes (Filepath.Rel root key) = false
    /\ Abs (StoredFile.StoragePath stored) w = Ok target
    /\ n = Symlink target.
Proof.
  intros Hrestore Hold Hnew.
  destruct (RestoreResult.Success r) eqn:Hok.
  - destruct (restoreFile_success _ _ _ _ _ Hrestore Hok)
      as (a & b & c & Ha & Hb & Hrel & _ & Hc & Hlink & _).
    destruct (Symlink_success _ _ _ _ Hlink) as (_ & _ & _ & ->).
    cbn [with_fs fs] in Hnew. rewrite (Abs_locate _ _ _ Hb) in Hnew.
    destruct (decide (key = b)) as [->|Hne].
    + rewrite lookup_insert_eq in Hnew. injection Hnew as <-.
      by exists a, c.
    + rewrite lookup_insert_ne in Hnew by done. congruence.
  - assert (w' = w) as ->; [|congruence].
    revert Hrestore Hok. unfold restoreFile. intros H Hok.
    repeat case_match; simplify_eq; try done.
    by eapply Symlink_failure.
Qed.

(** In a tree without symbolic links to directories (before and after the
    call: there the paths of the model are the places the system resolves
    them to), [RestoreFiles] stays inside the repository: every entry it
    adds is a link for one of the stored files, at the absolute path of
    that file in the repository, which passed the check against the
    absolute repository root, and the link points to the absolute storage
    path of the file. *)
Theorem RestoreFiles_stays_inside (storedFiles : list StoredFile.t)
    (opts : RestoreOptions.t) (w : World) (key : string) (n : Node) :
  no_linked_dirs (RestoreFiles storedFiles opts w).2 = true ->
  fs w !! key = None ->
  fs (RestoreFiles storedFiles opts w).2 !! key = Some n ->
  exists stored root target,
    In stored storedFiles
    /\ Abs (RestoreOptions.RepoRoot opts) w = Ok root
    /\ Abs (Filepath.Join [RestoreOptions.RepoRoot opts;
                           StoredFile.RepoRelativePath stored]) w = Ok key
    /\ escapes (Filepath.Rel root key) = false
    /\ Abs (StoredFile.StoragePath stored) w = Ok target
    /\ n = Symlink target.
Proof.
  intros _. revert w. induction storedFiles as [|stored rest IH]; intros w Hold Hnew.
  - cbn in Hnew. congruence.
  - cbn [RestoreFiles] in Hnew.
    destruct (restoreFile opts stored w) as [r w1] eqn:E.
    pose proof (RestoreFiles_extends rest opts w1) as Hext.
    specialize (IH w1).
    destruct (RestoreFiles rest opts w1) as [rs w2]. cbn [snd] in *.
    destruct (fs w1 !! key) as [n1|] eqn:E1.
    + rewrite (extends_lookup _ _ _ _ Hext E1) in Hnew. injection Hnew as <-.
      destruct (restoreFile_new_entry _ _ _ _ _ _ _ E Hold E1)
        as (root & target & H).
      exists stored, root, target. split; [by left | done].
    + destruct (IH eq_refl Hnew) as (stored' & root & target & Hin & Ha & Hb & Hrel & Hc & ->).
      pose proof (restoreFile_grows _ _ _ _ _ E) as Hg.
      rewrite (grows_by_links_Abs _ _ _ Hg) in Ha.
      rewrite (grows_by_links_Abs _ _ _ Hg) in Hb.
      rewrite (grows_by_links_Abs _ _ _ Hg) in Hc.
      exists stored', root, target. split; [by right | done].
Qed.

Lemma RestoreFiles_stays_inside_witness :
  exists stored root target,
    In stored [Sample.lib_stored]
    /\ Abs "/repo" (clearFile (GetRepoStorageDir Sample.pc) Sample.lib_link
                      Sample.world_stored).2 = Ok root
    /\ escapes (Filepath.Rel root "/repo/lib/CLAUDE.md") = false
    /\ Symlink "/home/u/.claude/claude-md/u/repo.git/lib~CLAUDE.md" = Symlink target.
Proof.
  destruct (RestoreFiles_stays_inside [Sample.lib_stored] Sample.restore_opts
              (clearFile (GetRepoStorageDir Sample.pc) Sample.lib_link
                 Sample.world_stored).2
              "/repo/lib/CLAUDE.md"
              (Symlink "/home/u/.claude/claude-md/u/repo.git/lib~CLAUDE.md"))
    as (stored & root & target & H1 & H2 & _ & H4 & _ & H6).
  - vm_compute. reflexivity.
  - vm_compute. reflexivity.
  - vm_compute. reflexivity.
  - exists stored, root, target. repeat split; [exact H1 | exact H2 | exact H4 | exact H6].
Defined.

End RestoreBoundsFacts.

(** ** Clearing and restoring *)

Module RoundTripFacts.
Import GoStrings Filepath OS Storage Files Operations OSFacts Frames PathFacts ClearFacts
  SaveMoreFacts RestoreMoreFacts ClearMoreFacts StringFacts.

(** A joined path that is rooted is a cleaned path. *)
Lemma Join_rooted_clean (elem : list string) :
  IsAbs (Filepath.Join elem) = true -> Clean (Filepath.Join elem) = Filepath.Join elem.
Proof.
  induction elem as [|e rest IH]; [done|]. cbn [Filepath.Join].
  destruct (String.eqb e ""); [exact IH|].
  intros H. rewrite Clean_IsAbs in H. by apply Clean_idempotent_rooted.
Qed.

(** The directory of a rooted path is a rooted, cleaned path. *)
Lemma Dir_rooted (path : string) :
  IsAbs path = true -> IsAbs (Dir path) = true /\ Clean (Dir path) = Dir path.
Proof.
  intros H. apply IsAbs_cons in H as [p' ->].
  unfold Dir. change (Split (String "/" p') Separator) with ("" :: Split p' Separator).
  pose proof (Split_not_nil p' Separator) as Hne.
  destruct (Split p' Separator) as [|q qs]; [done|].
  change (rev ("" :: q :: qs)) with (rev (q :: qs) ++ [""])%list.
  destruct (rev (q :: qs)) as [|x xs] eqn:E.
  { apply (f_equal (@length _)) in E. rewrite length_rev in E. done. }
  change ((x :: xs) ++ [""])%list with (x :: (xs ++ [""]))%list. cbv iota.
  rewrite rev_unit.
  assert (Hz : IsAbs (GoStrings.Join ("" :: rev xs) "/" +:+ "/") = true).
  { destruct (rev xs) as [|y ys]; [done|]. by rewrite Join_cons2. }
  destruct (xs ++ [""])%list as [|y ys] eqn:Ex.
  { by destruct xs. }
  split.
  - by rewrite Clean_IsAbs.
  - by apply Clean_idempotent_rooted.
Qed.

(** What the answer "already correct" of [RestoreFiles] says. *)
Lemma restoreFile_already_correct (opts : RestoreOptions.t) (stored : StoredFile.t)
    (w : World) :
  RestoreResult.SkipReason (restoreFile opts stored w).1 = "already correct" ->
  let targetPath :=
    Filepath.Join [RestoreOptions.RepoRoot opts; StoredFile.RepoRelativePath stored] in
  exists absRepoRoot absTargetPath absStoragePath,
    Abs (RestoreOptions.RepoRoot opts) w = Ok absRepoRoot
    /\ Abs targetPath w = Ok absTargetPath
    /\ escapes (Filepath.Rel absRepoRoot absTargetPath) = false
    /\ missing (Stat (Filepath.Dir targetPath) w) = false
    /\ Readlink targetPath w = Ok absStoragePath
    /\ Abs (StoredFile.StoragePath stored) w = Ok absStoragePath.
Proof.
  unfold restoreFile. cbv zeta. intros H.
  repeat case_match; simplify_eq; cbn in H; try discriminate.
  eexists _, _, _. repeat split; try done.
  f_equal. symmetry. by apply String.eqb_eq.
Qed.

(** Clearing and restoring are inverse to each other: when the link of a
    stored file is in place ("already correct" is what [RestoreFiles] would
    say) and [ClearSymlinks] removes it, restoring the stored file succeeds
    and the file system is again what it was before the clearing. *)
Theorem clear_then_restore (opts : RestoreOptions.t) (stored : StoredFile.t)
    (storageDir : string) (file : ClaudeFile.t) (w w1 : World) (c : ClearResult.t) :
  let rel := StoredFile.RepoRelativePath stored in
  IsAbs (RestoreOptions.RepoRoot opts) = true ->
  ClaudeFile.AbsolutePath file = Filepath.Join [RestoreOptions.RepoRoot opts; rel] ->
  RestoreResult.SkipReason (restoreFile opts stored w).1 = "already correct" ->
  clearFile storageDir file w = (c, w1) ->
  ClearResult.Success c = true ->
  Lstat (ClaudeFile.AbsolutePath file) w1
  = Err (PathError "lstat" (ClaudeFile.AbsolutePath file) ENOENT)
  /\ restoreFile opts stored w1
     = (RestoreResult.mk rel true false "" "" (StoredFile.StoragePath stored) None, w).
Proof.
  intros rel Hroot Hfile Hcorrect Hclear Hok.
  destruct (restoreFile_already_correct _ _ _ Hcorrect)
    as (a & b & asp & Ha & Hb & Hrel & Hparent & Hlink & Hsp).
  fold rel in Hb, Hparent, Hlink.
  pose proof (clearFile_loses _ _ _ _ _ Hclear) as Hloses.
  unfold restoreFile. cbv zeta. fold rel.
  remember (Filepath.Join [RestoreOptions.RepoRoot opts; rel]) as tp eqn:Htp.
  assert (Htabs : IsAbs tp = true).
  { subst tp. cbn [Filepath.Join].
    destruct (String.eqb (RestoreOptions.RepoRoot opts) "") eqn:E.
    - apply String.eqb_eq in E. by rewrite E in Hroot.
    - rewrite Clean_IsAbs. apply IsAbs_cons in Hroot as [p' ->]. done. }
  assert (Htclean : Clean tp = tp) by (subst tp; by apply Join_rooted_clean).
  clear Htp.
  destruct (Dir_rooted tp Htabs) as [Hdabs Hdclean].
  assert (Hka : forall w0, locate w0 tp = tp) by (intros w0; unfold locate; by rewrite Htabs).
  assert (Hkp : forall w0, locate w0 (Dir tp) = Dir tp)
    by (intros w0; unfold locate; by rewrite Hdabs).
  apply Readlink_node in Hlink as [Hne Hnode]. rewrite Hka in Hnode.
  (* what the clearing has done *)
  unfold clearFile in Hclear. rewrite Hfile in Hclear.
  assert (Hread : Readlink tp w = Ok asp) by (apply Readlink_node; by rewrite Hka).
  rewrite Hread in Hclear.
  destruct (negb (HasPrefix _ storageDir)); [simplify_eq; done|].
  unfold Remove in Hclear. rewrite (proj2 (String.eqb_neq _ "") Hne), Hka, Hnode in Hclear.
  destruct (parent_check (fs w) tp) as [errno|] eqn:Hpc; [simplify_eq; done|].
  injection Hclear as _ <-.
  assert (Hdir : exists rd, fs w !! Dir tp = Some (Directory rd true)).
  { unfold parent_check in Hpc. destruct (fs w !! Dir tp) as [[| |rd [|]]|]; try done.
    by exists rd. }
  destruct Hdir as [rd Hdir].
  assert (Hdne : Dir tp <> tp) by (intros Heq; rewrite Heq in Hdir; congruence).
  split.
  { rewrite Hfile. unfold Lstat. rewrite (proj2 (String.eqb_neq _ "") Hne), Hka. cbn.
    by rewrite lookup_delete_eq. }
  (* the restoring *)
  assert (Habs_root : forall w0, Abs (RestoreOptions.RepoRoot opts) w0
                                 = Ok (Clean (RestoreOptions.RepoRoot opts)))
    by (intros w0; unfold Abs; by rewrite Hroot).
  assert (Habs_tp : forall w0, Abs tp w0 = Ok (Clean tp))
    by (intros w0; unfold Abs; by rewrite Htabs).
  rewrite Habs_root in Ha. injection Ha as <-.
  rewrite Habs_tp in Hb. injection Hb as <-.
  rewrite Habs_root, Habs_tp, Hrel.
  assert (Hde : String.eqb (Dir tp) "" = false).
  { apply String.eqb_neq. intros Hde. by rewrite Hde in Hdabs. }
  assert (Hstat : missing (Stat (Dir tp) (with_fs w (delete tp (fs w)))) = false).
  { unfold Stat. rewrite Hde, Hkp.
    rewrite (follow_stop _ _ _ (Directory rd true)); [done| |done].
    cbn. by rewrite lookup_delete_ne. }
  rewrite Hstat.
  unfold Lstat. rewrite (proj2 (String.eqb_neq _ "") Hne), Hka.
  cbn [with_fs fs]. rewrite lookup_delete_eq.
  assert (Abs (StoredFile.StoragePath stored) (with_fs w (delete tp (fs w))) = Ok asp) as ->.
  { rewrite <- Hsp. unfold Abs. by rewrite (loses_links_Getwd _ _ _ Hloses). }
  unfold Symlink_. rewrite (proj2 (String.eqb_neq _ "") Hne), Hka.
  cbn [with_fs fs]. rewrite lookup_delete_eq.
  unfold parent_check. rewrite lookup_delete_ne, Hdir by done.
  do 2 f_equal. destruct w as [m cw hm sp0]. unfold with_fs. cbn in *.
  f_equal. rewrite insert_delete_eq. by apply insert_id.
Qed.

Lemma clear_then_restore_witness :
  restoreFile Sample.restore_opts Sample.lib_stored
    (clearFile (GetRepoStorageDir Sample.pc) Sample.lib_link Sample.world_stored).2
  = (RestoreResult.mk "lib/CLAUDE.md" true false "" ""
       (StoredFile.StoragePath Sample.lib_stored) None, Sample.world_stored).
Proof.
  apply (clear_then_restore Sample.restore_opts Sample.lib_stored
           (GetRepoStorageDir Sample.pc) Sample.lib_link Sample.world_stored
           (clearFile (GetRepoStorageDir Sample.pc) Sample.lib_link Sample.world_stored).2
           (clearFile (GetRepoStorageDir Sample.pc) Sample.lib_link Sample.world_stored).1).
  - reflexivity.
  - reflexivity.
  - vm_compute. reflexivity.
  - apply surjective_pairing.
  - vm_compute. reflexivity.
Defined.

End RoundTripFacts.

(** ** Discovery: [FindStoredFiles] and [FindClaudeFiles] *)

Module FilesFacts.
Import GoStrings Filepath OS Storage Files Operations OSFacts StringFacts FilepathFacts.

(** A repository path made from a storage name has no ".." in it. *)
Lemma ConvertToRepoPath_no_dotdot (pc : PathConverter) (s : string) :
  no_dotdot (ConvertToRepoPath pc s).
Proof.
  unfold ConvertToRepoPath, no_dotdot.
  destruct (Contains s "~"); simpl.
  - destruct (existsb _ _) eqn:E; [done|].
    apply filepath_Join_no_dotdot, Forall_forall.
    intros part Hin. unfold no_dotdot.
    destruct (Contains part "..") eqn:Ep; [|done].
    assert (existsb (fun part => String.eqb part ".." || Contains part "..")
              (Split s "~") = true); [|congruence].
    apply existsb_exists. exists part. split.
    + by apply list_elem_of_In.
    + rewrite Ep. apply orb_true_r.
  - by destruct (Contains s "..") eqn:E.
Qed.

(** What the loop of [FindStoredFiles] keeps of the entries. *)
Lemma storedLoop_In (dir : string) (pc : PathConverter) (entries : list DirEntry)
    (f : StoredFile.t) :
  In f (storedLoop dir pc entries) <->
  exists name,
    In (mkDirEntry name false) entries
    /\ is_stored_name name = true
    /\ ConvertToRepoPath pc name <> ""
    /\ f = StoredFile.mk name (ConvertToRepoPath pc name) (dir +:+ "/" +:+ name).
Proof.
  induction entries as [|[name isdir] rest IH]; cbn [storedLoop EntryIsDir EntryName].
  - split; [done | by intros (? & [] & _)].
  - destruct isdir.
    { rewrite IH. split; intros (n & Hin & H); exists n; (split; [|done]).
      - by right.
      - by destruct Hin as [[=]|]. }
    rewrite <- negb_orb. fold (is_stored_name name).
    destruct (is_stored_name name) eqn:Hs; cbn [negb].
    2:{ rewrite IH. split; intros (n & Hin & H); exists n; (split; [|done]).
        - by right.
        - destruct Hin as [[= <-]|]; [|done]. destruct H as [H _]. congruence. }
    destruct (String.eqb (ConvertToRepoPath pc name) "") eqn:Hp.
    { apply String.eqb_eq in Hp. rewrite IH.
      split; intros (n & Hin & H); exists n; (split; [|done]).
      - by right.
      - destruct Hin as [[= <-]|]; [|done]. by destruct H as (_ & H & _). }
    apply String.eqb_neq in Hp. cbn [In]. rewrite IH. split.
    + intros [<- | (n & Hin & H)].
      * exists name. repeat split; [by left | done..].
      * exists n. split; [by right | done].
    + intros (n & [[= <-] | Hin] & H1 & H2 & ->); [by left|].
      right. by exists n.
Qed.

(** A storage directory that is not there is an empty storage: the answer
    of [FindStoredFiles] is the empty list and no error. *)
Theorem FindStoredFiles_missing_dir (repoStorageDir : string) (pc : PathConverter)
    (w : World) :
  missing (Stat repoStorageDir w) = true ->
  FindStoredFiles repoStorageDir pc w = Ok [].
Proof.
  unfold FindStoredFiles, ReadDir, Stat.
  destruct (String.eqb repoStorageDir ""); [done|].
  destruct (follow MAXSYMLINKS (fs w) (locate w repoStorageDir))
    as [errno | [key [n|]]]; [|done..].
  destruct errno; done.
Qed.

Lemma FindStoredFiles_missing_dir_witness :
  FindStoredFiles (GetRepoStorageDir Sample.pc) Sample.pc Sample.world_fresh = Ok [].
Proof. apply FindStoredFiles_missing_dir. vm_compute. reflexivity. Defined.

(** The stored files of [FindStoredFiles] are the entries of the storage
    directory that are not directories, are named CLAUDE.md or ...~CLAUDE.md
    in any case, and whose name converts to a repository path; each one
    carries that path, which is not empty and has no ".." in it, and the
    directory joined to the name with a separator. *)
Theorem FindStoredFiles_entries (repoStorageDir : string) (pc : PathConverter)
    (w : World) (entries : list DirEntry) :
  ReadDir repoStorageDir w = Ok entries ->
  exists files,
    FindStoredFiles repoStorageDir pc w = Ok files
    /\ (forall f, In f files <->
          exists name,
            In (mkDirEntry name false) entries
            /\ is_stored_name name = true
            /\ ConvertToRepoPath pc name <> ""
            /\ f = StoredFile.mk name (ConvertToRepoPath pc name)
                     (repoStorageDir +:+ "/" +:+ name))
    /\ Forall (fun f => StoredFile.RepoRelativePath f <> ""
                        /\ no_dotdot (StoredFile.RepoRelativePath f)) files.
Proof.
  intros H. unfold FindStoredFiles. rewrite H. eexists. split; [done|]. split.
  - intros f. apply storedLoop_In.
  - apply Forall_forall. intros f Hf. apply list_elem_of_In, storedLoop_In in Hf.
    destruct Hf as (name & _ & _ & Hne & ->). cbn. split; [done|].
    apply ConvertToRepoPath_no_dotdot.
Qed.

Lemma FindStoredFiles_entries_witness :
  exists files,
    FindStoredFiles (GetRepoStorageDir Sample.pc) Sample.pc Sample.world_stored = Ok files
    /\ Forall (fun f => StoredFile.RepoRelativePath f <> ""
                        /\ no_dotdot (StoredFile.RepoRelativePath f)) files.
Proof.
  destruct (FindStoredFiles_entries (GetRepoStorageDir Sample.pc) Sample.pc
              Sample.world_stored
              (dir_entries (fs Sample.world_stored) (GetRepoStorageDir Sample.pc)))
    as (files & H1 & _ & H3).
  - vm_compute. reflexivity.
  - exists files. split; [exact H1 | exact H3].
Defined.

(** *** The walk of [FindClaudeFiles] *)

Section WalkInvariant.
Context {S : Type} (I : S -> Prop) (w : World) (walkFn : WalkFunc S).
Hypothesis walkFn_keeps :
  forall path info err acc,
    (forall i, info = Some i -> Lstat path w = Ok i) ->
    I acc -> I (walkFn path info err acc).1.

Lemma walk_names_keeps (descend : string -> FileInfo -> S -> S * option error)
    (path : string) (names : list string) (acc : S) :
  (forall p i a, Lstat p w = Ok i -> I a -> I (descend p i a).1) ->
  I acc -> I (walk_names descend w walkFn path names acc).1.
Proof.
  intros Hd. revert acc. induction names as [|name rest IH]; intros acc Hacc; [done|].
  cbn [walk_names].
  destruct (Lstat (Filepath.Join [path; name]) w) as [info|err] eqn:El.
  - pose proof (Hd _ _ _ El Hacc) as H.
    destruct (descend _ info acc) as [acc' [err'|]]; cbn in H; [|by apply IH].
    destruct (negb (IsDir info) || negb (bool_decide (err' = SkipDir))); [done|].
    by apply IH.
  - assert (H : I (walkFn (Filepath.Join [path; name]) None (Some err) acc).1)
      by (apply walkFn_keeps; done).
    destruct (walkFn _ None (Some err) acc) as [acc' [err'|]]; cbn in H; [|by apply IH].
    destruct (bool_decide (err' = SkipDir)); [by apply IH | done].
Qed.

Lemma walk_keeps (depth : nat) (path : string) (info : FileInfo) (acc : S) :
  Lstat path w = Ok info -> I acc -> I (walk depth w walkFn path info acc).1.
Proof.
  revert path info acc. induction depth as [|depth IH]; intros path info acc Hl Hacc.
  - cbn [walk]. destruct (negb (IsDir info)).
    + apply walkFn_keeps; [by intros i [= <-] | done].
    + assert (H : I (walkFn path (Some info)
                       (err_of (Err (PathError "open" path ENAMETOOLONG) : result (list string)))
                       acc).1)
        by (apply walkFn_keeps; [by intros i [= <-] | done]).
      by destruct (walkFn path (Some info) _ acc) as [acc1 [err1|]].
  - cbn [walk]. destruct (negb (IsDir info)).
    + apply walkFn_keeps; [by intros i [= <-] | done].
    + assert (H : I (walkFn path (Some info) (err_of (readDirNames path w)) acc).1)
        by (apply walkFn_keeps; [by intros i [= <-] | done]).
      destruct (walkFn path (Some info) _ acc) as [acc1 [err1|]]; [done|].
      destruct (readDirNames path w) as [names|err]; [|done].
      apply walk_names_keeps; [|done]. intros p i a. apply IH.
Qed.

Lemma Walk_keeps (root : string) (acc : S) :
  I acc -> I (Walk root walkFn w acc).1.
Proof.
  intros Hacc. unfold Walk.
  destruct (Lstat root w) as [info|err] eqn:El.
  - pose proof (walk_keeps PATH_MAX root info acc El Hacc) as H.
    destruct (walk PATH_MAX w walkFn root info acc) as [acc' [e|]]; [|done].
    by destruct (bool_decide (e = SkipDir)).
  - assert (H : I (walkFn root None (Some err) acc).1) by (apply walkFn_keeps; done).
    destruct (walkFn root None (Some err) acc) as [acc' [e|]]; [|done].
    by destruct (bool_decide (e = SkipDir)).
Qed.

End WalkInvariant.

(** Every file [FindClaudeFiles] returns, also beside an error, is an entry
    of the tree that is not a directory and is called CLAUDE.md in some
    case; its relative path is the one [filepath.Rel] gives from the
    repository root, and it is flagged as a symbolic link exactly when the
    entry is one. *)
Theorem FindClaudeFiles_entries (repoRoot : string) (w : World) :
  Forall (fun f =>
            EqualFold (Filepath.Base (ClaudeFile.AbsolutePath f)) "CLAUDE.md" = true
            /\ Filepath.Rel repoRoot (ClaudeFile.AbsolutePath f)
               = Ok (ClaudeFile.RepoRelativePath f)
            /\ exists info,
                 Lstat (ClaudeFile.AbsolutePath f) w = Ok info
                 /\ IsDir info = false
                 /\ ClaudeFile.IsSymlink f = IsSymlinkMode info)
         (FindClaudeFiles repoRoot w).1.
Proof.
  unfold FindClaudeFiles. apply Walk_keeps; [|constructor].
  intros path info err acc Hinfo Hacc. unfold findWalkFn.
  destruct err as [err|]; [done|].
  destruct info as [info|]; [|done].
  destruct (IsDir info && String.eqb (Name info) ".git"); [done|].
  destruct (negb (IsDir info)) eqn:Hd; [|done]. cbn [andb].
  destruct (EqualFold (Base path) "CLAUDE.md") eqn:Hname; [|done].
  destruct (Rel repoRoot path) as [relPath|err] eqn:Hrel; [|done].
  unfold IsSymlink. rewrite (Hinfo info eq_refl). cbn.
  apply Forall_app. split; [done|]. constructor; [|constructor]. cbn.
  split; [done|]. split; [done|]. exists info.
  split; [by apply Hinfo|]. split; [by destruct (IsDir info) | done].
Qed.

End FilesFacts.

(** ** From [SaveFiles] to [FindStoredFiles] *)

Module FoundAgainFacts.
Import GoStrings Filepath OS Storage Files Operations OSFacts StringFacts FilepathFacts
  StorageFacts CharFacts PathFacts StorageMoreFacts Frames DirFacts SaveMoreFacts FilesFacts.
#[local] Arguments String.append !_ _ / : simpl nomatch.

(** *** Suffixes and lower-casing *)

Lemma substring_skip (pre s : string) (n : nat) :
  substring (String.length pre) n (pre +:+ s) = substring 0 n s.
Proof. induction pre as [|a pre IH]; [done|]. exact IH. Qed.

Lemma substring_all (s : string) : substring 0 (String.length s) s = s.
Proof. induction s as [|a s IH]; [done|]. simpl. by rewrite IH. Qed.

Lemma HasSuffix_append (pre suffix : string) : HasSuffix (pre +:+ suffix) suffix = true.
Proof.
  unfold HasSuffix. rewrite length_append.
  replace (String.length pre + String.length suffix - String.length suffix)%nat
    with (String.length pre) by lia.
  rewrite substring_skip, substring_all, String.eqb_refl.
  apply andb_true_iff. split; [|done]. apply Nat.leb_le. lia.
Qed.

Lemma ToLowerASCII_append (a b : string) :
  ToLowerASCII (a +:+ b) = ToLowerASCII a +:+ ToLowerASCII b.
Proof. induction a as [|c a IH]; [done|]. simpl. by rewrite IH. Qed.

(** The storage name of a path whose last element is CLAUDE.md in some
    case looks like a stored CLAUDE.md. *)
Lemma is_stored_name_Join (parts : list string) :
  parts <> [] ->
  EqualFold (List.last parts "") "CLAUDE.md" = true ->
  is_stored_name (GoStrings.Join parts "~") = true.
Proof.
  intros Hne Hlast. unfold is_stored_name.
  destruct (exists_last Hne) as (front & e & ->).
  rewrite last_last in Hlast.
  destruct front as [|f front].
  - cbn [app GoStrings.Join]. by rewrite Hlast.
  - rewrite Join_snoc by done. apply orb_true_iff. right.
    rewrite <- append_assoc, ToLowerASCII_append.
    unfold EqualFold in Hlast. apply eqb_true in Hlast. rewrite Hlast.
    rewrite ToLowerASCII_append.
    change (ToLowerASCII "~") with "~". change (ToLowerASCII "CLAUDE.md") with "claude.md".
    rewrite append_assoc. apply HasSuffix_append.
Qed.

(** *** Paths without a trailing separator *)

Lemma Split_nil_string (s : string) (sep : ascii) : Split s sep = [""] -> s = "".
Proof.
  intros H. pose proof (Join_Split s sep) as Hj. by rewrite H in Hj.
Qed.

Lemma strip_trailing_id (p : string) :
  List.last (Split p Separator) "" <> "" -> strip_trailing p = p.
Proof.
  induction p as [|c p IH]; [done|]. cbn [Split strip_trailing].
  pose proof (Split_not_nil p Separator) as Hne.
  destruct (Ascii.eqb c Separator) eqn:Ec.
  - destruct (Split p Separator) as [|q qs] eqn:Es; [done|].
    rewrite last_cons. intros H. rewrite (IH H).
    destruct p; [|done]. cbn in Es. by simplify_eq.
  - destruct (Split p Separator) as [|q qs] eqn:Es; [done|].
    destruct qs as [|q' qs].
    + intros _. destruct (decide (q = "")) as [->|Hq].
      * apply Split_nil_string in Es as ->. done.
      * rewrite IH by done. destruct p; [|done]. cbn in Es. by simplify_eq.
    + rewrite last_cons. intros H. rewrite (IH H).
      destruct p; [|done]. cbn in Es. by simplify_eq.
Qed.

Lemma Base_last (p : string) :
  List.last (Split p Separator) "" <> "" -> Base p = List.last (Split p Separator) "".
Proof.
  intros H. unfold Base.
  destruct (String.eqb p "") eqn:Ep.
  { apply eqb_true in Ep as ->. by destruct H. }
  cbv zeta. rewrite (strip_trailing_id p H).
  by rewrite (proj2 (String.eqb_neq _ "") H).
Qed.

(** The elements [Clean] keeps are not empty. *)
Lemma clean_elems_nonempty (rooted : bool) (elems out : list string) :
  Forall (fun e => e <> "" /\ Contains e "/" = false) out ->
  Forall (fun e => Contains e "/" = false) elems ->
  Forall (fun e => e <> "" /\ Contains e "/" = false) (clean_elems rooted out elems).
Proof.
  revert out. induction elems as [|e rest IH]; intros out Hout H; cbn [clean_elems].
  - by apply Forall_rev.
  - apply Forall_cons in H as [He Hrest].
    destruct (String.eqb e "" || String.eqb e ".") eqn:E1; [by apply IH|].
    apply orb_false_iff in E1 as [E1 _]. apply eqb_false in E1.
    destruct (String.eqb e "..") eqn:E2.
    + destruct out as [|top out'].
      * destruct rooted; apply IH; try done.
        constructor; [by split | constructor].
      * destruct (String.eqb top "..").
        -- apply IH; [|done]. constructor; [by split | done].
        -- apply IH; [|done]. by apply Forall_cons in Hout as [_ Hout'].
    + apply IH; [|done]. by constructor.
Qed.

(** A cleaned relative path does not end with a separator. *)
Lemma cleaned_last (p : string) :
  IsAbs p = false -> Clean p = p -> List.last (Split p Separator) "" <> "".
Proof.
  intros Hrel Hclean. rewrite <- Hclean. unfold Clean. rewrite Hrel.
  set (elems := clean_elems false [] (Split p Separator)).
  assert (Helems : Forall (fun e => e <> "" /\ Contains e "/" = false) elems).
  { apply clean_elems_nonempty; [constructor | exact (Split_parts_no_sep p Separator)]. }
  destruct (String.eqb (GoStrings.Join elems "/") "") eqn:E; [done|].
  apply eqb_false in E.
  assert (Hne : elems <> []) by (intros Heq; by rewrite Heq in E).
  change "/" with (String Separator "") at 1.
  rewrite Split_Join; [|done|].
  - by apply (last_Forall (fun e => e <> "" /\ Contains e "/" = false) elems "" Hne Helems).
  - eapply Forall_impl; [exact Helems|]. by intros e [_ ?].
Qed.

(** *** The storage name of a CLAUDE.md and the way back *)

Lemma stored_name_of_claude (pc : PathConverter) (rel name : string) :
  IsAbs rel = false -> Clean rel = rel ->
  EqualFold (Base rel) "CLAUDE.md" = true ->
  ConvertToStorageName pc rel = Ok name ->
  is_stored_name name = true.
Proof.
  intros Hrel Hclean Hfold. unfold ConvertToStorageName.
  destruct (ValidatePath rel); [done|]. rewrite Hclean.
  destruct (String.eqb rel "CLAUDE.md" || String.eqb rel (Base rel)); intros [= <-].
  - unfold is_stored_name. by rewrite Hfold.
  - pose proof (cleaned_last rel Hrel Hclean) as Hlast.
    apply is_stored_name_Join; [apply Split_not_nil|].
    by rewrite <- (Base_last rel Hlast).
Qed.

Lemma ConvertToStorageName_back (pc : PathConverter) (rel name : string) :
  IsAbs rel = false -> Clean rel = rel -> Contains rel ".." = false ->
  ConvertToStorageName pc rel = Ok name ->
  ConvertToRepoPath pc name = rel.
Proof.
  intros Hrel Hclean Hdots. unfold ConvertToStorageName, ValidatePath.
  destruct (Contains rel "~") eqn:Htilde; [done|]. rewrite Hclean.
  destruct (String.eqb rel "CLAUDE.md" || String.eqb rel (Base rel)) eqn:Eroot;
    intros [= <-].
  - assert (Hbase : Base rel = rel).
    { apply orb_true_iff in Eroot as [E|E]; apply eqb_true in E; [by subst rel | done]. }
    rewrite Hbase. by apply ConvertToRepoPath_plain.
  - pose proof (Split_Contains_false rel "~" Separator Htilde) as Hparts_tilde.
    pose proof (Split_Contains_false rel ".." Separator Hdots) as Hparts_dots.
    pose proof (Join_Split_clean rel Hrel Hclean) as Hjoin.
    pose proof (Join_Split rel Separator) as Hback.
    destruct (Split rel Separator) as [|e [|e' rest]] eqn:Hsplit.
    + by destruct (Split_not_nil rel Separator).
    + simpl in Hback. subst e. simpl. by apply ConvertToRepoPath_plain.
    + unfold ConvertToRepoPath.
      rewrite Join_Contains_sep. simpl negb. cbv iota.
      rewrite (Split_Join (e :: e' :: rest) "~") by done.
      destruct (existsb _ _) eqn:Ex; [|done].
      apply existsb_exists in Ex as (part & Hin & Hpart).
      apply list_elem_of_In in Hin.
      rewrite Forall_forall in Hparts_dots.
      specialize (Hparts_dots part Hin).
      apply orb_true_iff in Hpart as [E|E]; [|congruence].
      apply eqb_true in E. subst part. discriminate Hparts_dots.
Qed.

(** *** An entry in a directory *)

Lemma Clean_trailing (p : string) : p <> "" -> Clean (p +:+ "/") = Clean p.
Proof.
  intros Hne. unfold Clean.
  assert (IsAbs (p +:+ "/") = IsAbs p) as -> by (by destruct p).
  change (p +:+ "/") with (p +:+ String Separator "").
  rewrite Split_append. cbn [Split]. rewrite clean_elems_app.
  cbn [clean_elems String.eqb orb]. by rewrite rev_involutive.
Qed.

Lemma Split_child (dir name : string) :
  Contains name "/" = false ->
  Split (dir +:+ "/" +:+ name) Separator = (Split dir Separator ++ [name])%list.
Proof.
  intros Hname. change ("/" +:+ name) with (String Separator name).
  by rewrite Split_append, (Split_no_sep name Separator Hname).
Qed.

Lemma Dir_child (dir name : string) :
  IsAbs dir = true -> Clean dir = dir -> Contains name "/" = false ->
  Dir (dir +:+ "/" +:+ name) = dir.
Proof.
  intros Habs Hclean Hname. unfold Dir. rewrite (Split_child _ _ Hname), rev_unit.
  pose proof (Split_not_nil dir Separator) as Hne.
  destruct (rev (Split dir Separator)) as [|x xs] eqn:E.
  { apply (f_equal (@rev _)) in E. rewrite rev_involutive in E. done. }
  rewrite <- E, rev_involutive.
  change "/" with (String Separator "") at 1. rewrite Join_Split.
  rewrite Clean_trailing; [done|]. intros ->. done.
Qed.

Lemma Base_child (dir name : string) :
  name <> "" -> Contains name "/" = false -> Base (dir +:+ "/" +:+ name) = name.
Proof.
  intros Hne Hname.
  assert (Hlast : List.last (Split (dir +:+ "/" +:+ name) Separator) "" = name)
    by (by rewrite (Split_child _ _ Hname), last_last).
  rewrite Base_last; [done|]. by rewrite Hlast.
Qed.

Lemma dir_entries_In (m : gmap string Node) (key k : string) (n : Node) :
  m !! k = Some n -> k <> key -> Dir k = key ->
  In (mkDirEntry (Base k) (bool_decide (mode_of n = ModeDir))) (dir_entries m key).
Proof.
  intros Hk Hne Hdir. unfold dir_entries. apply list_elem_of_In.
  rewrite merge_sort_Permutation. apply list_elem_of_omap.
  exists (k, n). split; [by apply elem_of_map_to_list|]. cbn.
  rewrite bool_decide_true by done. by rewrite Hdir, String.eqb_refl.
Qed.

(** What [SaveFiles] has stored, [FindStoredFiles] finds: after a
    successful save of a cleaned relative path without ".." whose last
    element is CLAUDE.md in some case, every listing of the storage
    directory holds the stored file, under its storage name, with the
    relative path it was saved from and the storage path of the record. *)
Theorem saved_file_is_found (opts : SaveOptions.t) (file : ClaudeFile.t)
    (w w' : World) (r : SaveResult.t) (files : list StoredFile.t) :
  let pc := SaveOptions.PathConverter opts in
  let rel := ClaudeFile.RepoRelativePath file in
  IsAbs (StorageRoot pc) = true ->
  GetRepoStorageDir pc <> "/" ->
  IsAbs rel = false -> Clean rel = rel -> Contains rel ".." = false ->
  EqualFold (Base rel) "CLAUDE.md" = true ->
  saveFile opts file w = (r, w') ->
  SaveResult.Success r = true ->
  FindStoredFiles (GetRepoStorageDir pc) pc w' = Ok files ->
  exists name,
    ConvertToStorageName pc rel = Ok name
    /\ In (StoredFile.mk name rel (SaveResult.StoragePath r)) files.
Proof.
  intros pc rel Hroot Hdirne Hrel Hclean Hdots Hfold Hsave Hok Hfind.
  destruct (saveFile_success _ _ _ _ _ Hsave Hok)
    as (sp & content & w1 & Hpath & Hdir & Hread & -> & Habs & Hsp & Hfree & Hsparent
        & Hka & Hparent & Hc & Hh & Hfs).
  fold pc rel in Hpath, Hdir.
  cbn [SaveResult.StoragePath].
  set (abs := ClaudeFile.AbsolutePath file) in *.
  destruct (ConvertToStorageName pc rel) as [name|err] eqn:Hname.
  2:{ unfold GetStoragePath in Hpath. by rewrite Hname in Hpath. }
  exists name. split; [done|].
  pose proof (stored_name_of_claude pc rel name Hrel Hclean Hfold Hname) as Hstored.
  pose proof (ConvertToStorageName_back pc rel name Hrel Hclean Hdots Hname) as Hbackp.
  assert (Hdot : name <> ".") by (intros ->; done).
  assert (Hdotdot : name <> "..") by (intros ->; done).
  destruct (storage_name_flat pc rel name Hrel Hname) as [Hflat Hnamene].
  destruct (storage_path_layout pc rel name Hroot Hdirne Hrel Hname Hdot Hdotdot)
    as [Hlayout _].
  destruct (GetStoragePath_clean _ _ _ Hroot Hpath) as [Hspabs Hspclean].
  rewrite Hpath in Hlayout. injection Hlayout as Hspdef.
  destruct (GetRepoStorageDir_clean pc Hroot) as [Hdabs Hdclean].
  remember (GetRepoStorageDir pc) as dir eqn:Hdirdef. clear Hdirdef.
  assert (Hks : forall w0, locate w0 sp = sp)
    by (intros w0; unfold locate; by rewrite Hspabs).
  assert (Hkd : forall w0, locate w0 dir = dir)
    by (intros w0; unfold locate; by rewrite Hdabs).
  rewrite !Hks in *.
  set (ka := locate w1 abs) in *.
  assert (Hspdir : Dir sp = dir) by (rewrite Hspdef; by apply Dir_child).
  assert (Hspbase : Base sp = name) by (rewrite Hspdef; by apply Base_child).
  (* the storage directory is a directory that lets entries in *)
  assert (Hd : exists rd, fs w1 !! dir = Some (Directory rd true)).
  { unfold parent_check in Hsparent. rewrite Hspdir in Hsparent.
    destruct (fs w1 !! dir) as [[| |rd [|]]|]; try done. by exists rd. }
  destruct Hd as [rd Hd].
  assert (Hne_sp : dir <> sp) by (intros Heq; rewrite Heq in Hd; congruence).
  assert (Hne_ka : dir <> ka).
  { intros Heq. unfold ReadFile in Hread.
    rewrite (proj2 (String.eqb_neq abs "") Habs) in Hread. fold ka in Hread.
    rewrite <- Heq in Hread. by rewrite (follow_stop _ _ _ _ Hd) in Hread. }
  assert (Hne : ka <> sp).
  { intros Heq. rewrite Heq, Hfree in Hka. by destruct Hka. }
  assert (Hd' : fs w' !! dir = Some (Directory rd true))
    by (by rewrite Hfs, !lookup_insert_ne).
  assert (Hs' : fs w' !! sp = Some (File content))
    by (by rewrite Hfs, lookup_insert_ne, lookup_insert_eq).
  (* the listing *)
  unfold FindStoredFiles, ReadDir in Hfind.
  destruct (String.eqb dir "") eqn:Ed.
  { apply eqb_true in Ed. by rewrite Ed in Hdabs. }
  rewrite Hkd, (follow_stop _ _ _ _ Hd') in Hfind by done.
  destruct rd; [|done]. injection Hfind as <-.
  apply storedLoop_In. exists name.
  split; [|split; [done|split]].
  - rewrite <- Hspbase.
    apply (dir_entries_In (fs w') dir sp (File content)); [done | done | done].
  - rewrite Hbackp. intros Heq. rewrite Heq in Hclean. done.
  - by rewrite Hbackp, Hspdef.
Qed.

Lemma saved_file_is_found_witness :
  exists name,
    ConvertToStorageName Sample.pc "src/CLAUDE.md" = Ok name
    /\ In (StoredFile.mk name "src/CLAUDE.md"
             "/home/u/.claude/claude-md/u/repo.git/src~CLAUDE.md")
          [StoredFile.mk "src~CLAUDE.md" "src/CLAUDE.md"
             "/home/u/.claude/claude-md/u/repo.git/src~CLAUDE.md"].
Proof.
  apply (saved_file_is_found Sample.save_opts Sample.src_file Sample.world_fresh
           (saveFile Sample.save_opts Sample.src_file Sample.world_fresh).2
           (saveFile Sample.save_opts Sample.src_file Sample.world_fresh).1).
  - reflexivity.
  - vm_compute. discriminate.
  - reflexivity.
  - reflexivity.
  - reflexivity.
  - reflexivity.
  - apply surjective_pairing.
  - vm_compute. reflexivity.
  - vm_compute. reflexivity.
Defined.

End FoundAgainFacts.

(** ** The records of the operations *)

Module RecordFacts.
Import OS Storage Files Operations.

Lemma saveFile_path (opts : SaveOptions.t) (file : ClaudeFile.t) (w : World) :
  SaveResult.RepoRelativePath (saveFile opts file w).1 = ClaudeFile.RepoRelativePath file.
Proof.
  unfold saveFile, restore_original. repeat case_match; done.
Qed.

Lemma restoreFile_path (opts : RestoreOptions.t) (stored : StoredFile.t) (w : World) :
  RestoreResult.RepoRelativePath (restoreFile opts stored w).1
  = StoredFile.RepoRelativePath stored
  /\ RestoreResult.StoragePath (restoreFile opts stored w).1
     = StoredFile.StoragePath stored.
Proof. unfold restoreFile. repeat case_match; done. Qed.

Lemma clearFile_path (storageDir : string) (file : ClaudeFile.t) (w : World) :
  ClearResult.RepoRelativePath (clearFile storageDir file w).1
  = ClaudeFile.RepoRelativePath file.
Proof. unfold clearFile. repeat case_match; done. Qed.

Lemma clearLoop_paths (storageDir : string) (files : list ClaudeFile.t) (w : World) :
  map ClearResult.RepoRelativePath (clearLoop storageDir files w).1
  = map ClaudeFile.RepoRelativePath (List.filter ClaudeFile.IsSymlink files).
Proof.
  revert w. induction files as [|file rest IH]; intros w; [done|].
  cbn [clearLoop List.filter]. destruct (ClaudeFile.IsSymlink file); cbn [negb].
  - pose proof (clearFile_path storageDir file w) as Hp.
    destruct (clearFile storageDir file w) as [r w1].
    specialize (IH w1). destruct (clearLoop storageDir rest w1) as [rs w2].
    cbn in *. by rewrite Hp, IH.
  - apply IH.
Qed.

(** The records follow the input: [SaveFiles] returns one record for each
    file, in order, with the relative path of the file; [RestoreFiles] one
    for each stored file, in order, with its relative path and storage path;
    [ClearSymlinks] one for each file flagged as a symbolic link among those
    [FindClaudeFiles] found, in order, and none when the search failed. *)
Theorem records_follow_input :
  (forall files opts w,
      map SaveResult.RepoRelativePath (SaveFiles files opts w).1
      = map ClaudeFile.RepoRelativePath files)
  /\ (forall storedFiles opts w,
      map (fun r => (RestoreResult.RepoRelativePath r, RestoreResult.StoragePath r))
          (RestoreFiles storedFiles opts w).1
      = map (fun s => (StoredFile.RepoRelativePath s, StoredFile.StoragePath s))
            storedFiles)
  /\ (forall opts w,
      map ClearResult.RepoRelativePath (ClearSymlinks opts w).1
      = match FindClaudeFiles (ClearOptions.RepoRoot opts) w with
        | (_, Some _) => []
        | (files, None) =>
            map ClaudeFile.RepoRelativePath (List.filter ClaudeFile.IsSymlink files)
        end).
Proof.
  split; [|split].
  - intros files opts. induction files as [|file rest IH]; intros w; [done|].
    cbn [SaveFiles]. pose proof (saveFile_path opts file w) as Hp.
    destruct (saveFile opts file w) as [r w1].
    specialize (IH w1). destruct (SaveFiles rest opts w1) as [rs w2].
    cbn in *. by rewrite Hp, IH.
  - intros storedFiles opts. induction storedFiles as [|stored rest IH]; intros w; [done|].
    cbn [RestoreFiles]. pose proof (restoreFile_path opts stored w) as [Hp Hs].
    destruct (restoreFile opts stored w) as [r w1].
    specialize (IH w1). destruct (RestoreFiles rest opts w1) as [rs w2].
    cbn in *. by rewrite Hp, Hs, IH.
  - intros opts w. unfold ClearSymlinks.
    destruct (FindClaudeFiles (ClearOptions.RepoRoot opts) w) as [files [err|]]; [done|].
    apply clearLoop_paths.
Qed.

End RecordFacts.

(** ** The summaries of the commands *)

Module ReportFacts.
Import Storage Files Operations Cmd FlagFacts.

Lemma countResults_sum (results : list SaveResult.t) (c : Counters) (o : Output) :
  Forall (fun r => SaveResult.Success r = true \/ SaveResult.Skipped r = true) results ->
  let c' := (countResults results c o).1 in
  (saved c' + skipped c' = saved c + skipped c + length results)%nat
  /\ saved c' = (saved c + length (List.filter SaveResult.Success results))%nat.
Proof.
  intros H. revert c o. induction H as [|r rest Hr _ IH]; intros c o.
  - cbn. lia.
  - cbn [countResults List.filter length]. destruct (SaveResult.Success r) eqn:Es.
    + specialize (IH (mkCounters (S (saved c)) (skipped c) (errors c))
                    (PrintSuccess ("Saved: " +:+ SaveResult.RepoRelativePath r) o)).
      cbn in IH |- *. lia.
    + destruct Hr as [Hr|Hr]; [done|]. rewrite Hr.
      specialize (IH (mkCounters (saved c) (S (skipped c)) (errors c))
                    (if negb (String.eqb (SaveResult.Warning r) "")
                     then PrintInfo ("Warning: " +:+ SaveResult.Warning r) o else o)).
      cbn in IH |- *. lia.
Qed.

(** The summary of [runSave] accounts for every file: the saved and the
    skipped counts add up to the number of files handed to [SaveFiles], and
    the saved count is the number of successful records. *)
Theorem runSave_counts_add_up (files : list ClaudeFile.t) (opts : SaveOptions.t)
    (w : OS.World) (o : Output) :
  let results := (SaveFiles files opts w).1 in
  let c := (reportSave results o).1 in
  length results = length files
  /\ (saved c + skipped c)%nat = length files
  /\ saved c = length (List.filter SaveResult.Success results).
Proof.
  intros results c.
  assert (Hlen : length results = length files).
  { subst results. clear c. revert w. induction files as [|file rest IH]; intros w; [done|].
    cbn [SaveFiles]. destruct (saveFile opts file w) as [r w1].
    specialize (IH w1). destruct (SaveFiles rest opts w1) as [rs w2]. cbn in *. lia. }
  assert (Hflags : Forall (fun r => SaveResult.Success r = true
                                    \/ SaveResult.Skipped r = true) results).
  { apply SaveFiles_Forall. intros opts' file w'.
    destruct (saveFile_flags opts' file w') as [(H & _) | (_ & H)]; auto. }
  pose proof (countResults_sum results (mkCounters 0 0 0) o Hflags) as [H1 H2].
  subst c. unfold reportSave.
  destruct (countResults results (mkCounters 0 0 0) o) as [c1 o1].
  cbn in *. split; [done|]. split; lia.
Qed.

Lemma countCleared_sum (results : list ClearResult.t) (c : ClearCounters) (o : Output) :
  Forall (fun r => ClearResult.Success r = true \/ ClearResult.Skipped r = true
                   \/ ClearResult.Error r <> None) results ->
  let c' := (countCleared results c o).1 in
  (removed c' + clear_skipped c' + clear_errors c'
   = removed c + clear_skipped c + clear_errors c + length results)%nat
  /\ removed c' = (removed c + length (List.filter ClearResult.Success results))%nat.
Proof.
  intros H. revert c o. induction H as [|r rest Hr _ IH]; intros c o.
  - cbn. lia.
  - cbn [countCleared List.filter length]. destruct (ClearResult.Success r) eqn:Es.
    + specialize (IH (mkClearCounters (S (removed c)) (clear_skipped c) (clear_errors c))
                    (PrintSuccess ("Removed: " +:+ ClearResult.RepoRelativePath r) o)).
      cbn in IH |- *. lia.
    + destruct (ClearResult.Skipped r) eqn:Ek.
      * specialize (IH (mkClearCounters (removed c) (S (clear_skipped c)) (clear_errors c))
                      (PrintInfo ("Skipped " +:+ ClearResult.RepoRelativePath r +:+ ": "
                                  +:+ ClearResult.SkipReason r) o)).
        cbn in IH |- *. lia.
      * destruct (ClearResult.Error r) as [err|] eqn:Ee.
        -- specialize (IH (mkClearCounters (removed c) (clear_skipped c)
                             (S (clear_errors c)))
                          (PrintError ("Error removing " +:+ ClearResult.RepoRelativePath r
                                       +:+ ": " +:+ Error err) o)).
           cbn in IH |- *. lia.
        -- destruct Hr as [Hr | [Hr | Hr]]; done.
Qed.

Lemma countCleared_Stdout (results : list ClearResult.t) (c : ClearCounters) (o : Output) :
  (String.length (Stdout o) <= String.length (Stdout (countCleared results c o).2))%nat.
Proof.
  revert c o. induction results as [|r rest IH]; intros c o; [done|].
  cbn [countCleared].
  repeat case_match;
    (etrans; [|apply IH]); cbn; rewrite ?StringFacts.length_append; lia.
Qed.

Lemma clearFile_counted (storageDir : string) (file : ClaudeFile.t) (w : OS.World) :
  let r := (clearFile storageDir file w).1 in
  ClearResult.Success r = true \/ ClearResult.Skipped r = true
  \/ ClearResult.Error r <> None.
Proof. unfold clearFile. repeat case_match; simpl; auto. Qed.

(** The summary of [runClear] accounts for every record of [ClearSymlinks]:
    each is counted once, as removed, skipped or error, and the removed
    count is the number of successful records; "No CLAUDE.md symlinks found
    in repository" is reported exactly when there is no record. *)
Theorem runClear_counts_add_up (opts : ClearOptions.t) (w : OS.World) (o : Output) :
  let results := (ClearSymlinks opts w).1 in
  let c := (reportClear results o).1 in
  (removed c + clear_skipped c + clear_errors c)%nat = length results
  /\ removed c = length (List.filter ClearResult.Success results)
  /\ (results = [] <->
      (reportClear results o).2 = PrintInfo "No CLAUDE.md symlinks found in repository" o).
Proof.
  intros results c.
  assert (Hflags : Forall (fun r => ClearResult.Success r = true
                                    \/ ClearResult.Skipped r = true
                                    \/ ClearResult.Error r <> None) results).
  { apply ClearSymlinks_Forall. intros. apply clearFile_counted. }
  pose proof (countCleared_sum results (mkClearCounters 0 0 0) o Hflags) as [H1 H2].
  subst c. unfold reportClear.
  pose proof (countCleared_Stdout results (mkClearCounters 0 0 0) o) as Hout.
  destruct (countCleared results (mkClearCounters 0 0 0) o) as [c1 o1] eqn:Ec.
  cbn in H1, H2, Hout.
  split; [|split].
  - by destruct (_ && _).
  - by destruct (_ && _).
  - split.
    + intros Hnil. rewrite Hnil in Ec. by injection Ec as <- <-.
    + destruct results as [|r rest]; [done|]. cbn [length] in H1.
      destruct ((removed c1 =? 0)%nat && (clear_errors c1 =? 0)%nat
                && (clear_skipped c1 =? 0)%nat) eqn:Ez.
      * apply andb_prop in Ez as [Ez Ez3]. apply andb_prop in Ez as [Ez1 Ez2].
        apply Nat.eqb_eq in Ez1, Ez2, Ez3. lia.
      * intros Heq. apply (f_equal Stdout) in Heq. cbn in Heq.
        apply (f_equal String.length) in Heq.
        rewrite !StringFacts.length_append in Heq. cbn in Heq. lia.
Qed.

Lemma countRestored_sum (results : list RestoreResult.t) (c : RestoreCounters)
    (o : Output) :
  Forall (fun r => RestoreResult.Success r = true \/ RestoreResult.Skipped r = true)
         results ->
  let c' := (countRestored results c o).1 in
  (restored c' + restore_skipped c'
   = restored c + restore_skipped c + length results)%nat
  /\ restored c' = (restored c + length (List.filter RestoreResult.Success results))%nat
  /\ (warnings c <= restore_skipped c -> warnings c' <= restore_skipped c')%nat.
Proof.
  intros H. revert c o. induction H as [|r rest Hr _ IH]; intros c o.
  - cbn. lia.
  - cbn [countRestored List.filter length]. destruct (RestoreResult.Success r) eqn:Es.
    + specialize (IH (mkRestoreCounters (S (restored c)) (restore_skipped c) (warnings c))
                    (PrintSuccess ("Restored: " +:+ RestoreResult.RepoRelativePath r) o)).
      cbn in IH |- *. lia.
    + destruct Hr as [Hr|Hr]; [done|]. rewrite Hr.
      destruct (negb (String.eqb (RestoreResult.Warning r) "")).
      * specialize (IH (mkRestoreCounters (restored c) (S (restore_skipped c))
                          (S (warnings c)))
                       (PrintInfo ("Warning: " +:+ RestoreResult.Warning r) o)).
        cbn in IH |- *. lia.
      * specialize (IH (mkRestoreCounters (restored c) (S (restore_skipped c))
                          (warnings c)) o).
        cbn in IH |- *. lia.
Qed.

(** The summary of [runRestore] accounts for every stored file: the
    restored and the skipped counts add up to the number of stored files,
    the restored count is the number of successful records, and the
    warnings are some of the skipped ones. *)
Theorem runRestore_counts_add_up (storedFiles : list StoredFile.t)
    (opts : RestoreOptions.t) (w : OS.World) (o : Output) :
  let results := (RestoreFiles storedFiles opts w).1 in
  let c := (reportRestore results o).1 in
  length results = length storedFiles
  /\ (restored c + restore_skipped c)%nat = length storedFiles
  /\ restored c = length (List.filter RestoreResult.Success results)
  /\ (warnings c <= restore_skipped c)%nat.
Proof.
  intros results c.
  assert (Hlen : length results = length storedFiles).
  { subst results. clear c. revert w.
    induction storedFiles as [|stored rest IH]; intros w; [done|].
    cbn [RestoreFiles]. destruct (restoreFile opts stored w) as [r w1].
    specialize (IH w1). destruct (RestoreFiles rest opts w1) as [rs w2]. cbn in *. lia. }
  assert (Hflags : Forall (fun r => RestoreResult.Success r = true
                                    \/ RestoreResult.Skipped r = true) results).
  { apply RestoreFiles_Forall. intros opts' stored w'.
    destruct (restoreFile_flags opts' stored w') as [(H & _) | (_ & H)]; auto. }
  pose proof (countRestored_sum results (mkRestoreCounters 0 0 0) o Hflags)
    as (H1 & H2 & H3).
  subst c. unfold reportRestore.
  destruct (countRestored results (mkRestoreCounters 0 0 0) o) as [c1 o1].
  cbn in *. split; [done|]. repeat split; lia.
Qed.

End ReportFacts.
